(** * An in-memory task and user manager: validators, entities, services

    A shallow embedding of the TypeScript sources
    [src/utils/validators.ts], [src/models/types.ts], [src/models/Task.ts],
    [src/models/User.ts], [src/services/TaskService.ts] and
    [src/services/UserService.ts], followed by the vocabulary in which the
    properties are stated and by the properties themselves: what the
    validators accept, what the query engine returns (filtering, sorting,
    pagination), and what the services keep invariant.

    Conventions of the embedding.
    - A JavaScript string is a [string]: a sequence of code units, here the
      8-bit ones.  [String.length] is the [.length] of the source.
    - A [Date] is its time value: an integral number of milliseconds, or
      the "Invalid Date" whose time value is NaN.
    - An optional property ([x?: T]) of an entity or of an option bag is an
      [option T]; [None] is [undefined].
    - Objects handed to [validators.ts] are records of [Field]s: the
      validators test for [undefined] and for [null] separately, the
      enumeration guards inspect raw strings, and the elements of the tag
      array are tested one by one.
    - [new Date()] reads the clock; every operation that reads it takes the
      instant [now] as an argument.
    - The services are state transformers: an operation takes the service
      state and returns the response together with the next state. *)

From Stdlib Require Import ZArith List String Ascii Bool Lia.
From Stdlib Require Import Permutation Sorted DecimalString DecimalNat.
From stdpp Require Import base list strings.
Import ListNotations.

(** ** JavaScript values used by the sources *)

(** Code units that [String.prototype.trim] removes and that [\s] matches:
    TAB, LF, VT, FF, CR, SPACE and NBSP. *)
Definition isWhiteSpace (c : ascii) : bool :=
  let n := nat_of_ascii c in
  ((9 <=? n)%nat && (n <=? 13)%nat) || (n =? 32)%nat || (n =? 160)%nat.

Fixpoint trimStart (s : string) : string :=
  match s with
  | EmptyString => EmptyString
  | String c s' => if isWhiteSpace c then trimStart s' else s
  end.

Fixpoint trimEnd (s : string) : string :=
  match s with
  | EmptyString => EmptyString
  | String c s' =>
      match trimEnd s' with
      | EmptyString => if isWhiteSpace c then EmptyString else String c EmptyString
      | r => String c r
      end
  end.

(** [s.trim()] *)
Definition trim (s : string) : string := trimEnd (trimStart s).

(** Truthiness of a string: only the empty string is falsy. *)
Definition truthy (s : string) : bool := negb (String.eqb s "").

(** Truthiness of a [string | null] result. *)
Definition truthy_opt (o : option string) : bool :=
  match o with Some s => truthy s | None => false end.

(** [`${n}`] for a non-negative integer. *)
Definition numToString (n : nat) : string :=
  NilZero.string_of_uint (Nat.to_uint n).

(** [parts.join(sep)] *)
Fixpoint join (sep : string) (parts : list string) : string :=
  match parts with
  | [] => ""
  | [p] => p
  | p :: rest => p +:+ sep +:+ join sep rest
  end.

(** [arr.push(x)], as the new contents of the array. *)
Definition push {A : Type} (arr : list A) (x : A) : list A := arr ++ [x].

(** [arr.includes(x)] for strings. *)
Definition includes (arr : list string) (x : string) : bool :=
  existsb (String.eqb x) arr.

(** [arr.findIndex(p)]; [None] is the source's [-1]. *)
Fixpoint findIndex {A : Type} (p : A -> bool) (arr : list A) : option nat :=
  match arr with
  | [] => None
  | x :: rest => if p x then Some 0%nat else option_map S (findIndex p rest)
  end.

Inductive Date : Type :=
| Instant (ms : Z)
| InvalidDate.

(** [a < b] on dates compares the time values; a NaN compares false. *)
Definition date_lt (a b : Date) : bool :=
  match a, b with
  | Instant x, Instant y => (x <? y)%Z
  | _, _ => false
  end.

Definition date_gt (a b : Date) : bool := date_lt b a.

(** A property of an object received by the validators. *)
Inductive Field (A : Type) : Type :=
| Undefined
| Null
| Defined (a : A).
Arguments Undefined {A}.
Arguments Null {A}.
Arguments Defined {A} a.

Definition is_undefined {A : Type} (f : Field A) : bool :=
  match f with Undefined => true | _ => false end.

Definition is_null {A : Type} (f : Field A) : bool :=
  match f with Null => true | _ => false end.

(** ** Regular expressions

    The two email patterns of the sources are anchored at both ends and
    have no flags, so [re.test(s)] is membership of the whole of [s] in the
    language of the pattern.  Membership is decided with derivatives. *)
Module Regex.

Inductive t : Type :=
| Never
| Empty
| Chars (p : ascii -> bool)
| Seq (r1 r2 : t)
| Alt (r1 r2 : t)
| Star (r : t).

(** [r+] *)
Definition Plus (r : t) : t := Seq r (Star r).

(** A literal character. *)
Definition Lit (c : ascii) : t := Chars (Ascii.eqb c).

Fixpoint nullable (r : t) : bool :=
  match r with
  | Never => false
  | Empty => true
  | Chars _ => false
  | Seq r1 r2 => nullable r1 && nullable r2
  | Alt r1 r2 => nullable r1 || nullable r2
  | Star _ => true
  end.

Fixpoint deriv (c : ascii) (r : t) : t :=
  match r with
  | Never => Never
  | Empty => Never
  | Chars p => if p c then Empty else Never
  | Seq r1 r2 =>
      if nullable r1
      then Alt (Seq (deriv c r1) r2) (deriv c r2)
      else Seq (deriv c r1) r2
  | Alt r1 r2 => Alt (deriv c r1) (deriv c r2)
  | Star r1 => Seq (deriv c r1) (Star r1)
  end.

(** [/^r$/.test(s)] *)
Fixpoint test (r : t) (s : string) : bool :=
  match s with
  | EmptyString => nullable r
  | String c s' => test (deriv c r) s'
  end.

(** The language of a pattern. *)
Inductive matches : t -> string -> Prop :=
| m_empty : matches Empty ""
| m_chars p c : p c = true -> matches (Chars p) (String c "")
| m_seq r1 r2 s1 s2 : matches r1 s1 -> matches r2 s2 -> matches (Seq r1 r2) (s1 +:+ s2)
| m_alt_l r1 r2 s : matches r1 s -> matches (Alt r1 r2) s
| m_alt_r r1 r2 s : matches r2 s -> matches (Alt r1 r2) s
| m_star_nil r : matches (Star r) ""
| m_star_cons r s1 s2 : matches r s1 -> matches (Star r) s2 -> matches (Star r) (s1 +:+ s2).

End Regex.

(** [[^\s@]]: any code unit that is neither white space nor ['@']. *)
Definition notSpaceNorAt (c : ascii) : bool :=
  negb (isWhiteSpace c || Ascii.eqb c "@").

(** [/^[^\s@]+@[^\s@]+\.[^\s@]+$/] *)
Definition emailRegex : Regex.t :=
  Regex.Seq (Regex.Plus (Regex.Chars notSpaceNorAt))
    (Regex.Seq (Regex.Lit "@")
       (Regex.Seq (Regex.Plus (Regex.Chars notSpaceNorAt))
          (Regex.Seq (Regex.Lit ".")
             (Regex.Plus (Regex.Chars notSpaceNorAt))))).

(** [s.replace(/\s+/g, ' ')]: every maximal run of white space becomes
    one space.  [inRun] tells that the code unit before was white space,
    so that the run has been replaced already. *)
Fixpoint replaceSpaceRuns (inRun : bool) (s : string) : string :=
  match s with
  | EmptyString => EmptyString
  | String c s' =>
      if isWhiteSpace c then
        if inRun then replaceSpaceRuns true s'
        else String " " (replaceSpaceRuns true s')
      else String c (replaceSpaceRuns false s')
  end.



(** The result of every validator: [{ isValid, errors }]. *)
Record ValidationResult : Type := {
  isValid : bool;
  errors : list string
}.

(** ** [src/utils/validators.ts] *)
Module Validators.

(** [Object.values(Priority)], [Object.values(TaskStatus)] and
    [Object.values(UserRole)] of [types.ts]. *)
Definition PriorityValues : list string := ["low"; "medium"; "high"; "urgent"].
Definition TaskStatusValues : list string := ["todo"; "in-progress"; "done"; "cancelled"].
Definition UserRoleValues : list string := ["admin"; "manager"; "user"; "guest"].

(** [Partial<ITask>] as the validator receives it.  The fields the
    validator never reads ([id], [completed], [assignedTo], [createdAt],
    [updatedAt]) are kept: they are part of the record. *)
Record TaskData : Type := {
  id : Field string;
  title : Field string;
  description : Field string;
  completed : Field bool;
  priority : Field string;
  status : Field string;
  assignedTo : Field string;
  createdAt : Field Date;
  updatedAt : Field Date;
  dueDate : Field Date;
  tags : Field (list (Field string))
}.

(** [Partial<IUser>] as the validator receives it, without the fields
    [id], [isActive], [createdAt], [lastLogin] and [preferences], which no
    validator reads. *)
Record UserData : Type := {
  name : Field string;
  email : Field string;
  role : Field string
}.

Definition isString (value : Field string) : bool :=
  match value with Defined _ => true | _ => false end.

(** [value instanceof Date && !isNaN(value.getTime())] *)
Definition isDate (value : Field Date) : bool :=
  match value with Defined (Instant _) => true | _ => false end.

Definition isArray {A : Type} (value : Field (list A)) : bool :=
  match value with Defined _ => true | _ => false end.

Definition isEnumValue (values : list string) (value : Field string) : bool :=
  isString value &&
  match value with Defined s => includes values s | _ => false end.

Definition isPriority : Field string -> bool := isEnumValue PriorityValues.
Definition isTaskStatus : Field string -> bool := isEnumValue TaskStatusValues.
Definition isUserRole : Field string -> bool := isEnumValue UserRoleValues.

Definition isValidEmail (email : string) : bool := Regex.test emailRegex email.

Definition validateRequired (value : Field string) (fieldName : string) : option string :=
  if is_undefined value || is_null value then
    Some (fieldName +:+ " is required")
  else if isString value &&
          match value with
          | Defined s => (String.length (trim s) =? 0)%nat
          | _ => false
          end
  then Some (fieldName +:+ " cannot be empty")
  else None.

(** Both call sites pass [minLength] and [maxLength], so the defaults
    ([0] and [Infinity]) are not modelled. *)
Definition validateStringLength (value : string) (fieldName : string)
    (minLength maxLength : nat) : option string :=
  if (String.length value <? minLength)%nat then
    Some (fieldName +:+ " must be at least " +:+ numToString minLength +:+ " characters long")
  else if (maxLength <? String.length value)%nat then
    Some (fieldName +:+ " must be no more than " +:+ numToString maxLength +:+ " characters long")
  else None.

(** [if (e) errors.push(e)] *)
Definition pushIfError (errors : list string) (e : option string) : list string :=
  match e with
  | Some m => if truthy m then push errors m else errors
  | None => errors
  end.

(** The string held by a field known not to be [undefined] or [null]. *)
Definition stringOf (value : Field string) : string :=
  match value with Defined s => s | _ => "" end.

(** The body of [validateTaskData] is a sequence of blocks, each of which
    may push onto [errors]; a block is given here as the function from the
    array before it to the array after it. *)

(** [// Validate title] *)
Definition checkTitle (taskData : TaskData) (errors : list string) : list string :=
  if negb (is_undefined (title taskData)) then
    let titleError := validateRequired (title taskData) "Title" in
    if truthy_opt titleError then pushIfError errors titleError
    else
      let lengthError := validateStringLength (stringOf (title taskData)) "Title" 1 200 in
      pushIfError errors lengthError
  else errors.

(** [// Validate description] *)
Definition checkDescription (taskData : TaskData) (errors : list string) : list string :=
  if negb (is_undefined (description taskData)) && negb (is_null (description taskData)) then
    let lengthError :=
      validateStringLength (stringOf (description taskData)) "Description" 0 1000 in
    pushIfError errors lengthError
  else errors.

(** [// Validate priority] *)
Definition checkPriority (taskData : TaskData) (errors : list string) : list string :=
  if negb (is_undefined (priority taskData)) && negb (isPriority (priority taskData))
  then push errors "Invalid priority value"
  else errors.

(** [// Validate status] *)
Definition checkStatus (taskData : TaskData) (errors : list string) : list string :=
  if negb (is_undefined (status taskData)) && negb (isTaskStatus (status taskData))
  then push errors "Invalid status value"
  else errors.

(** [// Validate due date] *)
Definition checkDueDate (taskData : TaskData) (errors : list string) : list string :=
  if negb (is_undefined (dueDate taskData)) && negb (is_null (dueDate taskData)) then
    if negb (isDate (dueDate taskData))
    then push errors "Due date must be a valid date"
    else errors
  else errors.

(** [// Validate tags] *)
Definition checkTags (taskData : TaskData) (errors : list string) : list string :=
  if negb (is_undefined (tags taskData)) then
    if negb (isArray (tags taskData)) then push errors "Tags must be an array"
    else if negb (match tags taskData with
                  | Defined l => forallb isString l
                  | _ => true
                  end)
    then push errors "All tags must be strings"
    else errors
  else errors.

Definition validateTaskData (taskData : TaskData) : ValidationResult :=
  let errors : list string := [] in
  let errors := checkTitle taskData errors in
  let errors := checkDescription taskData errors in
  let errors := checkPriority taskData errors in
  let errors := checkStatus taskData errors in
  let errors := checkDueDate taskData errors in
  let errors := checkTags taskData errors in
  {| isValid := (length errors =? 0)%nat; errors := errors |}.

(** [// Validate name] *)
Definition checkName (userData : UserData) (errors : list string) : list string :=
  if negb (is_undefined (name userData)) then
    let nameError := validateRequired (name userData) "Name" in
    if truthy_opt nameError then pushIfError errors nameError
    else
      let lengthError := validateStringLength (stringOf (name userData)) "Name" 1 100 in
      pushIfError errors lengthError
  else errors.

(** [// Validate email] *)
Definition checkEmail (userData : UserData) (errors : list string) : list string :=
  if negb (is_undefined (email userData)) then
    let emailError := validateRequired (email userData) "Email" in
    if truthy_opt emailError then pushIfError errors emailError
    else if negb (isValidEmail (stringOf (email userData)))
    then push errors "Invalid email format"
    else errors
  else errors.

(** [// Validate role] *)
Definition checkRole (userData : UserData) (errors : list string) : list string :=
  if negb (is_undefined (role userData)) && negb (isUserRole (role userData))
  then push errors "Invalid user role"
  else errors.

Definition validateUserData (userData : UserData) : ValidationResult :=
  let errors : list string := [] in
  let errors := checkName userData errors in
  let errors := checkEmail userData errors in
  let errors := checkRole userData errors in
  {| isValid := (length errors =? 0)%nat; errors := errors |}.

(** [isValidTaskTitle], [isValidTaskDescription] and [isValidUserName] *)
Definition isValidTaskTitle (title0 : string) : bool :=
  (0 <? String.length (trim title0))%nat && (String.length title0 <=? 200)%nat.

Definition isValidTaskDescription (description0 : string) : bool :=
  (String.length description0 <=? 1000)%nat.

Definition isValidUserName (name0 : string) : bool :=
  (0 <? String.length (trim name0))%nat && (String.length name0 <=? 100)%nat.

Definition sanitizeString (input : string) : string :=
  replaceSpaceRuns false (trim input).


End Validators.

(** ** [src/models/types.ts] *)

Inductive Priority : Type := LOW | MEDIUM | HIGH | URGENT.
Inductive TaskStatus : Type := TODO | IN_PROGRESS | DONE | CANCELLED.
Inductive UserRole : Type := ADMIN | MANAGER | USER | GUEST.

#[global] Instance Priority_eq_dec : EqDecision Priority.
Proof. solve_decision. Defined.
#[global] Instance TaskStatus_eq_dec : EqDecision TaskStatus.
Proof. solve_decision. Defined.
#[global] Instance UserRole_eq_dec : EqDecision UserRole.
Proof. solve_decision. Defined.

(** The string behind each enumeration member. *)
Definition PriorityValue (p : Priority) : string :=
  match p with LOW => "low" | MEDIUM => "medium" | HIGH => "high" | URGENT => "urgent" end.

Definition TaskStatusValue (s : TaskStatus) : string :=
  match s with
  | TODO => "todo" | IN_PROGRESS => "in-progress" | DONE => "done" | CANCELLED => "cancelled"
  end.

Definition UserRoleValue (r : UserRole) : string :=
  match r with ADMIN => "admin" | MANAGER => "manager" | USER => "user" | GUEST => "guest" end.

(** [ApiResponse<T>] *)
Record ApiResponse (T : Type) : Type := {
  success : bool;
  data : option T;
  error : option string;
  timestamp : Date
}.
Arguments success {T} _.
Arguments data {T} _.
Arguments error {T} _.
Arguments timestamp {T} _.

Definition ok {T : Type} (x : T) (now : Z) : ApiResponse T :=
  {| success := true; data := Some x; error := None; timestamp := Instant now |}.

Definition failure {T : Type} (msg : string) (now : Z) : ApiResponse T :=
  {| success := false; data := None; error := Some msg; timestamp := Instant now |}.

(** [keyof ITask] *)
Inductive TaskKey : Type :=
| K_id | K_title | K_description | K_completed | K_priority | K_status
| K_assignedTo | K_createdAt | K_updatedAt | K_dueDate | K_tags.

Inductive SortOrder : Type := asc | desc.

(** [PaginationOptions]; [page] and [limit] are numbers with integral
    values. *)
Record PaginationOptions : Type := {
  page : Z;
  limit : Z;
  sortBy : option TaskKey;
  sortOrder : option SortOrder
}.

(** [T | T[]] *)
Inductive OneOrMany (T : Type) : Type :=
| One (x : T)
| Many (xs : list T).
Arguments One {T} x.
Arguments Many {T} xs.

Record DateRange : Type := {
  range_start : Date;
  range_end : Date
}.

Module TaskFilters.
Record t : Type := {
  status : option (OneOrMany TaskStatus);
  priority : option (OneOrMany Priority);
  assignedTo : option string;
  completed : option bool;
  dateRange : option DateRange;
  tags : option (list string)
}.
End TaskFilters.

(** [CreateTaskInput] *)
Module CreateTaskInput.
Record t : Type := {
  title : string;
  description : option string;
  priority : option Priority;
  assignedTo : option string;
  dueDate : option Date;
  tags : option (list string)
}.
End CreateTaskInput.

(** [UpdateTaskInput] *)
Module UpdateTaskInput.
Record t : Type := {
  title : option string;
  description : option string;
  priority : option Priority;
  assignedTo : option string;
  dueDate : option Date;
  tags : option (list string)
}.
End UpdateTaskInput.

(** [Partial<ITask>] *)
Module PartialITask.
Record t : Type := {
  id : option string;
  title : option string;
  description : option string;
  completed : option bool;
  priority : option Priority;
  status : option TaskStatus;
  assignedTo : option string;
  createdAt : option Date;
  updatedAt : option Date;
  dueDate : option Date;
  tags : option (list string)
}.
End PartialITask.

(** [ITask] *)
Module ITask.
Record t : Type := {
  id : string;
  title : string;
  description : option string;
  completed : bool;
  priority : Priority;
  status : TaskStatus;
  assignedTo : option string;
  createdAt : Date;
  updatedAt : Date;
  dueDate : option Date;
  tags : list string
}.
End ITask.

Inductive Theme : Type := light | dark.

Record UserPreferences : Type := {
  theme : Theme;
  notifications : bool;
  language : string;
  timezone : string
}.

(** [Partial<UserPreferences>] *)
Module PartialUserPreferences.
Record t : Type := {
  theme : option Theme;
  notifications : option bool;
  language : option string;
  timezone : option string
}.
End PartialUserPreferences.

(** [{ ...base, ...updates }] *)
Definition spreadPreferences (base : UserPreferences)
    (updates : PartialUserPreferences.t) : UserPreferences :=
  {| theme := default (theme base) (PartialUserPreferences.theme updates);
     notifications := default (notifications base) (PartialUserPreferences.notifications updates);
     language := default (language base) (PartialUserPreferences.language updates);
     timezone := default (timezone base) (PartialUserPreferences.timezone updates) |}.

Definition allPreferences (p : UserPreferences) : PartialUserPreferences.t :=
  {| PartialUserPreferences.theme := Some (theme p);
     PartialUserPreferences.notifications := Some (notifications p);
     PartialUserPreferences.language := Some (language p);
     PartialUserPreferences.timezone := Some (timezone p) |}.

(** [CreateUserInput] *)
Module CreateUserInput.
Record t : Type := {
  name : string;
  email : string;
  role : option UserRole;
  preferences : option PartialUserPreferences.t
}.
End CreateUserInput.

(** [Partial<IUser>] *)
Module PartialIUser.
Record t : Type := {
  id : option string;
  name : option string;
  email : option string;
  role : option UserRole;
  isActive : option bool;
  createdAt : option Date;
  lastLogin : option Date;
  preferences : option UserPreferences
}.
End PartialIUser.

(** [IUser] *)
Module IUser.
Record t : Type := {
  id : string;
  name : string;
  email : string;
  role : UserRole;
  isActive : bool;
  createdAt : Date;
  lastLogin : option Date;
  preferences : UserPreferences
}.
End IUser.

(** ** [src/models/Task.ts] *)
Module Task.

Record t : Type := {
  id : string;
  title : string;
  description : option string;
  priority : Priority;
  status : TaskStatus;
  assignedTo : option string;
  createdAt : Date;
  updatedAt : Date;
  dueDate : option Date;
  tags : list string;
  _completed : bool
}.

(** [new Task({ ...input, id })] *)
Definition constructor (input : CreateTaskInput.t) (id0 : string) (now : Z) : t :=
  {| id := id0;
     title := CreateTaskInput.title input;
     description := CreateTaskInput.description input;
     priority := default MEDIUM (CreateTaskInput.priority input);
     status := TODO;
     assignedTo := CreateTaskInput.assignedTo input;
     createdAt := Instant now;
     updatedAt := Instant now;
     dueDate := CreateTaskInput.dueDate input;
     tags := default [] (CreateTaskInput.tags input);
     _completed := false |}.

(** The getter [completed]. *)
Definition completed (this : t) : bool := _completed this.

Definition set_title (v : string) (this : t) : t :=
  {| id := id this; title := v; description := description this;
     priority := priority this; status := status this; assignedTo := assignedTo this;
     createdAt := createdAt this; updatedAt := updatedAt this; dueDate := dueDate this;
     tags := tags this; _completed := _completed this |}.

Definition set_description (v : option string) (this : t) : t :=
  {| id := id this; title := title this; description := v;
     priority := priority this; status := status this; assignedTo := assignedTo this;
     createdAt := createdAt this; updatedAt := updatedAt this; dueDate := dueDate this;
     tags := tags this; _completed := _completed this |}.

Definition set_priority (v : Priority) (this : t) : t :=
  {| id := id this; title := title this; description := description this;
     priority := v; status := status this; assignedTo := assignedTo this;
     createdAt := createdAt this; updatedAt := updatedAt this; dueDate := dueDate this;
     tags := tags this; _completed := _completed this |}.

Definition set_status (v : TaskStatus) (this : t) : t :=
  {| id := id this; title := title this; description := description this;
     priority := priority this; status := v; assignedTo := assignedTo this;
     createdAt := createdAt this; updatedAt := updatedAt this; dueDate := dueDate this;
     tags := tags this; _completed := _completed this |}.

Definition set_assignedTo (v : option string) (this : t) : t :=
  {| id := id this; title := title this; description := description this;
     priority := priority this; status := status this; assignedTo := v;
     createdAt := createdAt this; updatedAt := updatedAt this; dueDate := dueDate this;
     tags := tags this; _completed := _completed this |}.

Definition set_updatedAt (v : Date) (this : t) : t :=
  {| id := id this; title := title this; description := description this;
     priority := priority this; status := status this; assignedTo := assignedTo this;
     createdAt := createdAt this; updatedAt := v; dueDate := dueDate this;
     tags := tags this; _completed := _completed this |}.

Definition set_dueDate (v : option Date) (this : t) : t :=
  {| id := id this; title := title this; description := description this;
     priority := priority this; status := status this; assignedTo := assignedTo this;
     createdAt := createdAt this; updatedAt := updatedAt this; dueDate := v;
     tags := tags this; _completed := _completed this |}.

Definition set_tags (v : list string) (this : t) : t :=
  {| id := id this; title := title this; description := description this;
     priority := priority this; status := status this; assignedTo := assignedTo this;
     createdAt := createdAt this; updatedAt := updatedAt this; dueDate := dueDate this;
     tags := v; _completed := _completed this |}.

Definition set_completed (v : bool) (this : t) : t :=
  {| id := id this; title := title this; description := description this;
     priority := priority this; status := status this; assignedTo := assignedTo this;
     createdAt := createdAt this; updatedAt := updatedAt this; dueDate := dueDate this;
     tags := tags this; _completed := v |}.

(** [if (v !== undefined) this.x = v] *)
Definition assignIfDefined {A : Type} (v : option A) (set : A -> t -> t) (this : t) : t :=
  match v with Some a => set a this | None => this end.

Definition markComplete (now : Z) (this : t) : t :=
  set_updatedAt (Instant now) (set_status DONE (set_completed true this)).

Definition markIncomplete (now : Z) (this : t) : t :=
  set_updatedAt (Instant now) (set_status TODO (set_completed false this)).

Definition update (updates : UpdateTaskInput.t) (now : Z) (this : t) : t :=
  let this := assignIfDefined (UpdateTaskInput.title updates) set_title this in
  let this := assignIfDefined (UpdateTaskInput.description updates)
                (fun d => set_description (Some d)) this in
  let this := assignIfDefined (UpdateTaskInput.priority updates) set_priority this in
  let this := assignIfDefined (UpdateTaskInput.assignedTo updates)
                (fun a => set_assignedTo (Some a)) this in
  let this := assignIfDefined (UpdateTaskInput.dueDate updates)
                (fun d => set_dueDate (Some d)) this in
  let this := assignIfDefined (UpdateTaskInput.tags updates) set_tags this in
  set_updatedAt (Instant now) this.

Definition addTag (tag : string) (now : Z) (this : t) : t :=
  if negb (includes (tags this) tag)
  then set_updatedAt (Instant now) (set_tags (push (tags this) tag) this)
  else this.

Definition removeTag (tag : string) (now : Z) (this : t) : t :=
  match findIndex (String.eqb tag) (tags this) with
  | Some index => set_updatedAt (Instant now) (set_tags (delete index (tags this)) this)
  | None => this
  end.

Definition validate (this : t) : ValidationResult :=
  let errors : list string := [] in
  let errors :=
    if negb (truthy (title this)) || (String.length (trim (title this)) =? 0)%nat
    then push errors "Title is required" else errors in
  let errors :=
    if truthy (title this) && (200 <? String.length (title this))%nat
    then push errors "Title must be less than 200 characters" else errors in
  let errors :=
    match description this with
    | Some d =>
        if truthy d && (1000 <? String.length d)%nat
        then push errors "Description must be less than 1000 characters" else errors
    | None => errors
    end in
  let errors :=
    match dueDate this with
    | Some due =>
        if date_lt due (createdAt this)
        then push errors "Due date cannot be before creation date" else errors
    | None => errors
    end in
  {| isValid := (length errors =? 0)%nat; errors := errors |}.

(** [(task as any).createdAt = v], the one write to the read-only
    property, in [fromJSON]. *)
Definition set_createdAt (v : Date) (this : t) : t :=
  {| id := id this; title := title this; description := description this;
     priority := priority this; status := status this; assignedTo := assignedTo this;
     createdAt := v; updatedAt := updatedAt this; dueDate := dueDate this;
     tags := tags this; _completed := _completed this |}.

Definition isOverdue (now : Z) (this : t) : bool :=
  match dueDate this with
  | None => false
  | Some due => if completed this then false else date_gt (Instant now) due
  end.

Definition toJSON (this : t) : ITask.t :=
  {| ITask.id := id this;
     ITask.title := title this;
     ITask.description := description this;
     ITask.completed := completed this;
     ITask.priority := priority this;
     ITask.status := status this;
     ITask.assignedTo := assignedTo this;
     ITask.createdAt := createdAt this;
     ITask.updatedAt := updatedAt this;
     ITask.dueDate := dueDate this;
     ITask.tags := tags this |}.

(** The constructor reads the clock; [fromJSON] then overwrites both
    dates. *)
Definition fromJSON (data0 : ITask.t) (now : Z) : t :=
  let task :=
    constructor
      {| CreateTaskInput.title := ITask.title data0;
         CreateTaskInput.description := ITask.description data0;
         CreateTaskInput.priority := Some (ITask.priority data0);
         CreateTaskInput.assignedTo := ITask.assignedTo data0;
         CreateTaskInput.dueDate := ITask.dueDate data0;
         CreateTaskInput.tags := Some (ITask.tags data0) |}
      (ITask.id data0) now in
  let task := set_completed (ITask.completed data0) task in
  let task := set_status (ITask.status data0) task in
  let task := set_createdAt (ITask.createdAt data0) task in
  set_updatedAt (ITask.updatedAt data0) task.

Definition clone (now : Z) (this : t) : t := fromJSON (toJSON this) now.

End Task.

(** ** [src/models/User.ts] *)
Module User.

Record t : Type := {
  id : string;
  name : string;
  email : string;
  role : UserRole;
  isActive : bool;
  createdAt : Date;
  lastLogin : option Date;
  preferences : UserPreferences;
  _loginAttempts : nat;
  _isLocked : bool
}.

Definition defaultPreferences : UserPreferences :=
  {| theme := light; notifications := true; language := "en"; timezone := "UTC" |}.

(** [new User({ ...input, id })] *)
Definition constructor (input : CreateUserInput.t) (id0 : string) (now : Z) : t :=
  {| id := id0;
     name := CreateUserInput.name input;
     email := CreateUserInput.email input;
     role := default USER (CreateUserInput.role input);
     isActive := true;
     createdAt := Instant now;
     lastLogin := None;
     preferences :=
       match CreateUserInput.preferences input with
       | Some p => spreadPreferences defaultPreferences p
       | None => defaultPreferences
       end;
     _loginAttempts := 0;
     _isLocked := false |}.

Definition set_name (v : string) (this : t) : t :=
  {| id := id this; name := v; email := email this; role := role this;
     isActive := isActive this; createdAt := createdAt this; lastLogin := lastLogin this;
     preferences := preferences this; _loginAttempts := _loginAttempts this;
     _isLocked := _isLocked this |}.

Definition set_email (v : string) (this : t) : t :=
  {| id := id this; name := name this; email := v; role := role this;
     isActive := isActive this; createdAt := createdAt this; lastLogin := lastLogin this;
     preferences := preferences this; _loginAttempts := _loginAttempts this;
     _isLocked := _isLocked this |}.

Definition set_role (v : UserRole) (this : t) : t :=
  {| id := id this; name := name this; email := email this; role := v;
     isActive := isActive this; createdAt := createdAt this; lastLogin := lastLogin this;
     preferences := preferences this; _loginAttempts := _loginAttempts this;
     _isLocked := _isLocked this |}.

Definition set_isActive (v : bool) (this : t) : t :=
  {| id := id this; name := name this; email := email this; role := role this;
     isActive := v; createdAt := createdAt this; lastLogin := lastLogin this;
     preferences := preferences this; _loginAttempts := _loginAttempts this;
     _isLocked := _isLocked this |}.

Definition updatePreferences (updates : PartialUserPreferences.t) (this : t) : t :=
  {| id := id this; name := name this; email := email this; role := role this;
     isActive := isActive this; createdAt := createdAt this; lastLogin := lastLogin this;
     preferences := spreadPreferences (preferences this) updates;
     _loginAttempts := _loginAttempts this; _isLocked := _isLocked this |}.

Definition recordLogin (now : Z) (this : t) : t :=
  {| id := id this; name := name this; email := email this; role := role this;
     isActive := isActive this; createdAt := createdAt this; lastLogin := Some (Instant now);
     preferences := preferences this; _loginAttempts := 0; _isLocked := false |}.

(** The getter [isLocked]. *)
Definition isLocked (this : t) : bool := _isLocked this.

Definition isAdmin (this : t) : bool := bool_decide (role this = ADMIN).

Definition canManageUsers (this : t) : bool :=
  bool_decide (role this = ADMIN) || bool_decide (role this = MANAGER).

(** The private method [isValidEmail]; the same pattern as in
    [validators.ts]. *)
Definition isValidEmail (email0 : string) : bool := Regex.test emailRegex email0.

Definition validate (this : t) : ValidationResult :=
  let errors : list string := [] in
  let errors :=
    if negb (truthy (name this)) || (String.length (trim (name this)) =? 0)%nat
    then push errors "Name is required" else errors in
  let errors :=
    if truthy (name this) && (100 <? String.length (name this))%nat
    then push errors "Name must be less than 100 characters" else errors in
  let errors :=
    if negb (truthy (email this)) || negb (isValidEmail (email this))
    then push errors "Valid email is required" else errors in
  {| isValid := (length errors =? 0)%nat; errors := errors |}.

Definition deactivate (this : t) : t := set_isActive false this.

Definition activate (this : t) : t :=
  {| id := id this; name := name this; email := email this; role := role this;
     isActive := true; createdAt := createdAt this; lastLogin := lastLogin this;
     preferences := preferences this; _loginAttempts := 0; _isLocked := false |}.

Definition recordFailedLogin (this : t) : t :=
  let attempts := S (_loginAttempts this) in
  {| id := id this; name := name this; email := email this; role := role this;
     isActive := isActive this; createdAt := createdAt this; lastLogin := lastLogin this;
     preferences := preferences this; _loginAttempts := attempts;
     _isLocked := if (5 <=? attempts)%nat then true else _isLocked this |}.

(** The getter [loginAttempts]. *)
Definition loginAttempts (this : t) : nat := _loginAttempts this.

(** [this] is the user who acts, [targetUser] the one whose role would
    change. *)
Definition canChangeRole (targetUser : t) (this : t) : bool :=
  if negb (isAdmin this) then false
  else if bool_decide (role targetUser = ADMIN) &&
          negb (String.eqb (id targetUser) (id this)) then false
  else true.

(** The answer and the user after the call.  The test is
    [this.canChangeRole(adminUser)]: the receiver is the user who must be
    an administrator. *)
Definition changeRole (newRole : UserRole) (adminUser : t) (this : t) : bool * t :=
  if negb (canChangeRole adminUser this) then (false, this)
  else (true, set_role newRole this).

Definition roleHierarchy (r : UserRole) : nat :=
  match r with GUEST => 0 | USER => 1 | MANAGER => 2 | ADMIN => 3 end.

Definition canAccess (requiredRole : UserRole) (this : t) : bool :=
  (roleHierarchy requiredRole <=? roleHierarchy (role this))%nat.

Definition getDisplayName (this : t) : string :=
  name this +:+ " (" +:+ UserRoleValue (role this) +:+ ")".

Definition set_createdAt (v : Date) (this : t) : t :=
  {| id := id this; name := name this; email := email this; role := role this;
     isActive := isActive this; createdAt := v; lastLogin := lastLogin this;
     preferences := preferences this; _loginAttempts := _loginAttempts this;
     _isLocked := _isLocked this |}.

Definition set_lastLogin (v : option Date) (this : t) : t :=
  {| id := id this; name := name this; email := email this; role := role this;
     isActive := isActive this; createdAt := createdAt this; lastLogin := v;
     preferences := preferences this; _loginAttempts := _loginAttempts this;
     _isLocked := _isLocked this |}.

Definition toJSON (this : t) : IUser.t :=
  {| IUser.id := id this;
     IUser.name := name this;
     IUser.email := email this;
     IUser.role := role this;
     IUser.isActive := isActive this;
     IUser.createdAt := createdAt this;
     IUser.lastLogin := lastLogin this;
     IUser.preferences := preferences this |}.

(** The constructor starts the new user unlocked, with no failed
    attempt; [fromJSON] does not restore either. *)
Definition fromJSON (data0 : IUser.t) (now : Z) : t :=
  let user :=
    constructor
      {| CreateUserInput.name := IUser.name data0;
         CreateUserInput.email := IUser.email data0;
         CreateUserInput.role := Some (IUser.role data0);
         CreateUserInput.preferences := Some (allPreferences (IUser.preferences data0)) |}
      (IUser.id data0) now in
  let user := set_createdAt (IUser.createdAt data0) user in
  let user := set_isActive (IUser.isActive data0) user in
  set_lastLogin (IUser.lastLogin data0) user.

End User.

(** ** Arrays and numbers of the query engine *)

(** [arr.slice(start, end)] for integral [start] and [end]: a negative
    index counts from the end, and both are clamped to the array. *)
Definition slice {A : Type} (arr : list A) (start end_ : Z) : list A :=
  let len := Z.of_nat (length arr) in
  let k := if (start <? 0)%Z then Z.max (len + start) 0 else Z.min start len in
  let final := if (end_ <? 0)%Z then Z.max (len + end_) 0 else Z.min end_ len in
  take (Z.to_nat (final - k)) (drop (Z.to_nat k) arr).

(** The numbers [Math.ceil(total / limit)] can be, for an array length
    [total] and an integral [limit]. *)
Inductive JsNumber : Type :=
| Num (z : Z)
| Infinity
| NaN.

(** [Math.ceil(total / limit)].  The quotient of an array length by a
    non-zero integer is never rounded across an integer, so the ceiling of
    the floating-point quotient is the ceiling of the exact one. *)
Definition ceilDiv (total : nat) (limit0 : Z) : JsNumber :=
  if (limit0 =? 0)%Z then (if (total =? 0)%nat then NaN else Infinity)
  else Num (- ((- Z.of_nat total) / limit0))%Z.

(** [arr.sort(compareFn)].  The sort of the language is stable, and for a
    comparator that orders its arguments consistently the result is the
    one stable arrangement in comparator order, whatever algorithm the
    engine runs; this is the insertion sort that computes it.  [x] stood
    before the elements of [sorted] in the array, so it goes before the
    first element it does not exceed. *)
Fixpoint sortInsert {A : Type} (compareFn : A -> A -> Z) (x : A) (sorted : list A) : list A :=
  match sorted with
  | [] => [x]
  | y :: rest =>
      if (compareFn x y <=? 0)%Z then x :: y :: rest
      else y :: sortInsert compareFn x rest
  end.

Fixpoint sort {A : Type} (compareFn : A -> A -> Z) (arr : list A) : list A :=
  match arr with
  | [] => []
  | x :: rest => sortInsert compareFn x (sort compareFn rest)
  end.

(** The values a property of a task can hold. *)
Inductive PropertyValue : Type :=
| StringValue (s : string)
| BooleanValue (b : bool)
| DateValue (d : Date)
| ArrayValue (items : list string).

(** What the relational operators compare: a string, or a number that may
    be NaN. *)
Inductive Primitive : Type :=
| PString (s : string)
| PNumber (n : option Z).

(** The operand of [<] and [>]: a date gives its time value, a boolean 0 or
    1, an array of strings its [toString()], which joins with a comma. *)
Definition toComparable (v : PropertyValue) : Primitive :=
  match v with
  | StringValue s => PString s
  | BooleanValue b => PNumber (Some (if b then 1 else 0)%Z)
  | DateValue (Instant ms) => PNumber (Some ms)
  | DateValue InvalidDate => PNumber None
  | ArrayValue items => PString (join "," items)
  end.

(** [a < b].  Two strings compare by code units; two numbers compare
    unless one is NaN.  A string is never compared with a number here: both
    operands are read from the same property. *)
Definition js_lt (a b : PropertyValue) : bool :=
  match toComparable a, toComparable b with
  | PString x, PString y => String.ltb x y
  | PNumber (Some x), PNumber (Some y) => (x <? y)%Z
  | _, _ => false
  end.

Definition js_gt (a b : PropertyValue) : bool := js_lt b a.

(** ** [src/services/TaskService.ts] *)
Module TaskService.

Record t : Type := {
  tasks : list Task.t;
  nextId : nat
}.

(** A fresh service. *)
Definition init : t := {| tasks := []; nextId := 1 |}.

(** [{ tasks, total, page?, totalPages? }] *)
Record Listing : Type := {
  listing_tasks : list Task.t;
  total : nat;
  listing_page : option Z;
  totalPages : option JsNumber
}.

Definition generateId (this : t) : string * t :=
  ("task_" +:+ numToString (nextId this),
   {| tasks := tasks this; nextId := S (nextId this) |}).

Definition validationFailed (validation : ValidationResult) : string :=
  "Validation failed: " +:+ join ", " (errors validation).

Definition notFound (id : string) : string :=
  "Task with ID " +:+ id +:+ " not found".

Definition create (taskData : CreateTaskInput.t) (now : Z) (this : t)
    : ApiResponse Task.t * t :=
  let '(id, this) := generateId this in
  let task := Task.constructor taskData id now in
  let validation := Task.validate task in
  if negb (isValid validation) then
    (failure (validationFailed validation) now, this)
  else
    (ok task now, {| tasks := push (tasks this) task; nextId := nextId this |}).

Definition getById (id : string) (now : Z) (this : t) : ApiResponse Task.t :=
  match find (fun t0 => String.eqb (Task.id t0) id) (tasks this) with
  | None => failure (notFound id) now
  | Some task => ok task now
  end.

(** [a[sortBy]]; [None] is [undefined]. *)
Definition property (key : TaskKey) (a : Task.t) : option PropertyValue :=
  match key with
  | K_id => Some (StringValue (Task.id a))
  | K_title => Some (StringValue (Task.title a))
  | K_description => option_map StringValue (Task.description a)
  | K_completed => Some (BooleanValue (Task.completed a))
  | K_priority => Some (StringValue (PriorityValue (Task.priority a)))
  | K_status => Some (StringValue (TaskStatusValue (Task.status a)))
  | K_assignedTo => option_map StringValue (Task.assignedTo a)
  | K_createdAt => Some (DateValue (Task.createdAt a))
  | K_updatedAt => Some (DateValue (Task.updatedAt a))
  | K_dueDate => option_map DateValue (Task.dueDate a)
  | K_tags => Some (ArrayValue (Task.tags a))
  end.

(** The comparator of [applySorting]. *)
Definition compareFn (sortBy0 : TaskKey) (sortOrder0 : SortOrder) (a b : Task.t) : Z :=
  let aValue := property sortBy0 a in
  let bValue := property sortBy0 b in
  match aValue, bValue with
  | None, None => 0
  | None, Some _ => match sortOrder0 with asc => 1 | desc => -1 end
  | Some _, None => match sortOrder0 with asc => -1 | desc => 1 end
  | Some av, Some bv =>
      let comparison := if js_lt av bv then (-1) else if js_gt av bv then 1 else 0 in
      match sortOrder0 with desc => - comparison | asc => comparison end
  end%Z.

Definition applySorting (tasks0 : list Task.t) (sortBy0 : TaskKey) (sortOrder0 : SortOrder)
    : list Task.t :=
  sort (compareFn sortBy0 sortOrder0) tasks0.

(** [Array.isArray(x) ? x : [x]] *)
Definition toArray {T : Type} (x : OneOrMany T) : list T :=
  match x with One v => [v] | Many vs => vs end.

(** The callback of [applyFilters].  A filter property takes part when it
    is truthy: an array always is, an enumeration member always is, a
    string is unless empty. *)
Definition keeps (filters : TaskFilters.t) (task : Task.t) : bool :=
  (* Status filter *)
  if match TaskFilters.status filters with
     | Some st => negb (existsb (fun s => bool_decide (s = Task.status task)) (toArray st))
     | None => false
     end then false
  (* Priority filter *)
  else if match TaskFilters.priority filters with
     | Some pr => negb (existsb (fun p => bool_decide (p = Task.priority task)) (toArray pr))
     | None => false
     end then false
  (* Assigned to filter *)
  else if match TaskFilters.assignedTo filters with
     | Some a => truthy a && negb (bool_decide (Task.assignedTo task = Some a))
     | None => false
     end then false
  (* Completed filter *)
  else if match TaskFilters.completed filters with
     | Some c => negb (Bool.eqb (Task.completed task) c)
     | None => false
     end then false
  (* Date range filter *)
  else if match TaskFilters.dateRange filters with
     | Some r =>
         let taskDate := Task.createdAt task in
         date_lt taskDate (range_start r) || date_gt taskDate (range_end r)
     | None => false
     end then false
  (* Tags filter *)
  else if match TaskFilters.tags filters with
     | Some ts =>
         (0 <? length ts)%nat &&
         negb (existsb (fun tag => includes (Task.tags task) tag) ts)
     | None => false
     end then false
  else true.

Definition applyFilters (tasks0 : list Task.t) (filters : TaskFilters.t) : list Task.t :=
  List.filter (keeps filters) tasks0.

(** The filtered and sorted array of [getAll], before pagination. *)
Definition selected (filters : option TaskFilters.t) (pagination : option PaginationOptions)
    (this : t) : list Task.t :=
  let filteredTasks := tasks this in
  let filteredTasks :=
    match filters with
    | Some f => applyFilters filteredTasks f
    | None => filteredTasks
    end in
  match pagination with
  | Some p =>
      match sortBy p with
      | Some key => applySorting filteredTasks key (default asc (sortOrder p))
      | None => filteredTasks
      end
  | None => filteredTasks
  end.

Definition getAll (filters : option TaskFilters.t) (pagination : option PaginationOptions)
    (now : Z) (this : t) : ApiResponse Listing :=
  let filteredTasks := selected filters pagination this in
  let total0 := length filteredTasks in
  match pagination with
  | Some p =>
      let startIndex := ((page p - 1) * limit p)%Z in
      let endIndex := (startIndex + limit p)%Z in
      let filteredTasks := slice filteredTasks startIndex endIndex in
      ok {| listing_tasks := filteredTasks;
            total := total0;
            listing_page := Some (page p);
            totalPages := Some (ceilDiv total0 (limit p)) |} now
  | None =>
      ok {| listing_tasks := filteredTasks;
            total := total0;
            listing_page := None;
            totalPages := None |} now
  end.

(** The assignments of [update], in the order of the source. *)
Definition applyUpdates (updates : PartialITask.t) (now : Z) (task : Task.t) : Task.t :=
  let task := Task.assignIfDefined (PartialITask.title updates) Task.set_title task in
  let task := Task.assignIfDefined (PartialITask.description updates)
                (fun d => Task.set_description (Some d)) task in
  let task := Task.assignIfDefined (PartialITask.priority updates) Task.set_priority task in
  let task := Task.assignIfDefined (PartialITask.assignedTo updates)
                (fun a => Task.set_assignedTo (Some a)) task in
  let task := Task.assignIfDefined (PartialITask.dueDate updates)
                (fun d => Task.set_dueDate (Some d)) task in
  let task := Task.assignIfDefined (PartialITask.tags updates) Task.set_tags task in
  let task := Task.assignIfDefined (PartialITask.status updates) Task.set_status task in
  Task.set_updatedAt (Instant now) task.

(** The task object is mutated where it sits in the array, and validated
    afterwards.  [findIndex] returns an index of the array, so the lookup
    that follows it finds the task. *)
Definition update (id : string) (updates : PartialITask.t) (now : Z) (this : t)
    : ApiResponse Task.t * t :=
  match findIndex (fun t0 => String.eqb (Task.id t0) id) (tasks this) with
  | None => (failure (notFound id) now, this)
  | Some taskIndex =>
      match tasks this !! taskIndex with
      | None => (failure (notFound id) now, this)
      | Some task =>
          let task := applyUpdates updates now task in
          let this := {| tasks := <[taskIndex := task]> (tasks this); nextId := nextId this |} in
          let validation := Task.validate task in
          if negb (isValid validation) then
            (failure (validationFailed validation) now, this)
          else (ok task now, this)
      end
  end.

Definition delete (id : string) (now : Z) (this : t) : ApiResponse bool * t :=
  match findIndex (fun t0 => String.eqb (Task.id t0) id) (tasks this) with
  | None => (failure (notFound id) now, this)
  | Some taskIndex =>
      (ok true now, {| tasks := base.delete taskIndex (tasks this); nextId := nextId this |})
  end.

Definition markComplete (id : string) (now : Z) (this : t) : ApiResponse Task.t * t :=
  match findIndex (fun t0 => String.eqb (Task.id t0) id) (tasks this) with
  | None => (failure (notFound id) now, this)
  | Some taskIndex =>
      match tasks this !! taskIndex with
      | None => (failure (notFound id) now, this)
      | Some task =>
          let task := Task.markComplete now task in
          (ok task now, {| tasks := <[taskIndex := task]> (tasks this); nextId := nextId this |})
      end
  end.

Definition clear (this : t) : t := {| tasks := []; nextId := 1 |}.

Definition getCount (this : t) : nat := length (tasks this).

Definition getTasksByUser (userId : string) (now : Z) (this : t)
    : ApiResponse (list Task.t) :=
  let userTasks :=
    List.filter (fun task => bool_decide (Task.assignedTo task = Some userId)) (tasks this) in
  ok userTasks now.

Definition getOverdueTasks (now : Z) (this : t) : ApiResponse (list Task.t) :=
  let overdueTasks := List.filter (Task.isOverdue now) (tasks this) in
  ok overdueTasks now.

(** [Record<Priority, number>] and [Record<TaskStatus, number>] *)
Record PriorityCounts : Type := {
  count_low : nat;
  count_medium : nat;
  count_high : nat;
  count_urgent : nat
}.

Record StatusCounts : Type := {
  count_todo : nat;
  count_in_progress : nat;
  count_done : nat;
  count_cancelled : nat
}.

Record Statistics : Type := {
  stats_total : nat;
  stats_completed : nat;
  stats_pending : nat;
  stats_overdue : nat;
  byPriority : PriorityCounts;
  byStatus : StatusCounts
}.

(** [counts[p]++] *)
Definition countPriority (p : Priority) (c : PriorityCounts) : PriorityCounts :=
  match p with
  | LOW => {| count_low := S (count_low c); count_medium := count_medium c;
              count_high := count_high c; count_urgent := count_urgent c |}
  | MEDIUM => {| count_low := count_low c; count_medium := S (count_medium c);
                 count_high := count_high c; count_urgent := count_urgent c |}
  | HIGH => {| count_low := count_low c; count_medium := count_medium c;
               count_high := S (count_high c); count_urgent := count_urgent c |}
  | URGENT => {| count_low := count_low c; count_medium := count_medium c;
                 count_high := count_high c; count_urgent := S (count_urgent c) |}
  end.

Definition countStatus (s : TaskStatus) (c : StatusCounts) : StatusCounts :=
  match s with
  | TODO => {| count_todo := S (count_todo c); count_in_progress := count_in_progress c;
               count_done := count_done c; count_cancelled := count_cancelled c |}
  | IN_PROGRESS => {| count_todo := count_todo c;
                      count_in_progress := S (count_in_progress c);
                      count_done := count_done c; count_cancelled := count_cancelled c |}
  | DONE => {| count_todo := count_todo c; count_in_progress := count_in_progress c;
               count_done := S (count_done c); count_cancelled := count_cancelled c |}
  | CANCELLED => {| count_todo := count_todo c; count_in_progress := count_in_progress c;
                    count_done := count_done c; count_cancelled := S (count_cancelled c) |}
  end.

(** The body of the [forEach] of [getStatistics]. *)
Definition countTask (now : Z) (stats : Statistics) (task : Task.t) : Statistics :=
  {| stats_total := stats_total stats;
     stats_completed :=
       if Task.completed task then S (stats_completed stats) else stats_completed stats;
     stats_pending :=
       if Task.completed task then stats_pending stats else S (stats_pending stats);
     stats_overdue :=
       if Task.isOverdue now task then S (stats_overdue stats) else stats_overdue stats;
     byPriority := countPriority (Task.priority task) (byPriority stats);
     byStatus := countStatus (Task.status task) (byStatus stats) |}.

Definition getStatistics (now : Z) (this : t) : Statistics :=
  let stats :=
    {| stats_total := length (tasks this);
       stats_completed := 0;
       stats_pending := 0;
       stats_overdue := 0;
       byPriority := {| count_low := 0; count_medium := 0; count_high := 0;
                        count_urgent := 0 |};
       byStatus := {| count_todo := 0; count_in_progress := 0; count_done := 0;
                      count_cancelled := 0 |} |} in
  fold_left (countTask now) (tasks this) stats.

End TaskService.

(** ** [src/services/UserService.ts] *)
Module UserService.

Record t : Type := {
  users : list User.t;
  nextId : nat
}.

Definition generateId (this : t) : string * t :=
  ("user_" +:+ numToString (nextId this),
   {| users := users this; nextId := S (nextId this) |}).

Definition defaultAdminInput : CreateUserInput.t :=
  {| CreateUserInput.name := "System Administrator";
     CreateUserInput.email := "admin@taskmanager.com";
     CreateUserInput.role := Some ADMIN;
     CreateUserInput.preferences :=
       Some {| PartialUserPreferences.theme := Some dark;
               PartialUserPreferences.notifications := Some true;
               PartialUserPreferences.language := Some "en";
               PartialUserPreferences.timezone := Some "UTC" |} |}.

Definition createDefaultAdmin (now : Z) (this : t) : t :=
  let '(id, this) := generateId this in
  let adminUser := User.constructor defaultAdminInput id now in
  {| users := push (users this) adminUser; nextId := nextId this |}.

(** [new UserService()] *)
Definition constructor (now : Z) : t :=
  createDefaultAdmin now {| users := []; nextId := 1 |}.

Definition validationFailed (validation : ValidationResult) : string :=
  "Validation failed: " +:+ join ", " (errors validation).

Definition notFound (id : string) : string :=
  "User with ID " +:+ id +:+ " not found".

Definition create (userData : CreateUserInput.t) (createdBy : option User.t) (now : Z)
    (this : t) : ApiResponse User.t * t :=
  if match createdBy with Some c => negb (User.canManageUsers c) | None => false end then
    (failure "Insufficient permissions to create users" now, this)
  else
    match find (fun u => String.eqb (User.email u) (CreateUserInput.email userData))
               (users this) with
    | Some _ => (failure "User with this email already exists" now, this)
    | None =>
        let '(id, this) := generateId this in
        let user := User.constructor userData id now in
        let validation := User.validate user in
        if negb (isValid validation) then
          (failure (validationFailed validation) now, this)
        else
          (ok user now, {| users := push (users this) user; nextId := nextId this |})
    end.

Definition getById (id : string) (now : Z) (this : t) : ApiResponse User.t :=
  match find (fun u => String.eqb (User.id u) id) (users this) with
  | None => failure (notFound id) now
  | Some user => ok user now
  end.

(** [user] is the first element with the identifier, and it is mutated
    where it sits in the array: each assignment is written back at its
    index, also on the paths that return early. *)
Definition update (id : string) (updates : PartialIUser.t) (updatedBy : option User.t)
    (now : Z) (this : t) : ApiResponse User.t * t :=
  match findIndex (fun u => String.eqb (User.id u) id) (users this) with
  | None => (failure (notFound id) now, this)
  | Some userIndex =>
      match users this !! userIndex with
      | None => (failure (notFound id) now, this)
      | Some user =>
          (* Check permissions *)
          if match updatedBy with
             | Some by_ => negb (String.eqb (User.id by_) id || User.canManageUsers by_)
             | None => false
             end then
            (failure "Insufficient permissions to update this user" now, this)
          else if match updatedBy with
             | Some by_ =>
                 match PartialIUser.role updates with
                 | Some _ => negb (User.isAdmin by_)
                 | None => false
                 end
             | None => false
             end then
            (failure "Only administrators can change user roles" now, this)
          else
            (* Apply updates *)
            let user :=
              match PartialIUser.name updates with
              | Some n => User.set_name n user
              | None => user
              end in
            let this := {| users := <[userIndex := user]> (users this); nextId := nextId this |} in
            match
              match PartialIUser.email updates with
              | Some e =>
                  find (fun u => String.eqb (User.email u) e && negb (String.eqb (User.id u) id))
                       (users this)
              | None => None
              end
            with
            | Some _ => (failure "Email is already taken by another user" now, this)
            | None =>
                let user :=
                  match PartialIUser.email updates with
                  | Some e => User.set_email e user
                  | None => user
                  end in
                let user :=
                  match PartialIUser.role updates with
                  | Some r => User.set_role r user
                  | None => user
                  end in
                let user :=
                  match PartialIUser.isActive updates with
                  | Some a => User.set_isActive a user
                  | None => user
                  end in
                let user :=
                  match PartialIUser.preferences updates with
                  | Some p => User.updatePreferences (allPreferences p) user
                  | None => user
                  end in
                let this :=
                  {| users := <[userIndex := user]> (users this); nextId := nextId this |} in
                let validation := User.validate user in
                if negb (isValid validation) then
                  (failure (validationFailed validation) now, this)
                else (ok user now, this)
            end
      end
  end.

Definition delete (id : string) (deletedBy : option User.t) (now : Z) (this : t)
    : ApiResponse bool * t :=
  match findIndex (fun u => String.eqb (User.id u) id) (users this) with
  | None => (failure (notFound id) now, this)
  | Some userIndex =>
      match users this !! userIndex with
      | None => (failure (notFound id) now, this)
      | Some userToDelete =>
          (* Check permissions *)
          if match deletedBy with Some d => negb (User.canManageUsers d) | None => false end then
            (failure "Insufficient permissions to delete users" now, this)
          (* Prevent deleting the last admin *)
          else if bool_decide (User.role userToDelete = ADMIN) &&
                  (length (List.filter (fun u => bool_decide (User.role u = ADMIN)) (users this))
                     <=? 1)%nat then
            (failure "Cannot delete the last administrator" now, this)
          else
            (ok true now,
             {| users := base.delete userIndex (users this); nextId := nextId this |})
      end
  end.

(** The password is not looked at. *)
Definition authenticate (email : string) (password : string) (now : Z) (this : t)
    : ApiResponse User.t * t :=
  match findIndex (fun u => String.eqb (User.email u) email) (users this) with
  | None => (failure "Invalid credentials" now, this)
  | Some userIndex =>
      match users this !! userIndex with
      | None => (failure "Invalid credentials" now, this)
      | Some user =>
          if negb (User.isActive user) then
            (failure "Account is deactivated" now, this)
          else if User.isLocked user then
            (failure "Account is locked due to too many failed login attempts" now, this)
          else
            let user := User.recordLogin now user in
            (ok user now,
             {| users := <[userIndex := user]> (users this); nextId := nextId this |})
      end
  end.

Definition clear (this : t) : t :=
  match find (fun u => bool_decide (User.role u = ADMIN)) (users this) with
  | Some admin => {| users := [admin]; nextId := 2 |}
  | None => {| users := []; nextId := 1 |}
  end.

Definition getCount (this : t) : nat := length (users this).

Definition getByEmail (email : string) (now : Z) (this : t) : ApiResponse User.t :=
  match find (fun u => String.eqb (User.email u) email) (users this) with
  | None => failure ("User with email " +:+ email +:+ " not found") now
  | Some user => ok user now
  end.

Definition getAll (requestedBy : option User.t) (now : Z) (this : t)
    : ApiResponse (list User.t) :=
  let usersToReturn := users this in
  let usersToReturn :=
    if match requestedBy with Some r => negb (User.canManageUsers r) | None => false end
    then List.filter User.isActive (users this)
    else usersToReturn in
  ok usersToReturn now.

Definition getUsersByRole (role : UserRole) (now : Z) (this : t)
    : ApiResponse (list User.t) :=
  ok (List.filter (fun u => bool_decide (User.role u = role)) (users this)) now.

Definition getActiveUsers (now : Z) (this : t) : ApiResponse (list User.t) :=
  ok (List.filter User.isActive (users this)) now.

End UserService.

(** * Vocabulary of the properties *)

(** Every code unit of the string satisfies [p]. *)
Fixpoint string_forall (p : ascii -> bool) (s : string) : bool :=
  match s with
  | EmptyString => true
  | String c s' => p c && string_forall p s'
  end.

(** A non-empty run of code units satisfying [p]. *)
Definition run (p : ascii -> bool) (s : string) : Prop :=
  s <> "" /\ string_forall p s = true.

(** The shape the email pattern accepts: [a@b.c] where [a], [b] and [c]
    are non-empty runs of code units that are neither white space nor
    ['@']. *)
Definition email_shape (s : string) : Prop :=
  exists a b c : string,
    s = a +:+ "@" +:+ b +:+ "." +:+ c /\
    run notSpaceNorAt a /\ run notSpaceNorAt b /\ run notSpaceNorAt c.

(** The text is not empty after trimming and has at most [max] code
    units. *)
Definition text_ok (max : nat) (s : string) : Prop :=
  trim s <> "" /\ (String.length s <= max)%nat.

(** A raw enumeration property is absent, or holds one of [values]. *)
Definition enum_ok (values : list string) (f : Field string) : Prop :=
  f = Undefined \/ exists s, f = Defined s /\ In s values.

(** A property is absent, or holds a value that satisfies [P]; [null]
    is neither. *)
Definition absent_or {A : Type} (P : A -> Prop) (f : Field A) : Prop :=
  f = Undefined \/ exists a, f = Defined a /\ P a.

(** A property is [undefined], [null], or satisfies [P]. *)
Definition nullish_or {A : Type} (P : A -> Prop) (f : Field A) : Prop :=
  f = Undefined \/ f = Null \/ exists a, f = Defined a /\ P a.

(** The date is a valid instant. *)
Definition valid_date (d : Date) : Prop := exists ms, d = Instant ms.

(** Every element of the array is a string. *)
Definition all_strings (l : list (Field string)) : Prop :=
  Forall (fun e => exists s, e = Defined s) l.

(** The rule set the specification gives for a task record: a title that
    is not empty after trimming and has at most 200 code units, a
    description of at most 1000 when present, a priority and a status of
    their enumerations when present, a due instant not before the creation
    instant when present. *)
Definition spec_task_rules (d : Validators.TaskData) : Prop :=
  (exists s, Validators.title d = Defined s /\ text_ok 200 s) /\
  (forall s, Validators.description d = Defined s -> (String.length s <= 1000)%nat) /\
  (forall s, Validators.priority d = Defined s -> In s Validators.PriorityValues) /\
  (forall s, Validators.status d = Defined s -> In s Validators.TaskStatusValues) /\
  (forall due created,
      Validators.dueDate d = Defined (Instant due) ->
      Validators.createdAt d = Defined (Instant created) -> (created <= due)%Z).

(** A complete task record whose due instant precedes its creation. *)
Definition dueBeforeCreation : Validators.TaskData :=
  {| Validators.id := Defined "task_1";
     Validators.title := Defined "Write report";
     Validators.description := Undefined;
     Validators.completed := Defined false;
     Validators.priority := Defined "medium";
     Validators.status := Defined "todo";
     Validators.assignedTo := Undefined;
     Validators.createdAt := Defined (Instant 2000);
     Validators.updatedAt := Defined (Instant 2000);
     Validators.dueDate := Defined (Instant 1000);
     Validators.tags := Defined [] |}.

(** Any code unit that is not white space. *)
Definition nonSpace (c : ascii) : bool := negb (isWhiteSpace c).

(** The email shape in the words of the specification:
    non-whitespace, ['@'], non-whitespace, ['.'], non-whitespace. *)
Definition spec_email_shape (s : string) : Prop :=
  exists a b c : string,
    s = a +:+ "@" +:+ b +:+ "." +:+ c /\
    run nonSpace a /\ run nonSpace b /\ run nonSpace c.

(** The rule set the specification gives for a user record. *)
Definition spec_user_rules (d : Validators.UserData) : Prop :=
  (exists n, Validators.name d = Defined n /\ text_ok 100 n) /\
  (exists e, Validators.email d = Defined e /\ e <> "" /\ spec_email_shape e) /\
  enum_ok Validators.UserRoleValues (Validators.role d).

(** A user record whose email has two ['@']. *)
Definition twoAts : Validators.UserData :=
  {| Validators.name := Defined "Ann";
     Validators.email := Defined "a@b@c.d";
     Validators.role := Defined "user" |}.

(** The record of the demonstration script: an empty title, a description
    of 1001 code units and a priority outside the enumeration. *)
Definition threeViolations (desc prio : string) : Validators.TaskData :=
  {| Validators.id := Undefined;
     Validators.title := Defined "";
     Validators.description := Defined desc;
     Validators.completed := Undefined;
     Validators.priority := Defined prio;
     Validators.status := Undefined;
     Validators.assignedTo := Undefined;
     Validators.createdAt := Undefined;
     Validators.updatedAt := Undefined;
     Validators.dueDate := Undefined;
     Validators.tags := Undefined |}.

(** ['A'.repeat(n)] *)
Fixpoint repeatA (n : nat) : string :=
  match n with
  | O => ""
  | S n' => String "A" (repeatA n')
  end.

(** The tasks of a listing response. *)
Definition pageTasks (r : ApiResponse TaskService.Listing) : list Task.t :=
  match data r with
  | Some l => TaskService.listing_tasks l
  | None => []
  end.

(** The page count of a listing response. *)
Definition pageCount (r : ApiResponse TaskService.Listing) : option JsNumber :=
  match data r with
  | Some l => TaskService.totalPages l
  | None => None
  end.

(** The request for page [n] with a fixed page size and sort option. *)
Definition pageRequest (n lim : Z) (key : option TaskKey) (order : option SortOrder)
    : PaginationOptions :=
  {| page := n; limit := lim; sortBy := key; sortOrder := order |}.

(** The input of [create] for a task with a title, a priority and
    nothing else. *)
Definition plainTask (title0 : string) (priority0 : Priority) : CreateTaskInput.t :=
  {| CreateTaskInput.title := title0;
     CreateTaskInput.description := None;
     CreateTaskInput.priority := Some priority0;
     CreateTaskInput.assignedTo := None;
     CreateTaskInput.dueDate := None;
     CreateTaskInput.tags := None |}.

(** A service after three tasks of priorities HIGH, MEDIUM and LOW were
    created at the instants 1, 2 and 3. *)
Definition threeTasks : TaskService.t :=
  let s := TaskService.init in
  let s := snd (TaskService.create (plainTask "Set up" HIGH) 1 s) in
  let s := snd (TaskService.create (plainTask "Learn" MEDIUM) 2 s) in
  snd (TaskService.create (plainTask "Build" LOW) 3 s).

(** [a <= b] between valid instants. *)
Definition date_le (a b : Date) : Prop :=
  match a, b with
  | Instant x, Instant y => (x <= y)%Z
  | _, _ => False
  end.

(** A task satisfies a filter, in the words of the specification: every
    property the filter provides holds of the task. *)
Definition spec_satisfies (f : TaskFilters.t) (task : Task.t) : Prop :=
  (forall st, TaskFilters.status f = Some st -> In (Task.status task) (TaskService.toArray st)) /\
  (forall pr, TaskFilters.priority f = Some pr ->
              In (Task.priority task) (TaskService.toArray pr)) /\
  (forall a, TaskFilters.assignedTo f = Some a -> Task.assignedTo task = Some a) /\
  (forall c, TaskFilters.completed f = Some c -> Task.completed task = c) /\
  (forall r, TaskFilters.dateRange f = Some r ->
             date_le (range_start r) (Task.createdAt task) /\
             date_le (Task.createdAt task) (range_end r)) /\
  (forall ts, TaskFilters.tags f = Some ts ->
              exists tag, In tag ts /\ In tag (Task.tags task)).

(** A task satisfies a filter, as [applyFilters] decides it: an assignee
    takes part unless it is the empty string, a list of tags unless it is
    the empty list, and the creation date is tested with [<] and [>]
    against the bounds. *)
Definition satisfies (f : TaskFilters.t) (task : Task.t) : Prop :=
  (forall st, TaskFilters.status f = Some st -> In (Task.status task) (TaskService.toArray st)) /\
  (forall pr, TaskFilters.priority f = Some pr ->
              In (Task.priority task) (TaskService.toArray pr)) /\
  (forall a, TaskFilters.assignedTo f = Some a -> a <> "" -> Task.assignedTo task = Some a) /\
  (forall c, TaskFilters.completed f = Some c -> Task.completed task = c) /\
  (forall r, TaskFilters.dateRange f = Some r ->
             date_lt (Task.createdAt task) (range_start r) = false /\
             date_gt (Task.createdAt task) (range_end r) = false) /\
  (forall ts, TaskFilters.tags f = Some ts -> ts <> [] ->
              exists tag, In tag ts /\ In tag (Task.tags task)).

(** The filter [{ tags: [] }]. *)
Definition emptyTagsFilter : TaskFilters.t :=
  {| TaskFilters.status := None;
     TaskFilters.priority := None;
     TaskFilters.assignedTo := None;
     TaskFilters.completed := None;
     TaskFilters.dateRange := None;
     TaskFilters.tags := Some [] |}.

(** The filter [{ priority: [HIGH, MEDIUM] }] of the demonstration
    script. *)
Definition highOrMedium : TaskFilters.t :=
  {| TaskFilters.status := None;
     TaskFilters.priority := Some (Many [HIGH; MEDIUM]);
     TaskFilters.assignedTo := None;
     TaskFilters.completed := None;
     TaskFilters.dateRange := None;
     TaskFilters.tags := None |}.

(** The key of the task can be ordered: it is not an invalid date, whose
    time value compares false with everything. *)
Definition comparable (key : TaskKey) (task : Task.t) : Prop :=
  TaskService.property key task <> Some (DateValue InvalidDate).

(** The comparator finds the keys of the two tasks equal. *)
Definition equal_keys (key : TaskKey) (order : SortOrder) (a b : Task.t) : bool :=
  (TaskService.compareFn key order a b =? 0)%Z.

(** No task stands after a task that the comparator puts after it. *)
Definition in_order (key : TaskKey) (order : SortOrder) (l : list Task.t) : Prop :=
  StronglySorted (fun a b => (TaskService.compareFn key order a b <= 0)%Z) l.

(** Every task without the key stands after every task that has it. *)
Definition missing_last (key : TaskKey) (l : list Task.t) : Prop :=
  forall (i j : nat) (a b : Task.t),
    l !! i = Some a -> l !! j = Some b ->
    TaskService.property key a = None -> TaskService.property key b <> None ->
    (j < i)%nat.

(** Every task without the key stands before every task that has it. *)
Definition missing_first (key : TaskKey) (l : list Task.t) : Prop :=
  forall (i j : nat) (a b : Task.t),
    l !! i = Some a -> l !! j = Some b ->
    TaskService.property key a = None -> TaskService.property key b <> None ->
    (i < j)%nat.

(** [<] on the operands of the relational operators. *)
Definition prim_lt (p q : Primitive) : bool :=
  match p, q with
  | PString x, PString y => String.ltb x y
  | PNumber (Some x), PNumber (Some y) => (x <? y)%Z
  | _, _ => false
  end.

(** The order the comparator of [applySorting] realises on the keys: in
    ascending order a missing key is above every key, in descending order
    the order of the keys is reversed and a missing key is below every
    key. *)
Definition key_lt (order : SortOrder) (a b : option PropertyValue) : bool :=
  match order, a, b with
  | asc, Some x, Some y => js_lt x y
  | asc, Some _, None => true
  | asc, None, _ => false
  | desc, Some x, Some y => js_lt y x
  | desc, None, Some _ => true
  | desc, _, None => false
  end.

(** The operands of a string-valued key are strings, those of the other
    keys are numbers. *)
Definition stringKey (key : TaskKey) : bool :=
  match key with
  | K_completed | K_createdAt | K_updatedAt | K_dueDate => false
  | _ => true
  end.

Definition isPString (p : Primitive) : bool :=
  match p with PString _ => true | PNumber _ => false end.

(** A task with a title, a due date or none, and nothing else, created at
    the instant 0. *)
Definition dueTask (id0 : string) (due : option Date) : Task.t :=
  Task.constructor
    {| CreateTaskInput.title := "Task";
       CreateTaskInput.description := None;
       CreateTaskInput.priority := None;
       CreateTaskInput.assignedTo := None;
       CreateTaskInput.dueDate := due;
       CreateTaskInput.tags := None |} id0 0.

(** The completed flag of the task agrees with its status. *)
Definition agrees (task : Task.t) : Prop :=
  Task.completed task = true <-> Task.status task = DONE.

(** The update [{ status }]. *)
Definition statusUpdate (s : TaskStatus) : PartialITask.t :=
  {| PartialITask.id := None;
     PartialITask.title := None;
     PartialITask.description := None;
     PartialITask.completed := None;
     PartialITask.priority := None;
     PartialITask.status := Some s;
     PartialITask.assignedTo := None;
     PartialITask.createdAt := None;
     PartialITask.updatedAt := None;
     PartialITask.dueDate := None;
     PartialITask.tags := None |}.

(** The update [{ title }]. *)
Definition titleUpdate (s : string) : PartialITask.t :=
  {| PartialITask.id := None;
     PartialITask.title := Some s;
     PartialITask.description := None;
     PartialITask.completed := None;
     PartialITask.priority := None;
     PartialITask.status := None;
     PartialITask.assignedTo := None;
     PartialITask.createdAt := None;
     PartialITask.updatedAt := None;
     PartialITask.dueDate := None;
     PartialITask.tags := None |}.

(** The task holds every value the update provides. *)
Definition carries (updates : PartialITask.t) (task : Task.t) : Prop :=
  (forall v, PartialITask.title updates = Some v -> Task.title task = v) /\
  (forall v, PartialITask.description updates = Some v -> Task.description task = Some v) /\
  (forall v, PartialITask.priority updates = Some v -> Task.priority task = v) /\
  (forall v, PartialITask.assignedTo updates = Some v -> Task.assignedTo task = Some v) /\
  (forall v, PartialITask.dueDate updates = Some v -> Task.dueDate task = Some v) /\
  (forall v, PartialITask.tags updates = Some v -> Task.tags task = v) /\
  (forall v, PartialITask.status updates = Some v -> Task.status task = v).

(** The first task of the collection with the identifier. *)
Definition stored (id : string) (this : TaskService.t) : option Task.t :=
  find (fun t0 => String.eqb (Task.id t0) id) (TaskService.tasks this).

(** The number of administrators of the collection. *)
Definition adminCount (users0 : list User.t) : nat :=
  length (List.filter (fun u => bool_decide (User.role u = ADMIN)) users0).

(** The collection has an administrator. *)
Definition hasAdmin (this : UserService.t) : Prop :=
  (1 <= adminCount (UserService.users this))%nat.

(** The update [{ role }]. *)
Definition roleUpdate (r : UserRole) : PartialIUser.t :=
  {| PartialIUser.id := None;
     PartialIUser.name := None;
     PartialIUser.email := None;
     PartialIUser.role := Some r;
     PartialIUser.isActive := None;
     PartialIUser.createdAt := None;
     PartialIUser.lastLogin := None;
     PartialIUser.preferences := None |}.

(** The input of [create] for a second administrator. *)
Definition secondAdmin : CreateUserInput.t :=
  {| CreateUserInput.name := "Alice Johnson";
     CreateUserInput.email := "alice@company.com";
     CreateUserInput.role := Some ADMIN;
     CreateUserInput.preferences := None |}.

(** A service after two tasks were created at the instants 1 and 2: the
    first is due at the instant 50, the second has no due date. *)
Definition oneDueOneNot : TaskService.t :=
  let s := TaskService.init in
  let s := snd (TaskService.create
                  {| CreateTaskInput.title := "Pay";
                     CreateTaskInput.description := None;
                     CreateTaskInput.priority := None;
                     CreateTaskInput.assignedTo := None;
                     CreateTaskInput.dueDate := Some (Instant 50);
                     CreateTaskInput.tags := None |} 1 s) in
  snd (TaskService.create (plainTask "Read" MEDIUM) 2 s).

(** [{ page: 1, limit: 10, sortBy: 'dueDate', sortOrder: 'desc' }] *)
Definition byDueDateDescending : PaginationOptions :=
  {| page := 1; limit := 10; sortBy := Some K_dueDate; sortOrder := Some desc |}.

(** ** Histories of calls *)

(** A method called on a task object. *)
Inductive TaskMethod : Type :=
| M_markComplete
| M_markIncomplete
| M_update (updates : UpdateTaskInput.t)
| M_addTag (tag : string)
| M_removeTag (tag : string).

Definition callMethod (m : TaskMethod) (now : Z) (task : Task.t) : Task.t :=
  match m with
  | M_markComplete => Task.markComplete now task
  | M_markIncomplete => Task.markIncomplete now task
  | M_update updates => Task.update updates now task
  | M_addTag tag => Task.addTag tag now task
  | M_removeTag tag => Task.removeTag tag now task
  end.

(** What a caller can do to a task service: call one of its operations, or
    call a method on a task of the collection, through the reference that
    [create], [getById] or [getAll] returned. *)
Inductive TaskCall : Type :=
| CallCreate (taskData : CreateTaskInput.t)
| CallUpdate (id : string) (updates : PartialITask.t)
| CallDelete (id : string)
| CallMarkComplete (id : string)
| CallClear
| CallOnTask (index : nat) (m : TaskMethod).

Definition runTaskCall (call : TaskCall) (now : Z) (this : TaskService.t) : TaskService.t :=
  match call with
  | CallCreate taskData => snd (TaskService.create taskData now this)
  | CallUpdate id updates => snd (TaskService.update id updates now this)
  | CallDelete id => snd (TaskService.delete id now this)
  | CallMarkComplete id => snd (TaskService.markComplete id now this)
  | CallClear => TaskService.clear this
  | CallOnTask index m =>
      match TaskService.tasks this !! index with
      | Some task =>
          {| TaskService.tasks := <[index := callMethod m now task]> (TaskService.tasks this);
             TaskService.nextId := TaskService.nextId this |}
      | None => this
      end
  end.

(** The calls of a history, each at its instant, the first call first. *)
Fixpoint runTaskCalls (calls : list (TaskCall * Z)) (this : TaskService.t) : TaskService.t :=
  match calls with
  | [] => this
  | (call, now) :: rest => runTaskCalls rest (runTaskCall call now this)
  end.

(** The call is an [update] that provides a status. *)
Definition providesStatus (call : TaskCall) : bool :=
  match call with
  | CallUpdate _ updates =>
      match PartialITask.status updates with Some _ => true | None => false end
  | _ => false
  end.

(** What a caller can do to a user service. *)
Inductive UserCall : Type :=
| UserCreate (userData : CreateUserInput.t) (createdBy : option User.t)
| UserUpdate (id : string) (updates : PartialIUser.t) (updatedBy : option User.t)
| UserDelete (id : string) (deletedBy : option User.t)
| UserAuthenticate (email password : string)
| UserClear.

Definition runUserCall (call : UserCall) (now : Z) (this : UserService.t) : UserService.t :=
  match call with
  | UserCreate userData createdBy => snd (UserService.create userData createdBy now this)
  | UserUpdate id updates updatedBy => snd (UserService.update id updates updatedBy now this)
  | UserDelete id deletedBy => snd (UserService.delete id deletedBy now this)
  | UserAuthenticate email password => snd (UserService.authenticate email password now this)
  | UserClear => UserService.clear this
  end.

Fixpoint runUserCalls (calls : list (UserCall * Z)) (this : UserService.t) : UserService.t :=
  match calls with
  | [] => this
  | (call, now) :: rest => runUserCalls rest (runUserCall call now this)
  end.

(** The call is an [update] that provides a role. *)
Definition providesRole (call : UserCall) : bool :=
  match call with
  | UserUpdate _ updates _ =>
      match PartialIUser.role updates with Some _ => true | None => false end
  | _ => false
  end.

(** ** Vocabulary of the further properties *)

(** The user after [n] failed logins in a row. *)
Fixpoint failedLogins (n : nat) (user : User.t) : User.t :=
  match n with
  | O => user
  | S n' => User.recordFailedLogin (failedLogins n' user)
  end.

(** The record [{ title }]. *)
Definition onlyTitle (s : string) : Validators.TaskData :=
  {| Validators.id := Undefined;
     Validators.title := Defined s;
     Validators.description := Undefined;
     Validators.completed := Undefined;
     Validators.priority := Undefined;
     Validators.status := Undefined;
     Validators.assignedTo := Undefined;
     Validators.createdAt := Undefined;
     Validators.updatedAt := Undefined;
     Validators.dueDate := Undefined;
     Validators.tags := Undefined |}.

(** The record [{ name }]. *)
Definition onlyName (s : string) : Validators.UserData :=
  {| Validators.name := Defined s;
     Validators.email := Undefined;
     Validators.role := Undefined |}.

(** The record [{ email }]. *)
Definition onlyEmail (s : string) : Validators.UserData :=
  {| Validators.name := Undefined;
     Validators.email := Defined s;
     Validators.role := Undefined |}.

(** The record [{ description }]. *)
Definition onlyDescription (s : string) : Validators.TaskData :=
  {| Validators.id := Undefined;
     Validators.title := Undefined;
     Validators.description := Defined s;
     Validators.completed := Undefined;
     Validators.priority := Undefined;
     Validators.status := Undefined;
     Validators.assignedTo := Undefined;
     Validators.createdAt := Undefined;
     Validators.updatedAt := Undefined;
     Validators.dueDate := Undefined;
     Validators.tags := Undefined |}.

(** The filter [{ assignedTo }]. *)
Definition assigneeFilter (userId : string) : TaskFilters.t :=
  {| TaskFilters.status := None;
     TaskFilters.priority := None;
     TaskFilters.assignedTo := Some userId;
     TaskFilters.completed := None;
     TaskFilters.dateRange := None;
     TaskFilters.tags := None |}.

(** The data of a response, or the empty list. *)
Definition listOf {A : Type} (r : ApiResponse (list A)) : list A :=
  match data r with
  | Some l => l
  | None => []
  end.

(** The service with another collection. *)
Definition withTasks (l : list Task.t) (this : TaskService.t) : TaskService.t :=
  {| TaskService.tasks := l; TaskService.nextId := TaskService.nextId this |}.

(** The sums of the two tables of counters. *)
Definition sumPriorities (c : TaskService.PriorityCounts) : nat :=
  TaskService.count_low c + TaskService.count_medium c +
  TaskService.count_high c + TaskService.count_urgent c.

Definition sumStatuses (c : TaskService.StatusCounts) : nat :=
  TaskService.count_todo c + TaskService.count_in_progress c +
  TaskService.count_done c + TaskService.count_cancelled c.

(** A task with two tags. *)
Definition taggedTask : Task.t :=
  Task.constructor
    {| CreateTaskInput.title := "Task";
       CreateTaskInput.description := None;
       CreateTaskInput.priority := None;
       CreateTaskInput.assignedTo := None;
       CreateTaskInput.dueDate := None;
       CreateTaskInput.tags := Some ["setup"; "development"] |} "task_1" 0.

(** The identifiers of the collection are pairwise distinct and were all
    generated: each is [task_k] for a [k] below the counter. *)
Definition numbered (this : TaskService.t) : Prop :=
  Forall (fun t => exists k, (k < TaskService.nextId this)%nat /\
                             Task.id t = "task_" +:+ numToString k)
         (TaskService.tasks this) /\
  List.NoDup (map Task.id (TaskService.tasks this)).

(** The identifier [create] gives to the next task. *)
Definition nextTaskId (this : TaskService.t) : string :=
  "task_" +:+ numToString (TaskService.nextId this).

(** The string begins, or ends, with a white-space code unit. *)
Definition startsWithSpace (s : string) : bool :=
  match s with
  | EmptyString => false
  | String c _ => isWhiteSpace c
  end.

Fixpoint endsWithSpace (s : string) : bool :=
  match s with
  | EmptyString => false
  | String c s' =>
      match s' with
      | EmptyString => isWhiteSpace c
      | String _ _ => endsWithSpace s'
      end
  end.

(** The code unit is a plain space or is not white space at all. *)
Definition spaceOrInk (c : ascii) : bool :=
  negb (isWhiteSpace c) || Ascii.eqb c " ".

(** Somewhere in the string two white-space code units follow each
    other. *)
Fixpoint adjacentSpaces (s : string) : bool :=
  match s with
  | EmptyString => false
  | String a s' => (isWhiteSpace a && startsWithSpace s') || adjacentSpaces s'
  end.

(** The text has no white space at either end, no white space other than
    the plain space, and no two white-space code units in a row. *)
Definition normalized (s : string) : Prop :=
  startsWithSpace s = false /\ endsWithSpace s = false /\
  string_forall spaceOrInk s = true /\ adjacentSpaces s = false.

(** The code units of the string that are not white space, in order. *)
Fixpoint ink (s : string) : string :=
  match s with
  | EmptyString => EmptyString
  | String c s' => if isWhiteSpace c then ink s' else String c (ink s')
  end.



(** The identifiers of the users were all generated and are pairwise
    distinct, and so are the email addresses. *)
Definition numberedUsers (this : UserService.t) : Prop :=
  Forall (fun u => exists k, (k < UserService.nextId this)%nat /\
                             User.id u = "user_" +:+ numToString k)
         (UserService.users this) /\
  List.NoDup (map User.id (UserService.users this)) /\
  List.NoDup (map User.email (UserService.users this)).

(** No account is locked and no failed login is counted. *)
Definition unlocked (this : UserService.t) : Prop :=
  Forall (fun u => User.isLocked u = false /\ User.loginAttempts u = 0%nat)
         (UserService.users this).

(** The call is [clear]. *)
Definition isClear (call : UserCall) : bool :=
  match call with UserClear => true | _ => false end.

(** None of the calls is [clear]. *)
Definition withoutClear (calls : list (UserCall * Z)) : bool :=
  forallb (fun c => negb (isClear (fst c))) calls.

(** The first user with the email address: [users.find(u => u.email === email)]. *)
Definition storedEmail (email : string) (this : UserService.t) : option User.t :=
  find (fun u => String.eqb (User.email u) email) (UserService.users this).

(** The first user with the identifier. *)
Definition storedUser (id : string) (this : UserService.t) : option User.t :=
  find (fun u => String.eqb (User.id u) id) (UserService.users this).

(** The identifier [create] gives to the next user. *)
Definition nextUserId (this : UserService.t) : string :=
  "user_" +:+ numToString (UserService.nextId this).

Definition rootInput : CreateUserInput.t :=
  {| CreateUserInput.name := "Root";
     CreateUserInput.email := "root@taskmanager.com";
     CreateUserInput.role := Some ADMIN;
     CreateUserInput.preferences := None |}.

(** A second administrator registers, the default administrator is
    deleted. *)
Definition adminReplaced : UserService.t :=
  runUserCalls [(UserCreate rootInput None, 1%Z); (UserDelete "user_1" None, 2%Z)]
               (UserService.constructor 0).

(** The administrator that is left. *)
Definition rootAdmin : User.t := User.constructor rootInput "user_2" 1.

(** A user of role USER. *)
Definition plainUser : User.t :=
  User.constructor {| CreateUserInput.name := "Sam";
                      CreateUserInput.email := "sam@taskmanager.com";
                      CreateUserInput.role := None;
                      CreateUserInput.preferences := None |} "user_7" 5.

(** The response says that the account is locked. *)
Definition saysLocked {T : Type} (response : ApiResponse T) : Prop :=
  error response = Some "Account is locked due to too many failed login attempts".

(** Whether a requester is given may matter, and whether they can manage
    users. *)
Definition restricted (requestedBy : option User.t) : bool :=
  match requestedBy with
  | Some r => negb (User.canManageUsers r)
  | None => false
  end.

Definition usersOfRole (role : UserRole) (this : UserService.t) : list User.t :=
  default [] (data (UserService.getUsersByRole role 0 this)).

Definition guestInput : CreateUserInput.t :=
  {| CreateUserInput.name := "Guest";
     CreateUserInput.email := "guest@taskmanager.com";
     CreateUserInput.role := Some GUEST;
     CreateUserInput.preferences := None |}.

(** An update that provides only an email address. *)
Definition emailUpdate (e : string) : PartialIUser.t :=
  {| PartialIUser.id := None;
     PartialIUser.name := None;
     PartialIUser.email := Some e;
     PartialIUser.role := None;
     PartialIUser.isActive := None;
     PartialIUser.createdAt := None;
     PartialIUser.lastLogin := None;
     PartialIUser.preferences := None |}.

(** The update [{ isActive: false }]. *)
Definition deactivation : PartialIUser.t :=
  {| PartialIUser.id := None;
     PartialIUser.name := None;
     PartialIUser.email := None;
     PartialIUser.role := None;
     PartialIUser.isActive := Some false;
     PartialIUser.createdAt := None;
     PartialIUser.lastLogin := None;
     PartialIUser.preferences := None |}.

(** * Properties *)

(** ** Strings *)

Lemma append_nil_l (s : string) : "" +:+ s = s.
Proof. reflexivity. Qed.

Lemma append_cons (c : ascii) (s1 s2 : string) : String c s1 +:+ s2 = String c (s1 +:+ s2).
Proof. reflexivity. Qed.

Lemma append_empty_r (s : string) : s +:+ "" = s.
Proof.
  induction s as [|c s IH]; [reflexivity | now rewrite append_cons, IH].
Qed.

Lemma append_eq_empty (s1 s2 : string) : s1 +:+ s2 = "" -> s1 = "" /\ s2 = "".
Proof. destruct s1; [auto | rewrite append_cons; discriminate]. Qed.

Lemma append_assoc (s1 s2 s3 : string) : (s1 +:+ s2) +:+ s3 = s1 +:+ (s2 +:+ s3).
Proof.
  induction s1 as [|c s1 IH]; [reflexivity | now rewrite !append_cons, IH].
Qed.

Lemma truthy_true (s : string) : truthy s = true <-> s <> "".
Proof.
  unfold truthy. rewrite negb_true_iff. apply String.eqb_neq.
Qed.

Lemma truthy_false (s : string) : truthy s = false <-> s = "".
Proof.
  unfold truthy. rewrite negb_false_iff. apply String.eqb_eq.
Qed.

Lemma length_zero_iff (s : string) : String.length s = 0%nat <-> s = "".
Proof. destruct s; simpl; split; intros H; try reflexivity; discriminate. Qed.

Lemma trim_empty : trim "" = "".
Proof. reflexivity. Qed.

(** A string that is not empty after trimming is not empty. *)
Lemma trim_nonempty_length (s : string) : trim s <> "" -> (1 <= String.length s)%nat.
Proof.
  destruct s as [|c s]; simpl; [intros H; now elim H | intros _; lia].
Qed.

(** ** Regular expressions *)

Lemma nullable_matches (r : Regex.t) : Regex.nullable r = true <-> Regex.matches r "".
Proof.
  split.
  - induction r as [| | p | r1 IH1 r2 IH2 | r1 IH1 r2 IH2 | r IH]; simpl; intros H;
      try discriminate.
    + constructor.
    + apply andb_true_iff in H as [H1 H2].
      change "" with ("" +:+ ""). constructor; auto.
    + apply orb_true_iff in H as [H | H]; [apply Regex.m_alt_l | apply Regex.m_alt_r]; auto.
    + constructor.
  - intros H. remember "" as s eqn:Es. induction H; simpl; try reflexivity.
    + discriminate.
    + apply append_eq_empty in Es as [E1 E2]. rewrite IHmatches1, IHmatches2; auto.
    + rewrite IHmatches; auto.
    + rewrite IHmatches; auto. apply orb_true_r.
Qed.

Lemma deriv_sound (c : ascii) (r : Regex.t) :
  forall s, Regex.matches (Regex.deriv c r) s -> Regex.matches r (String c s).
Proof.
  induction r as [| | p | r1 IH1 r2 IH2 | r1 IH1 r2 IH2 | r IH]; simpl; intros s H.
  - inversion H.
  - inversion H.
  - destruct (p c) eqn:Ep; inversion H; subst. now constructor.
  - destruct (Regex.nullable r1) eqn:En.
    + inversion H as [| | | ? ? ? Hl | ? ? ? Hr | |]; subst.
      * inversion Hl; subst.
        change (String c (s1 +:+ s2)) with (String c s1 +:+ s2).
        constructor; auto.
      * change (String c s) with ("" +:+ String c s).
        constructor; [now apply nullable_matches | auto].
    + inversion H; subst.
      change (String c (s1 +:+ s2)) with (String c s1 +:+ s2).
      constructor; auto.
  - inversion H; subst; [apply Regex.m_alt_l | apply Regex.m_alt_r]; auto.
  - inversion H; subst.
    change (String c (s1 +:+ s2)) with (String c s1 +:+ s2).
    apply Regex.m_star_cons; auto.
Qed.

Lemma deriv_complete (r : Regex.t) (s0 : string) :
  Regex.matches r s0 ->
  forall c s, s0 = String c s -> Regex.matches (Regex.deriv c r) s.
Proof.
  induction 1 as [| p c0 Hp | r1 r2 s1 s2 H1 IH1 H2 IH2 | r1 r2 s' H IH | r1 r2 s' H IH
                  | r | r s1 s2 H1 IH1 H2 IH2]; intros c s E; simpl.
  - discriminate.
  - injection E as -> <-. rewrite Hp. constructor.
  - destruct s1 as [|c1 s1]; [rewrite append_nil_l in E | rewrite append_cons in E].
    + subst s2. apply nullable_matches in H1. rewrite H1.
      apply Regex.m_alt_r. now apply IH2.
    + injection E as -> <-.
      destruct (Regex.nullable r1).
      * apply Regex.m_alt_l. constructor; auto.
      * constructor; auto.
  - apply Regex.m_alt_l. now apply IH.
  - apply Regex.m_alt_r. now apply IH.
  - discriminate.
  - destruct s1 as [|c1 s1]; [rewrite append_nil_l in E | rewrite append_cons in E].
    + subst s2. now apply IH2.
    + injection E as -> <-. constructor; auto.
Qed.

(** The derivative matcher decides the language of the pattern. *)
Lemma test_matches (s : string) : forall r, Regex.test r s = true <-> Regex.matches r s.
Proof.
  induction s as [|c s IH]; intros r; simpl.
  - apply nullable_matches.
  - rewrite IH. split.
    + apply deriv_sound.
    + intros H. now apply (deriv_complete r (String c s)).
Qed.

Lemma string_forall_append (p : ascii -> bool) (s1 s2 : string) :
  string_forall p (s1 +:+ s2) = string_forall p s1 && string_forall p s2.
Proof.
  induction s1 as [|c s1 IH]; [reflexivity |].
  rewrite append_cons. simpl. now rewrite IH, andb_assoc.
Qed.

Lemma star_chars (p : ascii -> bool) (s : string) :
  Regex.matches (Regex.Star (Regex.Chars p)) s <-> string_forall p s = true.
Proof.
  split.
  - intros H. remember (Regex.Star (Regex.Chars p)) as r eqn:Er.
    induction H; try discriminate; [reflexivity |].
    injection Er as ->. rewrite string_forall_append, IHmatches2 by reflexivity.
    inversion H as [| ? c Hc | | | | |]; subst. simpl. now rewrite Hc.
  - induction s as [|c s IH]; simpl; intros H; [constructor |].
    apply andb_true_iff in H as [Hc Hs].
    change (String c s) with (String c "" +:+ s).
    apply Regex.m_star_cons; [now constructor | auto].
Qed.

Lemma plus_chars (p : ascii -> bool) (s : string) :
  Regex.matches (Regex.Plus (Regex.Chars p)) s <-> run p s.
Proof.
  unfold Regex.Plus, run. split.
  - intros H. inversion H as [| | ? ? s1 s2 H1 H2 | | | |]; subst.
    inversion H1 as [| ? c Hc | | | | |]; subst. apply star_chars in H2.
    rewrite append_cons, append_nil_l. simpl. rewrite Hc, H2.
    split; [discriminate | reflexivity].
  - intros [Hne Hall]. destruct s as [|c s]; [now elim Hne |].
    simpl in Hall. apply andb_true_iff in Hall as [Hc Hs].
    change (String c s) with (String c "" +:+ s).
    constructor; [now constructor | now apply star_chars].
Qed.

Lemma lit_matches (c : ascii) (s : string) :
  Regex.matches (Regex.Lit c) s <-> s = String c "".
Proof.
  unfold Regex.Lit. split.
  - intros H. inversion H as [| ? c' Hc | | | | |]; subst.
    apply Ascii.eqb_eq in Hc. now subst.
  - intros ->. constructor. apply Ascii.eqb_refl.
Qed.

Lemma emailRegex_shape (s : string) :
  Regex.test emailRegex s = true <-> email_shape s.
Proof.
  rewrite test_matches. unfold emailRegex, email_shape. split.
  - intros H.
    inversion H as [| | ? ? a s1 Ha H1 | | | |]; subst.
    inversion H1 as [| | ? ? at_ s2 Hat H2 | | | |]; subst.
    inversion H2 as [| | ? ? b s3 Hb H3 | | | |]; subst.
    inversion H3 as [| | ? ? dot c Hdot Hc | | | |]; subst.
    apply lit_matches in Hat, Hdot. subst.
    exists a, b, c. rewrite !plus_chars in *. auto.
  - intros (a & b & c & -> & Ha & Hb & Hc).
    constructor; [now apply plus_chars |].
    constructor; [now apply lit_matches |].
    constructor; [now apply plus_chars |].
    constructor; [now apply lit_matches | now apply plus_chars].
Qed.

(** An accepted email is not empty after trimming. *)
Lemma email_shape_trim (s : string) : email_shape s -> trim s <> "".
Proof.
  intros (a & b & c & -> & [Ha Hall] & _).
  destruct a as [|x a]; [now elim Ha |].
  rewrite append_cons. simpl in Hall. apply andb_true_iff in Hall as [Hx _].
  unfold notSpaceNorAt in Hx. apply negb_true_iff, orb_false_iff in Hx as [Hx _].
  unfold trim. simpl. rewrite Hx. simpl.
  destruct (trimEnd _); [rewrite Hx |]; discriminate.
Qed.

Lemma email_shape_nonempty (s : string) : email_shape s -> s <> "".
Proof.
  intros H ->. now apply email_shape_trim in H.
Qed.

(** ** [validators.ts] *)

Lemma includes_In (values : list string) (x : string) :
  includes values x = true <-> In x values.
Proof.
  unfold includes. rewrite existsb_exists. split.
  - intros (y & Hy & E). apply String.eqb_eq in E. now subst.
  - intros H. exists x. split; [assumption | apply String.eqb_refl].
Qed.

Lemma isEnumValue_ok (values : list string) (f : Field string) :
  negb (is_undefined f) && negb (Validators.isEnumValue values f) = false <->
  enum_ok values f.
Proof.
  unfold enum_ok, Validators.isEnumValue. destruct f as [| |s]; simpl.
  - split; [now left | reflexivity].
  - split; [discriminate | intros [H | (s & H & _)]; discriminate].
  - rewrite negb_false_iff, includes_In. split.
    + intros H. right. now exists s.
    + intros [H | (s' & [= ->] & H)]; [discriminate | assumption].
Qed.

Lemma pushIfError_app (errors : list string) (e : option string) :
  Validators.pushIfError errors e = errors ++ Validators.pushIfError [] e.
Proof.
  unfold Validators.pushIfError, push. destruct e as [m|]; [destruct (truthy m) |];
    now rewrite ?app_nil_r.
Qed.

Lemma pushIfError_nil (e : option string) :
  Validators.pushIfError [] e = [] <-> truthy_opt e = false.
Proof.
  unfold Validators.pushIfError, push. destruct e as [m|]; simpl; [|tauto].
  destruct (truthy m); split; (discriminate || reflexivity).
Qed.

Lemma validateStringLength_none (s field : string) (lo hi : nat) :
  truthy_opt (Validators.validateStringLength s field lo hi) = false <->
  (lo <= String.length s <= hi)%nat.
Proof.
  unfold Validators.validateStringLength.
  destruct (String.length s <? lo)%nat eqn:Elo.
  - apply Nat.ltb_lt in Elo. simpl. split; [|lia].
    intros H. apply truthy_false in H. rewrite <- !append_assoc in H.
    apply append_eq_empty in H as [_ H]. discriminate.
  - apply Nat.ltb_ge in Elo. destruct (hi <? String.length s)%nat eqn:Ehi.
    + apply Nat.ltb_lt in Ehi. simpl. split; [|lia].
      intros H. apply truthy_false in H. rewrite <- !append_assoc in H.
      apply append_eq_empty in H as [_ H]. discriminate.
    + apply Nat.ltb_ge in Ehi. simpl. split; [lia | reflexivity].
Qed.

Lemma validateRequired_none (f : Field string) (field : string) :
  truthy_opt (Validators.validateRequired f field) = false <->
  exists s, f = Defined s /\ trim s <> "".
Proof.
  unfold Validators.validateRequired. destruct f as [| |s]; simpl.
  - split; [|intros (s & H & _); discriminate].
    intros H. apply truthy_false, append_eq_empty in H as [_ H]. discriminate.
  - split; [|intros (s & H & _); discriminate].
    intros H. apply truthy_false, append_eq_empty in H as [_ H]. discriminate.
  - destruct (String.length (trim s) =? 0)%nat eqn:E; simpl.
    + apply Nat.eqb_eq, length_zero_iff in E. split.
      * intros H. apply truthy_false, append_eq_empty in H as [_ H]. discriminate.
      * intros (s' & [= <-] & H). now elim H.
    + apply Nat.eqb_neq in E. split; [|reflexivity].
      intros _. exists s. split; [reflexivity |].
      intros H. apply E. now rewrite H.
Qed.

(** Each block appends its errors to those found before it. *)
Ltac block_app :=
  repeat match goal with
         | |- context [if ?b then _ else _] => destruct b
         end;
  unfold push; rewrite ?app_nil_r, ?app_nil_l;
  try reflexivity; try apply pushIfError_app.

Lemma checkTitle_app d errors :
  Validators.checkTitle d errors = errors ++ Validators.checkTitle d [].
Proof. unfold Validators.checkTitle. cbv zeta. block_app. Qed.

Lemma checkDescription_app d errors :
  Validators.checkDescription d errors = errors ++ Validators.checkDescription d [].
Proof. unfold Validators.checkDescription. cbv zeta. block_app. Qed.

Lemma checkPriority_app d errors :
  Validators.checkPriority d errors = errors ++ Validators.checkPriority d [].
Proof. unfold Validators.checkPriority. block_app. Qed.

Lemma checkStatus_app d errors :
  Validators.checkStatus d errors = errors ++ Validators.checkStatus d [].
Proof. unfold Validators.checkStatus. block_app. Qed.

Lemma checkDueDate_app d errors :
  Validators.checkDueDate d errors = errors ++ Validators.checkDueDate d [].
Proof. unfold Validators.checkDueDate. block_app. Qed.

Lemma checkTags_app d errors :
  Validators.checkTags d errors = errors ++ Validators.checkTags d [].
Proof. unfold Validators.checkTags. block_app. Qed.

Lemma checkName_app d errors :
  Validators.checkName d errors = errors ++ Validators.checkName d [].
Proof. unfold Validators.checkName. cbv zeta. block_app. Qed.

Lemma checkEmail_app d errors :
  Validators.checkEmail d errors = errors ++ Validators.checkEmail d [].
Proof. unfold Validators.checkEmail. cbv zeta. block_app. Qed.

Lemma checkRole_app d errors :
  Validators.checkRole d errors = errors ++ Validators.checkRole d [].
Proof. unfold Validators.checkRole. block_app. Qed.

(** The errors of [validateTaskData], block by block. *)
Lemma validateTaskData_errors (d : Validators.TaskData) :
  errors (Validators.validateTaskData d) =
  Validators.checkTitle d [] ++ Validators.checkDescription d [] ++
  Validators.checkPriority d [] ++ Validators.checkStatus d [] ++
  Validators.checkDueDate d [] ++ Validators.checkTags d [].
Proof.
  unfold Validators.validateTaskData. simpl.
  rewrite checkTags_app, checkDueDate_app, checkStatus_app, checkPriority_app,
    checkDescription_app.
  now rewrite <- !app_assoc.
Qed.

Lemma validateUserData_errors (d : Validators.UserData) :
  errors (Validators.validateUserData d) =
  Validators.checkName d [] ++ Validators.checkEmail d [] ++ Validators.checkRole d [].
Proof.
  unfold Validators.validateUserData. simpl.
  rewrite checkRole_app, checkEmail_app.
  now rewrite <- !app_assoc.
Qed.

Lemma isValid_validateTaskData (d : Validators.TaskData) :
  isValid (Validators.validateTaskData d) = true <-> errors (Validators.validateTaskData d) = [].
Proof.
  unfold Validators.validateTaskData. simpl. rewrite Nat.eqb_eq. apply length_zero_iff_nil.
Qed.

Lemma isValid_validateUserData (d : Validators.UserData) :
  isValid (Validators.validateUserData d) = true <-> errors (Validators.validateUserData d) = [].
Proof.
  unfold Validators.validateUserData. simpl. rewrite Nat.eqb_eq. apply length_zero_iff_nil.
Qed.

Lemma if_push_nil (b : bool) (m : string) :
  (if b then push [] m else []) = [] <-> b = false.
Proof. destruct b; unfold push; simpl; split; (discriminate || reflexivity). Qed.

(** A required text of at most [max] code units: the two rules of the
    title and of the name. *)
Lemma required_text_nil (f : Field string) (field : string) (max : nat) :
  (if negb (is_undefined f) then
     if truthy_opt (Validators.validateRequired f field)
     then Validators.pushIfError [] (Validators.validateRequired f field)
     else Validators.pushIfError []
            (Validators.validateStringLength (Validators.stringOf f) field 1 max)
   else []) = [] <-> absent_or (text_ok max) f.
Proof.
  unfold absent_or, text_ok.
  destruct (is_undefined f) eqn:Eu; simpl.
  - destruct f; try discriminate. split; [now left | reflexivity].
  - destruct (truthy_opt (Validators.validateRequired f field)) eqn:Er.
    + rewrite pushIfError_nil, Er. split; [discriminate |].
      intros [-> | (s & -> & Ht & _)]; [discriminate |].
      assert (truthy_opt (Validators.validateRequired (Defined s) field) = false) as E
        by (apply validateRequired_none; eauto).
      congruence.
    + apply validateRequired_none in Er as (s & -> & Ht). simpl.
      rewrite pushIfError_nil, validateStringLength_none. split.
      * intros [_ H]. right. eauto.
      * intros [H | (s' & [= <-] & _ & H)]; [discriminate |].
        split; [now apply trim_nonempty_length | assumption].
Qed.

Lemma checkTitle_nil (d : Validators.TaskData) :
  Validators.checkTitle d [] = [] <-> absent_or (text_ok 200) (Validators.title d).
Proof. apply required_text_nil. Qed.

Lemma checkName_nil (d : Validators.UserData) :
  Validators.checkName d [] = [] <-> absent_or (text_ok 100) (Validators.name d).
Proof. apply required_text_nil. Qed.

Lemma checkDescription_nil (d : Validators.TaskData) :
  Validators.checkDescription d [] = [] <->
  nullish_or (fun s => (String.length s <= 1000)%nat) (Validators.description d).
Proof.
  unfold Validators.checkDescription, nullish_or.
  destruct (Validators.description d) as [| |s]; simpl.
  - split; [now left | reflexivity].
  - split; [now right; left | reflexivity].
  - rewrite pushIfError_nil, validateStringLength_none. split.
    + intros [_ H]. right; right. eauto.
    + intros [H | [H | (s' & [= <-] & H)]]; try discriminate. lia.
Qed.

Lemma checkPriority_nil (d : Validators.TaskData) :
  Validators.checkPriority d [] = [] <->
  enum_ok Validators.PriorityValues (Validators.priority d).
Proof.
  unfold Validators.checkPriority. rewrite if_push_nil. apply isEnumValue_ok.
Qed.

Lemma checkStatus_nil (d : Validators.TaskData) :
  Validators.checkStatus d [] = [] <->
  enum_ok Validators.TaskStatusValues (Validators.status d).
Proof.
  unfold Validators.checkStatus. rewrite if_push_nil. apply isEnumValue_ok.
Qed.

Lemma checkRole_nil (d : Validators.UserData) :
  Validators.checkRole d [] = [] <->
  enum_ok Validators.UserRoleValues (Validators.role d).
Proof.
  unfold Validators.checkRole. rewrite if_push_nil. apply isEnumValue_ok.
Qed.

Lemma checkDueDate_nil (d : Validators.TaskData) :
  Validators.checkDueDate d [] = [] <-> nullish_or valid_date (Validators.dueDate d).
Proof.
  unfold Validators.checkDueDate, nullish_or, valid_date.
  destruct (Validators.dueDate d) as [| |[ms|]]; simpl.
  - split; [now left | reflexivity].
  - split; [now right; left | reflexivity].
  - split; [|reflexivity]. intros _. right; right. eauto.
  - split; [discriminate |].
    intros [H | [H | (a & [= <-] & ms & H)]]; discriminate.
Qed.

Lemma forallb_isString (l : list (Field string)) :
  forallb Validators.isString l = true <-> all_strings l.
Proof.
  unfold all_strings. rewrite forallb_forall, List.Forall_forall.
  split; intros H e He; specialize (H e He).
  - destruct e as [| |s]; try discriminate. eauto.
  - destruct H as (s & ->). reflexivity.
Qed.

Lemma checkTags_nil (d : Validators.TaskData) :
  Validators.checkTags d [] = [] <-> absent_or all_strings (Validators.tags d).
Proof.
  unfold Validators.checkTags, absent_or.
  destruct (Validators.tags d) as [| |l]; simpl.
  - split; [now left | reflexivity].
  - split; [discriminate | intros [H | (l & H & _)]; discriminate].
  - rewrite if_push_nil, negb_false_iff, forallb_isString. split.
    + intros H. right. eauto.
    + intros [H | (l' & [= <-] & H)]; [discriminate | assumption].
Qed.

Lemma checkEmail_nil (d : Validators.UserData) :
  Validators.checkEmail d [] = [] <-> absent_or email_shape (Validators.email d).
Proof.
  unfold Validators.checkEmail, absent_or. cbv zeta.
  destruct (is_undefined (Validators.email d)) eqn:Eu; simpl.
  - destruct (Validators.email d); try discriminate. split; [now left | reflexivity].
  - destruct (truthy_opt (Validators.validateRequired (Validators.email d) "Email")) eqn:Er.
    + rewrite pushIfError_nil, Er. split; [discriminate |].
      intros [H | (s & H & Hs)]; [rewrite H in Eu; discriminate |].
      assert (truthy_opt (Validators.validateRequired (Validators.email d) "Email") = false)
        as E by (apply validateRequired_none; exists s; split;
                 [assumption | now apply email_shape_trim]).
      congruence.
    + apply validateRequired_none in Er as (s & -> & Ht). simpl.
      rewrite if_push_nil, negb_false_iff.
      unfold Validators.isValidEmail. rewrite emailRegex_shape. split.
      * intros H. right. eauto.
      * intros [H | (s' & [= <-] & H)]; [discriminate | assumption].
Qed.

(** What [validateTaskData] accepts. *)
Lemma validateTaskData_valid_iff (d : Validators.TaskData) :
  isValid (Validators.validateTaskData d) = true <->
  absent_or (text_ok 200) (Validators.title d) /\
  nullish_or (fun s => (String.length s <= 1000)%nat) (Validators.description d) /\
  enum_ok Validators.PriorityValues (Validators.priority d) /\
  enum_ok Validators.TaskStatusValues (Validators.status d) /\
  nullish_or valid_date (Validators.dueDate d) /\
  absent_or all_strings (Validators.tags d).
Proof.
  rewrite isValid_validateTaskData, validateTaskData_errors.
  rewrite !app_nil.
  rewrite checkTitle_nil, checkDescription_nil, checkPriority_nil, checkStatus_nil,
    checkDueDate_nil, checkTags_nil.
  reflexivity.
Qed.

(** What [validateUserData] accepts. *)
Lemma validateUserData_valid_iff (d : Validators.UserData) :
  isValid (Validators.validateUserData d) = true <->
  absent_or (text_ok 100) (Validators.name d) /\
  absent_or email_shape (Validators.email d) /\
  enum_ok Validators.UserRoleValues (Validators.role d).
Proof.
  rewrite isValid_validateUserData, validateUserData_errors.
  rewrite !app_nil.
  rewrite checkName_nil, checkEmail_nil, checkRole_nil.
  reflexivity.
Qed.

(** ** The entity validators *)

Lemma required_rule (s : string) :
  negb (truthy s) || (String.length (trim s) =? 0)%nat = false <-> trim s <> "".
Proof.
  rewrite orb_false_iff, negb_false_iff, truthy_true, Nat.eqb_neq, length_zero_iff.
  split; [tauto |]. intros H. split; [|assumption]. intros ->. now apply H.
Qed.

Lemma length_rule (s : string) (max : nat) :
  truthy s && (max <? String.length s)%nat = false <-> (String.length s <= max)%nat.
Proof.
  rewrite andb_false_iff, truthy_false, Nat.ltb_ge. split.
  - intros [-> | H]; [simpl; lia | assumption].
  - auto.
Qed.

Lemma isValid_Task_validate (t : Task.t) :
  isValid (Task.validate t) =
  negb (negb (truthy (Task.title t)) || (String.length (trim (Task.title t)) =? 0)%nat) &&
  negb (truthy (Task.title t) && (200 <? String.length (Task.title t))%nat) &&
  negb (match Task.description t with
        | Some d => truthy d && (1000 <? String.length d)%nat
        | None => false
        end) &&
  negb (match Task.dueDate t with
        | Some due => date_lt due (Task.createdAt t)
        | None => false
        end).
Proof.
  unfold Task.validate. cbv zeta.
  destruct (negb (truthy (Task.title t)) || _);
    destruct (truthy (Task.title t) && _);
    destruct (Task.description t) as [d|]; try destruct (truthy d && _);
    destruct (Task.dueDate t) as [due|]; try destruct (date_lt due _);
    reflexivity.
Qed.

(** What [Task.validate] accepts. *)
Lemma Task_validate_valid_iff (t : Task.t) :
  isValid (Task.validate t) = true <->
  text_ok 200 (Task.title t) /\
  (forall d, Task.description t = Some d -> (String.length d <= 1000)%nat) /\
  (forall due, Task.dueDate t = Some due -> date_lt due (Task.createdAt t) = false).
Proof.
  rewrite isValid_Task_validate, !andb_true_iff, !negb_true_iff.
  rewrite required_rule, length_rule. unfold text_ok.
  assert ((match Task.description t with
           | Some d => truthy d && (1000 <? String.length d)%nat
           | None => false
           end) = false <->
          forall d, Task.description t = Some d -> (String.length d <= 1000)%nat) as ->.
  { destruct (Task.description t) as [d|].
    - rewrite length_rule. split; [intros H d' [= <-]; assumption | auto].
    - split; [discriminate | reflexivity]. }
  assert ((match Task.dueDate t with
           | Some due => date_lt due (Task.createdAt t)
           | None => false
           end) = false <->
          forall due, Task.dueDate t = Some due -> date_lt due (Task.createdAt t) = false) as ->.
  { destruct (Task.dueDate t) as [due|].
    - split; [intros H d' [= <-]; assumption | auto].
    - split; [discriminate | reflexivity]. }
  tauto.
Qed.

(** Between valid instants, "not earlier" is "at or after". *)
Lemma date_lt_false_instants (a b : Z) :
  date_lt (Instant a) (Instant b) = false <-> (b <= a)%Z.
Proof. simpl. apply Z.ltb_ge. Qed.

Lemma isValid_User_validate (u : User.t) :
  isValid (User.validate u) =
  negb (negb (truthy (User.name u)) || (String.length (trim (User.name u)) =? 0)%nat) &&
  negb (truthy (User.name u) && (100 <? String.length (User.name u))%nat) &&
  negb (negb (truthy (User.email u)) || negb (User.isValidEmail (User.email u))).
Proof.
  unfold User.validate. cbv zeta.
  destruct (negb (truthy (User.name u)) || _);
    destruct (truthy (User.name u) && _);
    destruct (negb (truthy (User.email u)) || _);
    reflexivity.
Qed.

(** What [User.validate] accepts. *)
Lemma User_validate_valid_iff (u : User.t) :
  isValid (User.validate u) = true <->
  text_ok 100 (User.name u) /\ User.email u <> "" /\ email_shape (User.email u).
Proof.
  rewrite isValid_User_validate, !andb_true_iff, !negb_true_iff.
  rewrite required_rule, length_rule. unfold text_ok.
  rewrite orb_false_iff, !negb_false_iff, truthy_true.
  unfold User.isValidEmail. rewrite emailRegex_shape. tauto.
Qed.

(** C2, counterexample.  [validateTaskData] accepts a complete task record
    whose due instant (1000) precedes its creation instant (2000), which
    the rule set of the claim rejects. *)
Lemma validateTaskData_ignores_creation :
  ~ (isValid (Validators.validateTaskData dueBeforeCreation) = true <->
     spec_task_rules dueBeforeCreation).
Proof.
  intros [H _].
  assert (isValid (Validators.validateTaskData dueBeforeCreation) = true) as Hv
    by (vm_compute; reflexivity).
  apply H in Hv. destruct Hv as (_ & _ & _ & _ & Hdue).
  specialize (Hdue 1000%Z 2000%Z eq_refl eq_refl). lia.
Qed.

(** C2, amended.  The two task validators divide the rules between them.
    [Task.validate], on an entity (whose priority and status are members
    of their enumerations by type), accepts exactly when the title is not
    empty after trimming and has at most 200 code units, the description
    when present has at most 1000, and the due date when present is not
    earlier than the creation date.  [validateTaskData], on a partial
    record, accepts exactly when the title is absent or such a title, the
    description is absent, null or of at most 1000 code units, the priority
    and the status are absent or in their enumerations, the due date is
    absent, null or a valid date, and the tags are absent or an array of
    strings; it does not compare the due date with the creation date. *)
Theorem task_validators_accept :
  (forall t : Task.t,
      isValid (Task.validate t) = true <->
      text_ok 200 (Task.title t) /\
      (forall d, Task.description t = Some d -> (String.length d <= 1000)%nat) /\
      (forall due, Task.dueDate t = Some due -> date_lt due (Task.createdAt t) = false)) /\
  (forall d : Validators.TaskData,
      isValid (Validators.validateTaskData d) = true <->
      absent_or (text_ok 200) (Validators.title d) /\
      nullish_or (fun s => (String.length s <= 1000)%nat) (Validators.description d) /\
      enum_ok Validators.PriorityValues (Validators.priority d) /\
      enum_ok Validators.TaskStatusValues (Validators.status d) /\
      nullish_or valid_date (Validators.dueDate d) /\
      absent_or all_strings (Validators.tags d)).
Proof.
  split; [apply Task_validate_valid_iff | apply validateTaskData_valid_iff].
Qed.

Lemma twoAts_spec_shape : spec_email_shape "a@b@c.d".
Proof.
  exists "a@b", "c", "d". unfold run.
  repeat split; try discriminate; reflexivity.
Qed.

(** C5, counterexample.  The email [a@b@c.d] is made of runs without white
    space around an ['@'] and a ['.'], so the rule set of the claim accepts
    the record, and [validateUserData] rejects it: the runs of the pattern
    exclude ['@'] too. *)
Lemma validateUserData_rejects_two_ats :
  ~ (isValid (Validators.validateUserData twoAts) = true <-> spec_user_rules twoAts).
Proof.
  intros [_ H].
  assert (isValid (Validators.validateUserData twoAts) = false) as Hv
    by (vm_compute; reflexivity).
  rewrite H in Hv; [discriminate |].
  unfold spec_user_rules, twoAts, text_ok; simpl. repeat split.
  - exists "Ann". repeat split; [discriminate | simpl; lia].
  - exists "a@b@c.d". repeat split; [discriminate | apply twoAts_spec_shape].
  - right. exists "user". split; [reflexivity | simpl; auto].
Qed.

(** C5, amended.  [User.validate], on an entity (whose role is a member of
    the enumeration by type), accepts exactly when the name is not empty
    after trimming and has at most 100 code units and the email is not
    empty and has the shape [a@b.c], where [a], [b] and [c] are non-empty
    runs of code units that are neither white space nor ['@'].
    [validateUserData], on a partial record, accepts exactly when the name
    is absent or such a name, the email is absent or such an email, and the
    role is absent or in the enumeration. *)
Theorem user_validators_accept :
  (forall u : User.t,
      isValid (User.validate u) = true <->
      text_ok 100 (User.name u) /\ User.email u <> "" /\ email_shape (User.email u)) /\
  (forall d : Validators.UserData,
      isValid (Validators.validateUserData d) = true <->
      absent_or (text_ok 100) (Validators.name d) /\
      absent_or (fun e => e <> "" /\ email_shape e) (Validators.email d) /\
      enum_ok Validators.UserRoleValues (Validators.role d)).
Proof.
  split; [apply User_validate_valid_iff |].
  intros d. rewrite validateUserData_valid_iff.
  assert (absent_or email_shape (Validators.email d) <->
          absent_or (fun e => e <> "" /\ email_shape e) (Validators.email d)) as ->; [|tauto].
  unfold absent_or. split; (intros [H | (e & H1 & H2)]; [now left | right; exists e]).
  - split; [assumption |]. split; [now apply email_shape_nonempty | assumption].
  - tauto.
Qed.

Lemma length_repeatA (n : nat) : String.length (repeatA n) = n.
Proof. induction n as [|n IH]; simpl; [reflexivity | now rewrite IH]. Qed.

(** C9.  On a record made of an empty title, a description of 1001 code
    units and a priority outside the enumeration, [validateTaskData]
    answers invalid with exactly three errors in the order of the rules:
    the title, then the length of the description, then the priority. *)
Theorem validateTaskData_three_errors (desc prio : string) :
  String.length desc = 1001%nat ->
  ~ In prio Validators.PriorityValues ->
  Validators.validateTaskData (threeViolations desc prio) =
  {| isValid := false;
     errors := ["Title cannot be empty";
                "Description must be no more than 1000 characters long";
                "Invalid priority value"] |}.
Proof.
  intros Hlen Hprio.
  assert (includes Validators.PriorityValues prio = false) as Hinc.
  { destruct (includes Validators.PriorityValues prio) eqn:E; [|reflexivity].
    apply includes_In in E. contradiction. }
  unfold Validators.validateTaskData, threeViolations. cbv zeta.
  unfold Validators.checkTags, Validators.checkDueDate, Validators.checkStatus,
    Validators.checkPriority, Validators.checkDescription, Validators.checkTitle.
  cbn [Validators.title Validators.description Validators.priority Validators.status
       Validators.dueDate Validators.tags is_undefined is_null negb andb].
  unfold Validators.isPriority, Validators.isEnumValue, Validators.isString.
  cbn [Validators.stringOf].
  assert (Validators.validateStringLength desc "Description" 0 1000 =
          Some "Description must be no more than 1000 characters long") as ->.
  { unfold Validators.validateStringLength. now rewrite Hlen. }
  rewrite Hinc.
  reflexivity.
Qed.

(** The record of the demonstration script. *)
Lemma validateTaskData_three_errors_witness :
  Validators.validateTaskData (threeViolations (repeatA 1001) "invalid") =
  {| isValid := false;
     errors := ["Title cannot be empty";
                "Description must be no more than 1000 characters long";
                "Invalid priority value"] |}.
Proof.
  apply validateTaskData_three_errors.
  - apply length_repeatA.
  - simpl. intros [H | [H | [H | [H | []]]]]; discriminate.
Defined.

(** ** Pagination *)

(** For a start that is not negative and a positive length, [slice] is the
    window of that length at that start. *)
Lemma slice_window {A : Type} (arr : list A) (start len : Z) :
  (0 <= start)%Z -> (0 <= len)%Z ->
  slice arr start (start + len) = take (Z.to_nat len) (drop (Z.to_nat start) arr).
Proof.
  intros Hs Hl. unfold slice.
  destruct (start <? 0)%Z eqn:E1; [apply Z.ltb_lt in E1; lia |].
  destruct (start + len <? 0)%Z eqn:E2; [apply Z.ltb_lt in E2; lia |].
  destruct (Z.le_gt_cases (Z.of_nat (length arr)) start) as [Hge | Hlt].
  - rewrite (drop_ge arr (Z.to_nat start)) by lia.
    rewrite Z.min_r by lia. rewrite Z.min_r by lia.
    rewrite Z.sub_diag. simpl. now rewrite take_nil.
  - rewrite (Z.min_l start) by lia.
    destruct (Z.le_gt_cases (start + len) (Z.of_nat (length arr))) as [Hin | Hout].
    + rewrite Z.min_l by lia. f_equal. lia.
    + rewrite Z.min_r by lia.
      rewrite !take_ge; [reflexivity | |]; rewrite length_drop; lia.
Qed.

(** [Math.ceil(total / limit)] for a positive [limit] is the least number
    of pages of that size that hold [total] items. *)
Lemma ceilDiv_pages (total0 : nat) (lim : Z) :
  (0 < lim)%Z ->
  exists pages : Z,
    ceilDiv total0 lim = Num pages /\
    (0 <= pages)%Z /\
    ((pages - 1) * lim < Z.of_nat total0 <= pages * lim)%Z.
Proof.
  intros Hlim. unfold ceilDiv.
  destruct (lim =? 0)%Z eqn:E; [apply Z.eqb_eq in E; lia |].
  exists (- (- Z.of_nat total0 / lim))%Z. split; [reflexivity |].
  pose proof (Z.div_mod (- Z.of_nat total0) lim ltac:(lia)) as Hdm.
  pose proof (Z.mod_pos_bound (- Z.of_nat total0) lim Hlim) as Hb.
  assert (- Z.of_nat total0 / lim <= 0)%Z by (apply Z.div_le_upper_bound; lia).
  split; [lia | nia].
Qed.

(** The response of [getAll] to a request with a positive page and a
    positive limit. *)
Lemma getAll_paged (this : TaskService.t) (filters : option TaskFilters.t)
    (p : PaginationOptions) (now : Z) (pages : Z) :
  (0 < page p)%Z -> (0 < limit p)%Z ->
  ceilDiv (length (TaskService.selected filters (Some p) this)) (limit p) = Num pages ->
  TaskService.getAll filters (Some p) now this =
  ok {| TaskService.listing_tasks :=
          take (Z.to_nat (limit p))
            (drop (Z.to_nat ((page p - 1) * limit p))
               (TaskService.selected filters (Some p) this));
        TaskService.total := length (TaskService.selected filters (Some p) this);
        TaskService.listing_page := Some (page p);
        TaskService.totalPages := Some (Num pages) |} now.
Proof.
  intros Hpage Hlimit Hc. unfold TaskService.getAll. cbv zeta.
  rewrite Hc, slice_window by nia. reflexivity.
Qed.

(** C7.  With a positive page and a positive limit, [getAll] succeeds and
    returns the size of the filtered and sorted array as [total], the
    window of [limit] items that starts at [(page - 1) * limit] of that
    array, and as [totalPages] the ceiling of [total / limit]: the number
    [pages] with [(pages - 1) * limit < total <= pages * limit].  When the
    start is at or beyond [total] the response is still a success, and its
    page is empty. *)
Theorem getAll_page (this : TaskService.t) (filters : option TaskFilters.t)
    (p : PaginationOptions) (now : Z) :
  (0 < page p)%Z -> (0 < limit p)%Z ->
  let full := TaskService.selected filters (Some p) this in
  let start := Z.to_nat ((page p - 1) * limit p) in
  exists pages : Z,
    TaskService.getAll filters (Some p) now this =
      ok {| TaskService.listing_tasks := take (Z.to_nat (limit p)) (drop start full);
            TaskService.total := length full;
            TaskService.listing_page := Some (page p);
            TaskService.totalPages := Some (Num pages) |} now /\
    ((pages - 1) * limit p < Z.of_nat (length full) <= pages * limit p)%Z /\
    success (TaskService.getAll filters (Some p) now this) = true /\
    ((length full <= start)%nat ->
     pageTasks (TaskService.getAll filters (Some p) now this) = []).
Proof.
  intros Hpage Hlimit full start.
  destruct (ceilDiv_pages (length full) (limit p) Hlimit) as (pages & Hc & _ & Hb).
  exists pages.
  rewrite (getAll_paged this filters p now pages Hpage Hlimit Hc).
  fold full. fold start. repeat split; try lia.
  intros Hout. unfold pageTasks. simpl.
  rewrite drop_ge by assumption. apply take_nil.
Qed.

(** The second page of two, out of three tasks. *)
Lemma getAll_page_witness :
  exists pages : Z,
    TaskService.getAll None (Some (pageRequest 2 2 None None)) 9 threeTasks =
      ok {| TaskService.listing_tasks := drop 2 (TaskService.tasks threeTasks);
            TaskService.total := 3;
            TaskService.listing_page := Some 2%Z;
            TaskService.totalPages := Some (Num pages) |} 9 /\
    ((pages - 1) * 2 < 3 <= pages * 2)%Z /\
    success (TaskService.getAll None (Some (pageRequest 2 2 None None)) 9 threeTasks) = true /\
    ((3 <= 2)%nat ->
     pageTasks (TaskService.getAll None (Some (pageRequest 2 2 None None)) 9 threeTasks) = []).
Proof.
  apply (getAll_page threeTasks None (pageRequest 2 2 None None) 9); simpl; lia.
Defined.

Lemma pageTasks_window (this : TaskService.t) (filters : option TaskFilters.t)
    (key : option TaskKey) (order : option SortOrder) (lim : Z) (now : Z) (n : nat) :
  (0 < lim)%Z ->
  pageTasks (TaskService.getAll filters (Some (pageRequest (Z.of_nat (S n)) lim key order))
               now this) =
  take (Z.to_nat lim)
    (drop (n * Z.to_nat lim)
       (TaskService.selected filters (Some (pageRequest 1 lim key order)) this)).
Proof.
  intros Hlim.
  destruct (ceilDiv_pages
              (length (TaskService.selected filters
                         (Some (pageRequest (Z.of_nat (S n)) lim key order)) this))
              lim Hlim) as (pages & Hc & _).
  rewrite (getAll_paged this filters (pageRequest (Z.of_nat (S n)) lim key order) now pages);
    [|simpl; lia | assumption | assumption].
  unfold pageTasks. simpl. do 2 f_equal. nia.
Qed.

Lemma pageCount_getAll (this : TaskService.t) (filters : option TaskFilters.t)
    (p : PaginationOptions) (now : Z) :
  pageCount (TaskService.getAll filters (Some p) now this) =
  Some (ceilDiv (length (TaskService.selected filters (Some p) this)) (limit p)).
Proof. reflexivity. Qed.

(** The page number plays no part in filtering and sorting. *)
Lemma selected_any_page (this : TaskService.t) (filters : option TaskFilters.t)
    (key : option TaskKey) (order : option SortOrder) (lim p q : Z) :
  TaskService.selected filters (Some (pageRequest p lim key order)) this =
  TaskService.selected filters (Some (pageRequest q lim key order)) this.
Proof. reflexivity. Qed.

Lemma pages_concat {A : Type} (l : list A) (size n : nat) :
  concat (map (fun k => take size (drop (k * size) l)) (seq 0 n)) = take (n * size) l.
Proof.
  induction n as [|n IH]; [reflexivity |].
  rewrite seq_S, map_app, concat_app, IH. simpl. rewrite app_nil_r.
  rewrite take_take_drop. f_equal. lia.
Qed.

(** C8.  For a positive limit every page reports the same page count [n],
    and the pages 1 to [n], one after the other, are the filtered and
    sorted array: nothing is missing and nothing occurs twice. *)
Theorem pages_cover (this : TaskService.t) (filters : option TaskFilters.t)
    (key : option TaskKey) (order : option SortOrder) (lim : Z) (now : Z) :
  (0 < lim)%Z ->
  exists n : nat,
    (forall p : Z,
        pageCount (TaskService.getAll filters (Some (pageRequest p lim key order)) now this)
        = Some (Num (Z.of_nat n))) /\
    concat (map (fun p : nat =>
                   pageTasks (TaskService.getAll filters
                                (Some (pageRequest (Z.of_nat p) lim key order)) now this))
              (seq 1 n))
    = TaskService.selected filters (Some (pageRequest 1 lim key order)) this.
Proof.
  intros Hlim.
  set (full := TaskService.selected filters (Some (pageRequest 1 lim key order)) this).
  destruct (ceilDiv_pages (length full) lim Hlim) as (pages & Hc & Hpos & Hb).
  exists (Z.to_nat pages). split.
  - intros p. rewrite pageCount_getAll.
    rewrite (selected_any_page this filters key order lim p 1). fold full.
    change (limit (pageRequest p lim key order)) with lim.
    rewrite Hc. now rewrite Z2Nat.id.
  - rewrite <- seq_shift, map_map.
    erewrite map_ext; [|intros k; apply pageTasks_window; assumption].
    fold full. rewrite pages_concat. apply take_ge. nia.
Qed.

(** Three tasks in pages of two. *)
Lemma pages_cover_witness :
  exists n : nat,
    (forall p : Z,
        pageCount (TaskService.getAll None (Some (pageRequest p 2 None None)) 9 threeTasks)
        = Some (Num (Z.of_nat n))) /\
    concat (map (fun p : nat =>
                   pageTasks (TaskService.getAll None
                                (Some (pageRequest (Z.of_nat p) 2 None None)) 9 threeTasks))
              (seq 1 n))
    = TaskService.selected None (Some (pageRequest 1 2 None None)) threeTasks.
Proof.
  apply (pages_cover threeTasks None None None 2 9). lia.
Defined.

(** ** Filtering *)

Lemma existsb_bool_decide {A : Type} `{EqDecision A} (x : A) (l : list A) :
  existsb (fun y => bool_decide (y = x)) l = true <-> In x l.
Proof.
  rewrite existsb_exists. split.
  - intros (y & Hy & E). apply bool_decide_eq_true in E. now subst.
  - intros H. exists x. split; [assumption | now apply bool_decide_eq_true].
Qed.

Lemma if_false_else (c x : bool) :
  (if c then false else x) = true <-> c = false /\ x = true.
Proof.
  destruct c; split; intros H; try tauto; try discriminate.
  destruct H; discriminate.
Qed.

Lemma some_tag (ts tags0 : list string) :
  existsb (fun tag => includes tags0 tag) ts = true <->
  exists tag, In tag ts /\ In tag tags0.
Proof.
  rewrite existsb_exists. split; intros (tag & H1 & H2); exists tag;
    (split; [assumption | now apply includes_In]).
Qed.

(** The callback of [applyFilters] keeps exactly the tasks that satisfy
    the filter. *)
Lemma keeps_satisfies (f : TaskFilters.t) (task : Task.t) :
  TaskService.keeps f task = true <-> satisfies f task.
Proof.
  unfold TaskService.keeps, satisfies.
  rewrite !if_false_else.
  assert (forall P1 P2 P3 P4 P5 P6 Q1 Q2 Q3 Q4 Q5 Q6 : Prop,
             (P1 <-> Q1) -> (P2 <-> Q2) -> (P3 <-> Q3) -> (P4 <-> Q4) -> (P5 <-> Q5) ->
             (P6 <-> Q6) ->
             (P1 /\ P2 /\ P3 /\ P4 /\ P5 /\ P6 /\ true = true <->
              Q1 /\ Q2 /\ Q3 /\ Q4 /\ Q5 /\ Q6)) as Hconj by (intros; tauto).
  apply Hconj; clear Hconj.
  - destruct (TaskFilters.status f) as [st|].
    + rewrite negb_false_iff, existsb_bool_decide.
      split; [intros H st' [= <-]; assumption | auto].
    + split; [discriminate | reflexivity].
  - destruct (TaskFilters.priority f) as [pr|].
    + rewrite negb_false_iff, existsb_bool_decide.
      split; [intros H pr' [= <-]; assumption | auto].
    + split; [discriminate | reflexivity].
  - destruct (TaskFilters.assignedTo f) as [a|].
    + rewrite andb_false_iff, truthy_false, negb_false_iff, bool_decide_eq_true.
      split.
      * intros [-> | H] a' [= <-] Hne; [now elim Hne | assumption].
      * intros H. destruct (String.eq_dec a "") as [-> | Hne]; [now left | right; auto].
    + split; [discriminate | reflexivity].
  - destruct (TaskFilters.completed f) as [c|].
    + rewrite negb_false_iff, Bool.eqb_true_iff.
      split; [intros H c' [= <-]; assumption | auto].
    + split; [discriminate | reflexivity].
  - destruct (TaskFilters.dateRange f) as [r|].
    + rewrite orb_false_iff.
      split; [intros H r' [= <-]; assumption | auto].
    + split; [discriminate | reflexivity].
  - destruct (TaskFilters.tags f) as [ts|].
    + rewrite andb_false_iff, negb_false_iff, some_tag, Nat.ltb_ge.
      split.
      * intros [Hlen | H] ts' [= <-] Hne; [|assumption].
        destruct ts; [now elim Hne | simpl in Hlen; lia].
      * intros H. destruct ts as [|tag ts]; [left; simpl; lia |].
        right. apply H; [reflexivity | discriminate].
    + split; [discriminate | reflexivity].
Qed.

Lemma pageTasks_filtered (this : TaskService.t) (f : TaskFilters.t) (now : Z) :
  pageTasks (TaskService.getAll (Some f) None now this) =
  List.filter (TaskService.keeps f) (TaskService.tasks this).
Proof. reflexivity. Qed.

(** C6, counterexample.  Under the filter [{ tags: [] }] every task is in
    the result, though none has a tag in the empty list. *)
Lemma empty_tags_filter_keeps_all :
  exists task : Task.t,
    In task (pageTasks (TaskService.getAll (Some emptyTagsFilter) None 9 threeTasks)) /\
    ~ spec_satisfies emptyTagsFilter task.
Proof.
  destruct (TaskService.tasks threeTasks) as [|task rest] eqn:E;
    [vm_compute in E; discriminate |].
  exists task. split.
  - rewrite pageTasks_filtered, E. simpl. now left.
  - intros (_ & _ & _ & _ & _ & H).
    destruct (H [] eq_refl) as (tag & [] & _).
Qed.

(** C6, amended.  A task is in the result of a filtered query exactly when
    it is in the collection and satisfies every property the filter
    provides: its status is one of the given statuses, its priority one of
    the given priorities, its assignee the given assignee when that is not
    the empty string, its completed flag the given flag, its creation date
    neither before the start nor after the end of the range, and one of its
    tags among the requested tags when that list is not empty.  An empty
    assignee and an empty tag list count as not provided. *)
Theorem getAll_filters (this : TaskService.t) (f : TaskFilters.t) (now : Z) (task : Task.t) :
  In task (pageTasks (TaskService.getAll (Some f) None now this)) <->
  In task (TaskService.tasks this) /\ satisfies f task.
Proof.
  rewrite pageTasks_filtered, filter_In, keeps_satisfies. reflexivity.
Qed.

(** Between valid instants the range test is the closed interval. *)
Lemma in_range_instants (c s e : Z) :
  date_lt (Instant c) (Instant s) = false /\ date_gt (Instant c) (Instant e) = false <->
  (s <= c <= e)%Z.
Proof. unfold date_gt. simpl. rewrite !Z.ltb_ge. tauto. Qed.

(** Without a sort key the result keeps the order of the collection: of
    three tasks of priorities HIGH, MEDIUM and LOW, the filter
    [{ priority: [HIGH, MEDIUM] }] returns the first two. *)
Lemma filter_high_or_medium :
  pageTasks (TaskService.getAll (Some highOrMedium) None 9 threeTasks) =
  take 2 (TaskService.tasks threeTasks).
Proof. vm_compute. reflexivity. Qed.

(** ** Sorting *)

(** The insertion sort, for a comparator that is derived from a strict
    order [lt] which is asymmetric and, on the elements that satisfy [P],
    negatively transitive. *)
Section Sort.
Context {A : Type}.
Variable compareFn : A -> A -> Z.
Variable lt : A -> A -> bool.
Variable P : A -> Prop.

Hypothesis compare_lt :
  forall x y, compareFn x y = (if lt x y then -1 else if lt y x then 1 else 0)%Z.
Hypothesis lt_asym : forall x y, lt x y = true -> lt y x = false.
Hypothesis lt_negtrans :
  forall x y z, P y -> lt x z = true -> lt x y = true \/ lt y z = true.

Let le (x y : A) : Prop := (compareFn x y <= 0)%Z.

Lemma le_not_lt (x y : A) : le x y <-> lt y x = false.
Proof using compare_lt lt_asym.
  unfold le. rewrite compare_lt.
  destruct (lt x y) eqn:E1.
  - apply lt_asym in E1. rewrite E1. split; [reflexivity | lia].
  - destruct (lt y x); split; intros H; try reflexivity; try lia; discriminate.
Qed.

Lemma compare_zero (x y : A) : compareFn x y = 0%Z <-> lt x y = false /\ lt y x = false.
Proof using compare_lt.
  rewrite compare_lt. destruct (lt x y), (lt y x); split; intros H;
    try lia; try tauto; destruct H; discriminate.
Qed.

Lemma le_total (x y : A) : ~ le x y -> le y x.
Proof using compare_lt lt_asym.
  rewrite !le_not_lt. intros H. destruct (lt y x) eqn:E; [|tauto].
  now apply lt_asym.
Qed.

Lemma le_trans (x y z : A) : P y -> le x y -> le y z -> le x z.
Proof using compare_lt lt_asym lt_negtrans.
  rewrite !le_not_lt. intros Py Hxy Hyz.
  destruct (lt z x) eqn:E; [|reflexivity].
  destruct (lt_negtrans z y x Py E); congruence.
Qed.

Lemma sortInsert_perm (x : A) (l : list A) :
  Permutation (x :: l) (sortInsert compareFn x l).
Proof using Type.
  induction l as [|y l IH]; simpl; [reflexivity |].
  destruct (compareFn x y <=? 0)%Z; [reflexivity |].
  rewrite perm_swap. now apply perm_skip.
Qed.

Lemma sort_perm (l : list A) : Permutation l (sort compareFn l).
Proof using Type.
  induction l as [|x l IH]; simpl; [reflexivity |].
  rewrite <- sortInsert_perm. now apply perm_skip.
Qed.

Lemma sort_Forall (Q : A -> Prop) (l : list A) : Forall Q l -> Forall Q (sort compareFn l).
Proof using Type.
  intros H. apply List.Forall_forall. intros x Hx. rewrite List.Forall_forall in H.
  apply H. eapply Permutation_in; [symmetry; apply sort_perm | exact Hx].
Qed.

Lemma sortInsert_sorted (x : A) (l : list A) :
  P x -> Forall P l -> StronglySorted le l -> StronglySorted le (sortInsert compareFn x l).
Proof using compare_lt lt_asym lt_negtrans.
  intros Px. induction l as [|y l IH]; intros HP Hs; simpl.
  - constructor; constructor.
  - inversion Hs as [|? ? Hs' Hy]; subst.
    inversion HP as [|? ? Py HP']; subst.
    destruct (compareFn x y <=? 0)%Z eqn:E.
    + apply Z.leb_le in E. constructor; [assumption |].
      constructor; [exact E |].
      rewrite List.Forall_forall in *. intros z Hz.
      apply (le_trans x y z); auto.
    + apply Z.leb_gt in E.
      assert (le y x) as Hyx by (apply le_total; unfold le; lia).
      constructor; [now apply IH |].
      apply List.Forall_forall. intros z Hz.
      apply (Permutation_in _ (Permutation_sym (sortInsert_perm x l))) in Hz.
      destruct Hz as [<- | Hz]; [assumption |].
      rewrite List.Forall_forall in Hy. now apply Hy.
Qed.

Lemma sort_sorted (l : list A) : Forall P l -> StronglySorted le (sort compareFn l).
Proof using compare_lt lt_asym lt_negtrans.
  induction l as [|x l IH]; intros HP; simpl; [constructor |].
  inversion HP; subst.
  apply sortInsert_sorted; [assumption | now apply sort_Forall | now apply IH].
Qed.

(** Sorting leaves a sorted array as it is. *)
Lemma sort_of_sorted (l : list A) : StronglySorted le l -> sort compareFn l = l.
Proof using Type.
  induction 1 as [|x l Hs IH Hx]; simpl; [reflexivity |].
  rewrite IH. destruct l as [|y l]; [reflexivity |].
  simpl. inversion Hx as [|? ? Hxy _]; subst.
  unfold le in Hxy. apply Z.leb_le in Hxy. now rewrite Hxy.
Qed.

Lemma sort_idempotent (l : list A) :
  Forall P l -> sort compareFn (sort compareFn l) = sort compareFn l.
Proof using compare_lt lt_asym lt_negtrans.
  intros HP. apply sort_of_sorted. now apply sort_sorted.
Qed.

Lemma sortInsert_stable (x a : A) (l : list A) :
  P x ->
  List.filter (fun y => (compareFn x y =? 0)%Z) (sortInsert compareFn a l) =
  List.filter (fun y => (compareFn x y =? 0)%Z) (a :: l).
Proof using compare_lt lt_asym lt_negtrans.
  intros Px. induction l as [|y l IH]; [reflexivity |].
  cbn [sortInsert]. destruct (compareFn a y <=? 0)%Z eqn:E; [reflexivity |].
  cbn [List.filter]. rewrite IH. cbn [List.filter].
  destruct (compareFn x y =? 0)%Z eqn:Ey; [|reflexivity].
  destruct (compareFn x a =? 0)%Z eqn:Ea; [|reflexivity].
  exfalso. apply Z.leb_gt in E. apply Z.eqb_eq in Ey, Ea.
  apply compare_zero in Ey as [_ Hyx], Ea as [Hxa _].
  assert (le a y) as Hle; [|unfold le in Hle; lia].
  apply le_not_lt. destruct (lt y a) eqn:Hya; [|reflexivity].
  destruct (lt_negtrans y x a Px Hya); congruence.
Qed.

(** Sorting is stable: the tasks whose key equals that of [x] stand in
    the order they had. *)
Lemma sort_stable (x : A) (l : list A) :
  P x ->
  List.filter (fun y => (compareFn x y =? 0)%Z) (sort compareFn l) =
  List.filter (fun y => (compareFn x y =? 0)%Z) l.
Proof using compare_lt lt_asym lt_negtrans.
  intros Px. induction l as [|a l IH]; [reflexivity |].
  cbn [sort]. rewrite sortInsert_stable by assumption.
  cbn [List.filter]. now rewrite IH.
Qed.

(** In a sorted array an element that is strictly above another does not
    stand before it. *)
Lemma sorted_positions (l : list A) (i j : nat) (a b : A) :
  StronglySorted le l -> l !! i = Some a -> l !! j = Some b ->
  lt b a = true -> (j < i)%nat.
Proof using compare_lt lt_asym.
  intros Hs. revert i j. induction Hs as [|x l Hs IH Hx]; intros i j Hi Hj Hlt.
  - discriminate.
  - destruct i as [|i], j as [|j]; simpl in Hi, Hj.
    + injection Hi as ->. injection Hj as ->.
      rewrite (lt_asym _ _ Hlt) in Hlt. discriminate.
    + injection Hi as ->. rewrite List.Forall_forall in Hx.
      assert (le a b) as Hle by (apply Hx; eapply list_elem_of_In, list_elem_of_lookup_2; eauto).
      apply le_not_lt in Hle. congruence.
    + lia.
    + specialize (IH i j Hi Hj Hlt). lia.
Qed.

End Sort.

Lemma ltb_leb (x y : string) : String.ltb x y = negb (String.leb y x).
Proof.
  unfold String.ltb, String.leb. rewrite (String.compare_antisym x y).
  destruct (String.compare y x); reflexivity.
Qed.

Lemma leb_trans (x y z : string) :
  String.leb x y = true -> String.leb y z = true -> String.leb x z = true.
Proof.
  intros H1 H2. apply Is_true_true.
  change (String.le x z). transitivity y; apply Is_true_true; assumption.
Qed.

Lemma ltb_asym (x y : string) : String.ltb x y = true -> String.ltb y x = false.
Proof.
  rewrite !ltb_leb, negb_true_iff, negb_false_iff. intros H.
  destruct (String.leb_total x y) as [E | E]; congruence.
Qed.

Lemma ltb_negtrans (x y z : string) :
  String.ltb x z = true -> String.ltb x y = true \/ String.ltb y z = true.
Proof.
  rewrite !ltb_leb, !negb_true_iff. intros H.
  destruct (String.leb y x) eqn:E1; [|now left].
  destruct (String.leb z y) eqn:E2; [|now right].
  rewrite (leb_trans z y x E2 E1) in H. discriminate.
Qed.

Lemma prim_lt_asym (p q : Primitive) : prim_lt p q = true -> prim_lt q p = false.
Proof.
  destruct p as [x | [x|]], q as [y | [y|]]; simpl; try reflexivity; try discriminate.
  - apply ltb_asym.
  - rewrite Z.ltb_lt, Z.ltb_ge. lia.
Qed.

Lemma prim_lt_negtrans (p q r : Primitive) :
  isPString q = isPString p -> q <> PNumber None ->
  prim_lt p r = true -> prim_lt p q = true \/ prim_lt q r = true.
Proof.
  destruct p as [x | [x|]], q as [y | [y|]], r as [z | [z|]]; simpl;
    intros Hk Hq H; try discriminate; try congruence.
  - now apply ltb_negtrans.
  - rewrite !Z.ltb_lt in *. lia.
Qed.

Lemma js_lt_prim (a b : PropertyValue) :
  js_lt a b = prim_lt (toComparable a) (toComparable b).
Proof. reflexivity. Qed.

(** Both operands of a comparison are of the kind of the key. *)
Lemma property_kind (key : TaskKey) (task : Task.t) (v : PropertyValue) :
  TaskService.property key task = Some v -> isPString (toComparable v) = stringKey key.
Proof.
  destruct key; simpl; intros H;
    try (injection H as <-; simpl; try reflexivity);
    try (destruct (Task.description task); [injection H as <-; reflexivity | discriminate]);
    try (destruct (Task.assignedTo task); [injection H as <-; reflexivity | discriminate]).
  - destruct (Task.createdAt task); reflexivity.
  - destruct (Task.updatedAt task); reflexivity.
  - destruct (Task.dueDate task) as [[ms|]|]; [injection H as <-.. | discriminate]; reflexivity.
Qed.

Lemma comparable_value (key : TaskKey) (task : Task.t) (v : PropertyValue) :
  comparable key task -> TaskService.property key task = Some v ->
  toComparable v <> PNumber None.
Proof.
  unfold comparable. intros Hc Hv. rewrite Hv in Hc.
  destruct v as [s | b | [ms|] | items]; simpl; try discriminate.
  now elim Hc.
Qed.

Section CompareFn.
Variable key : TaskKey.
Variable order : SortOrder.

Let lt (a b : Task.t) : bool :=
  key_lt order (TaskService.property key a) (TaskService.property key b).

Lemma compareFn_lt (a b : Task.t) :
  TaskService.compareFn key order a b =
  (if lt a b then -1 else if lt b a then 1 else 0)%Z.
Proof using Type.
  unfold TaskService.compareFn, lt, key_lt, js_gt. cbv zeta.
  destruct (TaskService.property key a) as [av|], (TaskService.property key b) as [bv|],
    order; try reflexivity.
  destruct (js_lt av bv) eqn:E1.
  - rewrite js_lt_prim in *. rewrite (prim_lt_asym _ _ E1). reflexivity.
  - destruct (js_lt bv av); reflexivity.
Qed.

Lemma key_lt_asym (a b : Task.t) : lt a b = true -> lt b a = false.
Proof using Type.
  unfold lt, key_lt.
  destruct (TaskService.property key a) as [av|], (TaskService.property key b) as [bv|],
    order; try reflexivity; try discriminate;
    rewrite !js_lt_prim; apply prim_lt_asym.
Qed.

Lemma key_lt_negtrans (a b c : Task.t) :
  comparable key b -> lt a c = true -> lt a b = true \/ lt b c = true.
Proof using Type.
  unfold lt, key_lt. intros Hb.
  destruct (TaskService.property key a) as [av|] eqn:Ea,
           (TaskService.property key b) as [bv|] eqn:Eb,
           (TaskService.property key c) as [cv|] eqn:Ec,
           order; try discriminate; auto;
    rewrite !js_lt_prim; intros H.
  - apply prim_lt_negtrans; [|eapply comparable_value; eauto | assumption].
    rewrite (property_kind _ _ _ Ea), (property_kind _ _ _ Eb). reflexivity.
  - destruct (prim_lt_negtrans (toComparable cv) (toComparable bv) (toComparable av));
      [|eapply comparable_value; eauto | assumption | auto | auto].
    rewrite (property_kind _ _ _ Ec), (property_kind _ _ _ Eb). reflexivity.
Qed.

End CompareFn.

(** C4, counterexample.  Two tasks are created, the first with a due date
    and the second without, and listed by due date in descending order:
    the task without due date comes first; it is not after the task that
    has the key. *)
Lemma descending_puts_missing_first :
  map Task.id (pageTasks (TaskService.getAll None (Some byDueDateDescending) 9 oneDueOneNot))
    = ["task_2"; "task_1"] /\
  ~ missing_last K_dueDate
      (pageTasks (TaskService.getAll None (Some byDueDateDescending) 9 oneDueOneNot)).
Proof.
  split; [vm_compute; reflexivity |].
  intros H.
  destruct (pageTasks (TaskService.getAll None (Some byDueDateDescending) 9 oneDueOneNot))
    as [|a [|b rest]] eqn:E; try (vm_compute in E; discriminate).
  assert (TaskService.property K_dueDate a = None /\
          TaskService.property K_dueDate b <> None) as [Ha Hb].
  { vm_compute in E. injection E as <- <- _. split; [reflexivity | discriminate]. }
  specialize (H 0%nat 1%nat a b eq_refl eq_refl Ha Hb). lia.
Qed.

(** C4, amended.  For every sort key and direction, on tasks whose key can
    be ordered, sorting arranges the same tasks in comparator order, is
    stable (the tasks whose key equals that of a given task keep their
    relative order) and gives the same array when applied twice.  In
    ascending order every task without the key stands after all tasks that
    have it; in descending order every task without the key stands before
    all tasks that have it. *)
Theorem applySorting_stable (key : TaskKey) (order : SortOrder) (l : list Task.t) :
  Forall (comparable key) l ->
  Permutation l (TaskService.applySorting l key order) /\
  in_order key order (TaskService.applySorting l key order) /\
  (forall x : Task.t,
      comparable key x ->
      List.filter (equal_keys key order x) (TaskService.applySorting l key order) =
      List.filter (equal_keys key order x) l) /\
  TaskService.applySorting (TaskService.applySorting l key order) key order =
    TaskService.applySorting l key order /\
  (order = asc -> missing_last key (TaskService.applySorting l key order)) /\
  (order = desc -> missing_first key (TaskService.applySorting l key order)).
Proof.
  intros Hl. unfold TaskService.applySorting.
  pose proof (compareFn_lt key order) as Hc.
  pose proof (key_lt_asym key order) as Ha.
  pose proof (key_lt_negtrans key order) as Hn.
  assert (in_order key order (sort (TaskService.compareFn key order) l)) as Hs
    by (eapply sort_sorted; eauto).
  repeat split.
  - apply sort_perm.
  - exact Hs.
  - intros x Hx. eapply sort_stable; eauto.
  - eapply sort_idempotent; eauto.
  - intros -> i j a b Hi Hj Hmissing Hhas.
    eapply (sorted_positions _ _ Hc Ha); eauto.
    simpl. rewrite Hmissing.
    destruct (TaskService.property key b); [reflexivity | now elim Hhas].
  - intros -> i j a b Hi Hj Hmissing Hhas.
    eapply (sorted_positions _ _ Hc Ha); eauto.
    simpl. rewrite Hmissing.
    destruct (TaskService.property key b); [reflexivity | now elim Hhas].
Qed.

(** Three tasks sorted by due date, ascending. *)
Lemma applySorting_stable_witness :
  let l := [dueTask "task_1" None; dueTask "task_2" (Some (Instant 7));
            dueTask "task_3" (Some (Instant 5))] in
  Permutation l (TaskService.applySorting l K_dueDate asc) /\
  in_order K_dueDate asc (TaskService.applySorting l K_dueDate asc) /\
  (forall x : Task.t,
      comparable K_dueDate x ->
      List.filter (equal_keys K_dueDate asc x) (TaskService.applySorting l K_dueDate asc) =
      List.filter (equal_keys K_dueDate asc x) l) /\
  TaskService.applySorting (TaskService.applySorting l K_dueDate asc) K_dueDate asc =
    TaskService.applySorting l K_dueDate asc /\
  (asc = asc -> missing_last K_dueDate (TaskService.applySorting l K_dueDate asc)) /\
  (asc = desc -> missing_first K_dueDate (TaskService.applySorting l K_dueDate asc)).
Proof.
  apply applySorting_stable.
  repeat constructor; discriminate.
Defined.

(** ** Arrays of entities *)

Lemma findIndex_lookup {A : Type} (p : A -> bool) (l : list A) (i : nat) :
  findIndex p l = Some i -> exists x, l !! i = Some x /\ p x = true.
Proof.
  revert i. induction l as [|y l IH]; intros i; simpl; [discriminate |].
  destruct (p y) eqn:E.
  - intros [= <-]. exists y. auto.
  - destruct (findIndex p l) as [k|]; simpl; [|discriminate].
    intros [= <-]. simpl. now apply IH.
Qed.

Lemma findIndex_find {A : Type} (p : A -> bool) (l : list A) (x : A) :
  find p l = Some x -> exists i, findIndex p l = Some i /\ l !! i = Some x.
Proof.
  induction l as [|y l IH]; simpl; [discriminate |].
  destruct (p y) eqn:E.
  - intros [= <-]. exists 0%nat. auto.
  - intros H. destruct (IH H) as (i & Hi & Hx). exists (S i). rewrite Hi. auto.
Qed.

(** Replacing the first element that passes [p] by one that passes [p]
    makes the replacement the first that passes. *)
Lemma find_insert {A : Type} (p : A -> bool) (l : list A) (i : nat) (x : A) :
  findIndex p l = Some i -> p x = true -> find p (<[i := x]> l) = Some x.
Proof.
  revert i. induction l as [|y l IH]; intros i; simpl; [discriminate |].
  destruct (p y) eqn:E.
  - intros [= <-] Hx. simpl. now rewrite Hx.
  - destruct (findIndex p l) as [k|]; simpl; [|discriminate].
    intros [= <-] Hx. simpl. rewrite E. now apply IH.
Qed.

(** ** [TaskService.update] *)

Lemma applyUpdates_id (updates : PartialITask.t) (now : Z) (task : Task.t) :
  Task.id (TaskService.applyUpdates updates now task) = Task.id task.
Proof.
  unfold TaskService.applyUpdates, Task.assignIfDefined.
  destruct (PartialITask.title updates), (PartialITask.description updates),
    (PartialITask.priority updates), (PartialITask.assignedTo updates),
    (PartialITask.dueDate updates), (PartialITask.tags updates),
    (PartialITask.status updates); reflexivity.
Qed.

Lemma applyUpdates_completed (updates : PartialITask.t) (now : Z) (task : Task.t) :
  Task.completed (TaskService.applyUpdates updates now task) = Task.completed task.
Proof.
  unfold TaskService.applyUpdates, Task.assignIfDefined.
  destruct (PartialITask.title updates), (PartialITask.description updates),
    (PartialITask.priority updates), (PartialITask.assignedTo updates),
    (PartialITask.dueDate updates), (PartialITask.tags updates),
    (PartialITask.status updates); reflexivity.
Qed.

Lemma applyUpdates_status (updates : PartialITask.t) (now : Z) (task : Task.t) :
  Task.status (TaskService.applyUpdates updates now task) =
  default (Task.status task) (PartialITask.status updates).
Proof.
  unfold TaskService.applyUpdates, Task.assignIfDefined.
  destruct (PartialITask.title updates), (PartialITask.description updates),
    (PartialITask.priority updates), (PartialITask.assignedTo updates),
    (PartialITask.dueDate updates), (PartialITask.tags updates),
    (PartialITask.status updates); reflexivity.
Qed.

Lemma applyUpdates_updatedAt (updates : PartialITask.t) (now : Z) (task : Task.t) :
  Task.updatedAt (TaskService.applyUpdates updates now task) = Instant now.
Proof. reflexivity. Qed.

Lemma applyUpdates_carries (updates : PartialITask.t) (now : Z) (task : Task.t) :
  carries updates (TaskService.applyUpdates updates now task).
Proof.
  unfold carries, TaskService.applyUpdates, Task.assignIfDefined.
  destruct (PartialITask.title updates), (PartialITask.description updates),
    (PartialITask.priority updates), (PartialITask.assignedTo updates),
    (PartialITask.dueDate updates), (PartialITask.tags updates),
    (PartialITask.status updates); simpl;
    repeat split; intros v [= <-]; reflexivity.
Qed.

(** What [update] does to a task it finds. *)
Lemma update_found (id : string) (updates : PartialITask.t) (now : Z)
    (this : TaskService.t) (task : Task.t) :
  stored id this = Some task ->
  let task' := TaskService.applyUpdates updates now task in
  stored id (snd (TaskService.update id updates now this)) = Some task' /\
  fst (TaskService.update id updates now this) =
    if isValid (Task.validate task') then ok task' now
    else failure (TaskService.validationFailed (Task.validate task')) now.
Proof.
  intros Hfind. cbv zeta. set (task' := TaskService.applyUpdates updates now task).
  unfold stored in *.
  destruct (findIndex_find _ _ _ Hfind) as (i & Hi & Hx).
  unfold TaskService.update. rewrite Hi, Hx. fold task'.
  assert (find (fun t0 => String.eqb (Task.id t0) id) (<[i := task']> (TaskService.tasks this))
          = Some task') as Hstored.
  { apply find_insert; [assumption |].
    unfold task'. rewrite applyUpdates_id.
    destruct (findIndex_lookup _ _ _ Hi) as (x & Hx' & Hp). congruence. }
  destruct (isValid (Task.validate task')); simpl; auto.
Qed.

(** C10.  When the identifier is that of a task of the collection and the
    updates make that task invalid, [update] answers without success, and
    the task of the collection is the updated one all the same: it holds
    every value the update provides and its last-update date is the
    instant of the call. *)
Theorem update_not_rolled_back (id : string) (updates : PartialITask.t) (now : Z)
    (this : TaskService.t) (task : Task.t) :
  stored id this = Some task ->
  isValid (Task.validate (TaskService.applyUpdates updates now task)) = false ->
  success (fst (TaskService.update id updates now this)) = false /\
  exists task' : Task.t,
    stored id (snd (TaskService.update id updates now this)) = Some task' /\
    task' = TaskService.applyUpdates updates now task /\
    carries updates task' /\
    Task.updatedAt task' = Instant now.
Proof.
  intros Hfind Hinvalid.
  destruct (update_found id updates now this task Hfind) as [Hstored Hresponse].
  rewrite Hresponse, Hinvalid. split; [reflexivity |].
  exists (TaskService.applyUpdates updates now task).
  repeat split; try assumption; apply applyUpdates_carries.
Qed.

(** An empty title for the first of three tasks. *)
Lemma update_not_rolled_back_witness :
  success (fst (TaskService.update "task_1" (titleUpdate "") 9 threeTasks)) = false /\
  exists task' : Task.t,
    stored "task_1" (snd (TaskService.update "task_1" (titleUpdate "") 9 threeTasks))
      = Some task' /\
    task' = TaskService.applyUpdates (titleUpdate "") 9
              (Task.constructor (plainTask "Set up" HIGH) "task_1" 1) /\
    carries (titleUpdate "") task' /\
    Task.updatedAt task' = Instant 9.
Proof.
  apply (update_not_rolled_back "task_1" (titleUpdate "") 9 threeTasks
           (Task.constructor (plainTask "Set up" HIGH) "task_1" 1));
    vm_compute; reflexivity.
Defined.

(** ** The completed flag and the status *)

(** Case analysis on the condition of the outermost conditional. *)
Ltac case_if :=
  match goal with
  | |- context [if ?b then _ else _] => destruct b eqn:?
  end.

Lemma agrees_same (t t' : Task.t) :
  Task.status t' = Task.status t -> Task.completed t' = Task.completed t ->
  agrees t -> agrees t'.
Proof. unfold agrees. intros -> ->. tauto. Qed.

Lemma constructor_agrees (input : CreateTaskInput.t) (id : string) (now : Z) :
  agrees (Task.constructor input id now).
Proof. unfold agrees. simpl. split; discriminate. Qed.

Lemma markComplete_agrees (now : Z) (t : Task.t) : agrees (Task.markComplete now t).
Proof. unfold agrees. simpl. tauto. Qed.

Lemma markIncomplete_agrees (now : Z) (t : Task.t) : agrees (Task.markIncomplete now t).
Proof. unfold agrees. simpl. split; discriminate. Qed.

Lemma Task_update_agrees (updates : UpdateTaskInput.t) (now : Z) (t : Task.t) :
  agrees t -> agrees (Task.update updates now t).
Proof.
  apply agrees_same; unfold Task.update, Task.assignIfDefined;
    destruct (UpdateTaskInput.title updates), (UpdateTaskInput.description updates),
      (UpdateTaskInput.priority updates), (UpdateTaskInput.assignedTo updates),
      (UpdateTaskInput.dueDate updates), (UpdateTaskInput.tags updates); reflexivity.
Qed.

Lemma addTag_agrees (tag : string) (now : Z) (t : Task.t) :
  agrees t -> agrees (Task.addTag tag now t).
Proof.
  unfold Task.addTag. destruct (negb (includes (Task.tags t) tag)); [|auto].
  apply agrees_same; reflexivity.
Qed.

Lemma removeTag_agrees (tag : string) (now : Z) (t : Task.t) :
  agrees t -> agrees (Task.removeTag tag now t).
Proof.
  unfold Task.removeTag. destruct (findIndex (String.eqb tag) (Task.tags t)); [|auto].
  apply agrees_same; reflexivity.
Qed.

Lemma create_agrees (input : CreateTaskInput.t) (now : Z) (this : TaskService.t) :
  Forall agrees (TaskService.tasks this) ->
  Forall agrees (TaskService.tasks (snd (TaskService.create input now this))).
Proof.
  intros H. unfold TaskService.create. simpl.
  case_if; simpl; [assumption |].
  unfold push. apply Forall_app. split; [assumption |].
  constructor; [apply constructor_agrees | constructor].
Qed.

Lemma service_markComplete_agrees (id : string) (now : Z) (this : TaskService.t) :
  Forall agrees (TaskService.tasks this) ->
  Forall agrees (TaskService.tasks (snd (TaskService.markComplete id now this))).
Proof.
  intros H. unfold TaskService.markComplete.
  destruct (findIndex _ _) as [i|]; [|assumption].
  destruct (TaskService.tasks this !! i) as [task|]; [|assumption].
  simpl. apply Forall_insert; [assumption | apply markComplete_agrees].
Qed.

Lemma delete_agrees (id : string) (now : Z) (this : TaskService.t) :
  Forall agrees (TaskService.tasks this) ->
  Forall agrees (TaskService.tasks (snd (TaskService.delete id now this))).
Proof.
  intros H. unfold TaskService.delete.
  destruct (findIndex _ _) as [i|]; [|assumption].
  simpl. now apply Forall_delete.
Qed.

(** [update] keeps the agreement when it is given no status. *)
Lemma update_without_status_agrees (id : string) (updates : PartialITask.t) (now : Z)
    (this : TaskService.t) :
  PartialITask.status updates = None ->
  Forall agrees (TaskService.tasks this) ->
  Forall agrees (TaskService.tasks (snd (TaskService.update id updates now this))).
Proof.
  intros Hs H. unfold TaskService.update.
  destruct (findIndex _ _) as [i|]; [|assumption].
  destruct (TaskService.tasks this !! i) as [task|] eqn:E; [|assumption].
  assert (Forall agrees (<[i := TaskService.applyUpdates updates now task]>
                           (TaskService.tasks this))) as H'.
  { apply Forall_insert; [assumption |].
    apply (agrees_same task).
    - rewrite applyUpdates_status, Hs. reflexivity.
    - apply applyUpdates_completed.
    - eapply Forall_lookup_1; eauto. }
  case_if; exact H'.
Qed.

(** [update] with the status DONE leaves an open task with the status DONE
    and the completed flag false, whatever the answer. *)
Lemma update_done_keeps_flag (id : string) (now : Z) (this : TaskService.t) (task : Task.t) :
  stored id this = Some task -> Task.completed task = false ->
  exists task' : Task.t,
    stored id (snd (TaskService.update id (statusUpdate DONE) now this)) = Some task' /\
    Task.status task' = DONE /\ Task.completed task' = false.
Proof.
  intros Hfind Hopen.
  destruct (update_found id (statusUpdate DONE) now this task Hfind) as [Hstored _].
  eexists. split; [exact Hstored |].
  rewrite applyUpdates_status, applyUpdates_completed. auto.
Qed.

Lemma callMethod_agrees (m : TaskMethod) (now : Z) (task : Task.t) :
  agrees task -> agrees (callMethod m now task).
Proof.
  destruct m; simpl; intros H.
  - apply markComplete_agrees.
  - apply markIncomplete_agrees.
  - now apply Task_update_agrees.
  - now apply addTag_agrees.
  - now apply removeTag_agrees.
Qed.

Lemma runTaskCall_agrees (call : TaskCall) (now : Z) (this : TaskService.t) :
  providesStatus call = false ->
  Forall agrees (TaskService.tasks this) ->
  Forall agrees (TaskService.tasks (runTaskCall call now this)).
Proof.
  destruct call as [taskData | id updates | id | id | | index m]; simpl; intros Hs H.
  - now apply create_agrees.
  - apply update_without_status_agrees; [|assumption].
    destruct (PartialITask.status updates); [discriminate | reflexivity].
  - now apply delete_agrees.
  - now apply service_markComplete_agrees.
  - constructor.
  - destruct (TaskService.tasks this !! index) as [task|] eqn:E; [|assumption].
    simpl. apply Forall_insert; [assumption |].
    apply callMethod_agrees. eapply Forall_lookup_1; eauto.
Qed.

(** Whatever the history of a task service, as long as no [update]
    provided a status, the completed flag of every task of the collection
    agrees with its status. *)
Lemma agreement_without_status_updates (calls : list (TaskCall * Z)) :
  Forall (fun c => providesStatus (fst c) = false) calls ->
  Forall agrees (TaskService.tasks (runTaskCalls calls TaskService.init)).
Proof.
  assert (forall this,
             Forall (fun c => providesStatus (fst c) = false) calls ->
             Forall agrees (TaskService.tasks this) ->
             Forall agrees (TaskService.tasks (runTaskCalls calls this))) as Hgen.
  { induction calls as [|[call now] calls IH]; intros this Hc H; simpl; [assumption |].
    inversion Hc; subst. apply IH; [assumption |].
    now apply runTaskCall_agrees. }
  intros Hc. apply Hgen; [assumption | constructor].
Qed.

(** C1.  The code breaks the agreement.  The first of three tasks created
    through [create], all of which agree, is given the status DONE through
    [update]: the call succeeds and the task of the collection has the
    status DONE and the completed flag false. *)
Theorem update_status_breaks_agreement :
  Forall agrees (TaskService.tasks threeTasks) /\
  success (fst (TaskService.update "task_1" (statusUpdate DONE) 9 threeTasks)) = true /\
  exists task : Task.t,
    stored "task_1" (snd (TaskService.update "task_1" (statusUpdate DONE) 9 threeTasks))
      = Some task /\
    Task.status task = DONE /\ Task.completed task = false /\ ~ agrees task.
Proof.
  split; [|split].
  - unfold threeTasks. cbv zeta. repeat apply create_agrees. constructor.
  - vm_compute. reflexivity.
  - destruct (update_done_keeps_flag "task_1" 9 threeTasks
                (Task.constructor (plainTask "Set up" HIGH) "task_1" 1))
      as (task & Hs & Hd & Hc); [vm_compute; reflexivity | reflexivity |].
    exists task. repeat split; try assumption.
    unfold agrees. intros [_ H]. rewrite (H Hd) in Hc. discriminate.
Qed.

(** ** The administrators *)

Lemma adminCount_app (l1 l2 : list User.t) :
  adminCount (l1 ++ l2) = (adminCount l1 + adminCount l2)%nat.
Proof. unfold adminCount. now rewrite List.filter_app, length_app. Qed.

Lemma adminCount_insert (l : list User.t) (i : nat) (u u' : User.t) :
  l !! i = Some u -> User.role u' = User.role u ->
  adminCount (<[i := u']> l) = adminCount l.
Proof.
  revert i. induction l as [|x l IH]; intros [|i]; simpl; try discriminate.
  - intros [= ->] Hr. unfold adminCount. cbn [List.filter]. rewrite Hr.
    destruct (bool_decide (User.role u = ADMIN)); reflexivity.
  - intros Hi Hr. unfold adminCount in *. cbn [List.filter].
    destruct (bool_decide (User.role x = ADMIN)); cbn [length]; now rewrite (IH i).
Qed.

Lemma adminCount_delete (l : list User.t) (i : nat) (u : User.t) :
  l !! i = Some u ->
  adminCount l =
  (adminCount (base.delete i l) + if bool_decide (User.role u = ADMIN) then 1 else 0)%nat.
Proof.
  revert i. induction l as [|x l IH]; intros [|i]; simpl; try discriminate.
  - intros [= ->]. unfold adminCount. cbn [List.filter].
    destruct (bool_decide (User.role u = ADMIN)); cbn [length]; lia.
  - intros Hi. unfold adminCount in *. cbn [List.filter].
    destruct (bool_decide (User.role x = ADMIN)); cbn [length]; rewrite (IH i Hi); lia.
Qed.

Lemma constructor_hasAdmin (now : Z) : hasAdmin (UserService.constructor now).
Proof. unfold hasAdmin. vm_compute. lia. Qed.

Lemma create_hasAdmin (userData : CreateUserInput.t) (createdBy : option User.t) (now : Z)
    (this : UserService.t) :
  hasAdmin this -> hasAdmin (snd (UserService.create userData createdBy now this)).
Proof.
  unfold hasAdmin, UserService.create. intros H.
  case_if; [assumption |].
  destruct (find _ _); [assumption |]. simpl.
  case_if; simpl; [assumption |].
  unfold push. rewrite adminCount_app. lia.
Qed.

Lemma delete_hasAdmin (id : string) (deletedBy : option User.t) (now : Z)
    (this : UserService.t) :
  hasAdmin this -> hasAdmin (snd (UserService.delete id deletedBy now this)).
Proof.
  unfold hasAdmin, UserService.delete. intros H.
  destruct (findIndex _ _) as [i|]; [|assumption].
  destruct (UserService.users this !! i) as [u|] eqn:E; [|assumption].
  case_if; [assumption |].
  pose proof (adminCount_delete _ _ _ E) as Hc. fold (adminCount (UserService.users this)).
  destruct (bool_decide (User.role u = ADMIN)); simpl.
  - destruct (adminCount (UserService.users this) <=? 1)%nat eqn:E1; simpl; [assumption |].
    apply Nat.leb_gt in E1. lia.
  - lia.
Qed.

Lemma authenticate_hasAdmin (email password : string) (now : Z) (this : UserService.t) :
  hasAdmin this -> hasAdmin (snd (UserService.authenticate email password now this)).
Proof.
  unfold hasAdmin, UserService.authenticate. intros H.
  destruct (findIndex _ _) as [i|]; [|assumption].
  destruct (UserService.users this !! i) as [u|] eqn:E; [|assumption].
  destruct (negb (User.isActive u)); [assumption |].
  destruct (User.isLocked u); [assumption |]. simpl.
  now rewrite (adminCount_insert _ _ u).
Qed.

Lemma clear_hasAdmin (this : UserService.t) :
  hasAdmin this -> hasAdmin (UserService.clear this).
Proof.
  unfold hasAdmin, UserService.clear, adminCount. intros H.
  destruct (find _ _) as [admin|] eqn:E.
  - apply find_some in E as [_ E]. simpl. rewrite E. simpl. lia.
  - exfalso. destruct (List.filter _ _) as [|u l] eqn:F; [simpl in H; lia |].
    assert (In u (u :: l)) as Hin by now left.
    rewrite <- F in Hin. apply filter_In in Hin as [Hin Hu].
    apply (find_none _ _ E) in Hin. congruence.
Qed.

(** [delete] refuses to remove the only administrator and leaves the
    collection as it is. *)
Lemma delete_sole_admin (id : string) (deletedBy : option User.t) (now : Z)
    (this : UserService.t) (user : User.t) :
  find (fun u => String.eqb (User.id u) id) (UserService.users this) = Some user ->
  User.role user = ADMIN -> adminCount (UserService.users this) = 1%nat ->
  success (fst (UserService.delete id deletedBy now this)) = false /\
  snd (UserService.delete id deletedBy now this) = this.
Proof.
  intros Hfind Hrole Hcount.
  destruct (findIndex_find _ _ _ Hfind) as (i & Hi & Hx).
  unfold UserService.delete. rewrite Hi, Hx.
  case_if; [auto |].
  fold (adminCount (UserService.users this)). rewrite Hrole, Hcount. auto.
Qed.

(** [delete] removes an administrator when there is another one, for a
    caller who may manage users. *)
Lemma delete_one_of_several_admins (id : string) (deletedBy : option User.t) (now : Z)
    (this : UserService.t) (user : User.t) :
  find (fun u => String.eqb (User.id u) id) (UserService.users this) = Some user ->
  User.role user = ADMIN -> (2 <= adminCount (UserService.users this))%nat ->
  (forall d, deletedBy = Some d -> User.canManageUsers d = true) ->
  success (fst (UserService.delete id deletedBy now this)) = true /\
  S (adminCount (UserService.users (snd (UserService.delete id deletedBy now this)))) =
    adminCount (UserService.users this) /\
  S (length (UserService.users (snd (UserService.delete id deletedBy now this)))) =
    length (UserService.users this).
Proof.
  intros Hfind Hrole Hcount Hmay.
  destruct (findIndex_find _ _ _ Hfind) as (i & Hi & Hx).
  unfold UserService.delete. rewrite Hi, Hx.
  assert ((match deletedBy with
           | Some d => negb (User.canManageUsers d)
           | None => false
           end) = false) as ->.
  { destruct deletedBy as [d|]; [|reflexivity]. now rewrite (Hmay d eq_refl). }
  fold (adminCount (UserService.users this)). rewrite Hrole.
  destruct (adminCount (UserService.users this) <=? 1)%nat eqn:E;
    [apply Nat.leb_le in E; lia |].
  simpl. split; [reflexivity |].
  pose proof (adminCount_delete _ _ _ Hx) as Hc. rewrite Hrole in Hc. simpl in Hc.
  split; [lia |].
  rewrite length_delete by eauto.
  apply lookup_lt_Some in Hx. lia.
Qed.

Lemma update_without_role_hasAdmin (id : string) (updates : PartialIUser.t)
    (updatedBy : option User.t) (now : Z) (this : UserService.t) :
  PartialIUser.role updates = None ->
  hasAdmin this -> hasAdmin (snd (UserService.update id updates updatedBy now this)).
Proof.
  unfold hasAdmin, UserService.update. intros Hr H.
  destruct (findIndex _ _) as [i|]; [|assumption].
  destruct (UserService.users this !! i) as [u|] eqn:E; [|assumption].
  case_if; [assumption |]. case_if; [assumption |].
  rewrite Hr.
  set (u1 := match PartialIUser.name updates with
             | Some n => User.set_name n u
             | None => u
             end).
  assert (User.role u1 = User.role u) as Hu1
    by (unfold u1; destruct (PartialIUser.name updates); reflexivity).
  assert (adminCount (<[i := u1]> (UserService.users this)) =
          adminCount (UserService.users this)) as Hc1
    by (now apply (adminCount_insert _ _ u)).
  cbn [UserService.users UserService.nextId].
  destruct (match PartialIUser.email updates with
            | Some e => find _ _
            | None => None
            end); [simpl; now rewrite Hc1 |].
  match goal with
  | |- context [User.validate ?u2] =>
      assert (User.role u2 = User.role u) as Hu2
        by (destruct (PartialIUser.email updates), (PartialIUser.isActive updates),
              (PartialIUser.preferences updates); exact Hu1)
  end.
  rewrite list_insert_insert_eq.
  case_if; simpl; now rewrite (adminCount_insert _ _ u).
Qed.

Lemma runUserCall_hasAdmin (call : UserCall) (now : Z) (this : UserService.t) :
  providesRole call = false -> hasAdmin this -> hasAdmin (runUserCall call now this).
Proof.
  destruct call as [userData createdBy | id updates updatedBy | id deletedBy
                    | email password |]; simpl; intros Hr H.
  - now apply create_hasAdmin.
  - apply update_without_role_hasAdmin; [|assumption].
    destruct (PartialIUser.role updates); [discriminate | reflexivity].
  - now apply delete_hasAdmin.
  - now apply authenticate_hasAdmin.
  - now apply clear_hasAdmin.
Qed.

(** Whatever the history of a user service, as long as no [update]
    provided a role, the collection has an administrator. *)
Lemma admin_without_role_updates (calls : list (UserCall * Z)) (start : Z) :
  Forall (fun c => providesRole (fst c) = false) calls ->
  hasAdmin (runUserCalls calls (UserService.constructor start)).
Proof.
  assert (forall this,
             Forall (fun c => providesRole (fst c) = false) calls ->
             hasAdmin this -> hasAdmin (runUserCalls calls this)) as Hgen.
  { induction calls as [|[call now] calls IH]; intros this Hc H; simpl; [assumption |].
    inversion Hc; subst. apply IH; [assumption |].
    now apply runUserCall_hasAdmin. }
  intros Hc. apply Hgen; [assumption | apply constructor_hasAdmin].
Qed.

(** C3.  The code breaks the invariant.  On the fresh service, which has
    the default administrator, [update] is asked by no particular caller
    to give that user the role USER: the call succeeds and the collection
    has no administrator left. *)
Theorem update_demotes_last_admin :
  hasAdmin (UserService.constructor 0) /\
  success (fst (UserService.update "user_1" (roleUpdate USER) None 5
                  (UserService.constructor 0))) = true /\
  adminCount (UserService.users
                (snd (UserService.update "user_1" (roleUpdate USER) None 5
                        (UserService.constructor 0)))) = 0%nat /\
  ~ hasAdmin (snd (UserService.update "user_1" (roleUpdate USER) None 5
                     (UserService.constructor 0))).
Proof.
  split; [apply constructor_hasAdmin |].
  split; [vm_compute; reflexivity |].
  assert (adminCount (UserService.users
                        (snd (UserService.update "user_1" (roleUpdate USER) None 5
                                (UserService.constructor 0)))) = 0%nat) as H
    by (vm_compute; reflexivity).
  split; [exact H |]. unfold hasAdmin. rewrite H. lia.
Qed.

(** The two examples of the specification: the only administrator cannot
    be deleted, and one of two can. *)
Lemma delete_examples :
  let one := UserService.constructor 0 in
  let two := snd (UserService.create secondAdmin None 1 one) in
  (success (fst (UserService.delete "user_1" None 2 one)) = false /\
   snd (UserService.delete "user_1" None 2 one) = one) /\
  (success (fst (UserService.delete "user_1" None 2 two)) = true /\
   hasAdmin (snd (UserService.delete "user_1" None 2 two))).
Proof.
  cbv zeta. split; split; vm_compute; reflexivity.
Qed.

(** * Further properties *)

(** ** Serialisation of the entities *)

(** X1.  A task survives the round trip through its plain object, in both
    directions and whatever the clock shows when it is rebuilt: [clone]
    returns a task equal to the original. *)
Theorem Task_json_round_trip :
  (forall (t : Task.t) (now : Z), Task.fromJSON (Task.toJSON t) now = t) /\
  (forall (d : ITask.t) (now : Z), Task.toJSON (Task.fromJSON d now) = d) /\
  (forall (t : Task.t) (now : Z), Task.clone now t = t).
Proof.
  repeat split.
  - intros [] now. reflexivity.
  - intros [] now. reflexivity.
  - intros [] now. reflexivity.
Qed.

Lemma spread_all (base p : UserPreferences) :
  spreadPreferences base (allPreferences p) = p.
Proof. destruct p. reflexivity. Qed.

Lemma User_fromJSON_toJSON (u : User.t) (now : Z) :
  User.fromJSON (User.toJSON u) now =
  {| User.id := User.id u; User.name := User.name u; User.email := User.email u;
     User.role := User.role u; User.isActive := User.isActive u;
     User.createdAt := User.createdAt u; User.lastLogin := User.lastLogin u;
     User.preferences := User.preferences u;
     User._loginAttempts := 0; User._isLocked := false |}.
Proof.
  unfold User.fromJSON, User.toJSON, User.constructor. simpl.
  rewrite spread_all. reflexivity.
Qed.

(** X2.  The plain object of a user does not hold the lock of the account:
    a plain object survives the round trip, and a user rebuilt from its
    plain object is the same user unlocked, with no failed attempt; it is
    the user itself exactly when the user was unlocked with no failed
    attempt. *)
Theorem User_json_round_trip :
  (forall (d : IUser.t) (now : Z), User.toJSON (User.fromJSON d now) = d) /\
  (forall (u : User.t) (now : Z),
      User.toJSON (User.fromJSON (User.toJSON u) now) = User.toJSON u /\
      User.isLocked (User.fromJSON (User.toJSON u) now) = false /\
      User.loginAttempts (User.fromJSON (User.toJSON u) now) = 0%nat) /\
  (forall (u : User.t) (now : Z),
      User.fromJSON (User.toJSON u) now = u <->
      User.isLocked u = false /\ User.loginAttempts u = 0%nat).
Proof.
  assert (forall (d : IUser.t) (now : Z), User.toJSON (User.fromJSON d now) = d) as Hd.
  { intros [] now. unfold User.fromJSON, User.toJSON, User.constructor. simpl.
    now rewrite spread_all. }
  split; [exact Hd |]. split.
  - intros u now. split; [apply Hd |]. rewrite User_fromJSON_toJSON. split; reflexivity.
  - intros u now. rewrite User_fromJSON_toJSON. split.
    + intros H. rewrite <- H. split; reflexivity.
    + intros [Hl Ha]. destruct u.
      unfold User.isLocked, User.loginAttempts in *. simpl in *. now subst.
Qed.

(** ** The lock of an account *)

Lemma recordFailedLogin_attempts (u : User.t) :
  User.loginAttempts (User.recordFailedLogin u) = S (User.loginAttempts u).
Proof. reflexivity. Qed.

Lemma recordFailedLogin_locked (u : User.t) :
  User.isLocked (User.recordFailedLogin u) =
  if (5 <=? S (User.loginAttempts u))%nat then true else User.isLocked u.
Proof. reflexivity. Qed.

Lemma failedLogins_attempts (n : nat) (u : User.t) :
  User.loginAttempts (failedLogins n u) = (User.loginAttempts u + n)%nat.
Proof.
  induction n as [|n IH]; cbn [failedLogins]; [lia |].
  rewrite recordFailedLogin_attempts, IH. lia.
Qed.

Lemma failedLogins_locked (n : nat) (u : User.t) :
  User.isLocked u = false ->
  User.isLocked (failedLogins n u) =
  (0 <? n)%nat && (5 <=? User.loginAttempts u + n)%nat.
Proof.
  intros Hu. induction n as [|n IH]; cbn [failedLogins]; [assumption |].
  rewrite recordFailedLogin_locked, failedLogins_attempts, IH.
  destruct (Nat.leb_spec 5 (S (User.loginAttempts u + n))),
           (Nat.leb_spec 5 (User.loginAttempts u + S n)),
           (Nat.leb_spec 5 (User.loginAttempts u + n));
    try lia; try reflexivity; now rewrite andb_false_r.
Qed.

(** X3.  Counting from a successful login, from [activate] or from the
    creation of the user, the account is locked exactly from the fifth
    failed login in a row on, and the number of failed attempts is the
    number of failures. *)
Theorem lock_at_fifth_failure (n : nat) :
  (forall (u : User.t) (now : Z),
      User.isLocked (failedLogins n (User.recordLogin now u)) = (5 <=? n)%nat /\
      User.loginAttempts (failedLogins n (User.recordLogin now u)) = n) /\
  (forall u : User.t,
      User.isLocked (failedLogins n (User.activate u)) = (5 <=? n)%nat /\
      User.loginAttempts (failedLogins n (User.activate u)) = n) /\
  (forall (input : CreateUserInput.t) (id : string) (now : Z),
      User.isLocked (failedLogins n (User.constructor input id now)) = (5 <=? n)%nat /\
      User.loginAttempts (failedLogins n (User.constructor input id now)) = n).
Proof.
  assert (forall u, User.isLocked u = false -> User.loginAttempts u = 0%nat ->
                    User.isLocked (failedLogins n u) = (5 <=? n)%nat /\
                    User.loginAttempts (failedLogins n u) = n) as H.
  { intros u Hl Ha. rewrite failedLogins_attempts, failedLogins_locked, Ha by assumption.
    split; [|lia]. rewrite Nat.add_0_l.
    destruct n; [reflexivity | apply andb_true_l]. }
  repeat split; intros; apply H; reflexivity.
Qed.

(** ** Roles *)

(** X4.  [canAccess] is the order of the role hierarchy GUEST, USER,
    MANAGER, ADMIN: a user can access what its own role requires and
    whatever a lower role requires, everyone can access what GUEST
    requires, an ADMIN can access everything; [canManageUsers] is access
    to MANAGER and [isAdmin] is access to ADMIN. *)
Theorem canAccess_hierarchy (u : User.t) :
  User.canAccess (User.role u) u = true /\
  User.canAccess GUEST u = true /\
  (User.role u = ADMIN -> forall r, User.canAccess r u = true) /\
  (forall r1 r2,
      User.canAccess r1 u = true ->
      (User.roleHierarchy r2 <= User.roleHierarchy r1)%nat ->
      User.canAccess r2 u = true) /\
  User.canManageUsers u = User.canAccess MANAGER u /\
  User.isAdmin u = User.canAccess ADMIN u.
Proof.
  unfold User.canAccess, User.canManageUsers, User.isAdmin.
  split; [apply Nat.leb_refl |].
  split; [reflexivity |].
  split; [intros -> r; destruct r; reflexivity |].
  split; [intros r1 r2 H1 H2; apply Nat.leb_le in H1; apply Nat.leb_le; lia |].
  split; destruct (User.role u); reflexivity.
Qed.

(** X5.  [changeRole] answers true, and sets the new role, exactly when
    the user whose role is to change is itself an ADMIN and the user given
    as administrator is not another ADMIN; otherwise it answers false and
    changes nothing.  The role of a user who is not an ADMIN is never
    changed, whoever is given as administrator. *)
Theorem changeRole_outcome (newRole : UserRole) (adminUser this : User.t) :
  (fst (User.changeRole newRole adminUser this) = true <->
   User.role this = ADMIN /\
   (User.role adminUser = ADMIN -> User.id adminUser = User.id this)) /\
  snd (User.changeRole newRole adminUser this) =
    (if fst (User.changeRole newRole adminUser this)
     then User.set_role newRole this else this) /\
  (User.role this <> ADMIN -> User.changeRole newRole adminUser this = (false, this)).
Proof.
  unfold User.changeRole, User.canChangeRole, User.isAdmin.
  destruct (bool_decide (User.role this = ADMIN)) eqn:Ea;
    [apply bool_decide_eq_true in Ea | apply bool_decide_eq_false in Ea];
    destruct (bool_decide (User.role adminUser = ADMIN)) eqn:Eb;
    [apply bool_decide_eq_true in Eb | apply bool_decide_eq_false in Eb | | ];
    destruct (String.eqb (User.id adminUser) (User.id this)) eqn:Ei;
    [apply String.eqb_eq in Ei | apply String.eqb_neq in Ei
     | apply String.eqb_eq in Ei | apply String.eqb_neq in Ei | | | |];
    cbn [negb andb fst snd];
    intuition (try discriminate; try congruence).
Qed.

(** ** The tags of a task *)

Lemma findIndex_delete_NoDup (tag : string) (l : list string) (i : nat) :
  List.NoDup l -> findIndex (String.eqb tag) l = Some i ->
  List.NoDup (base.delete i l) /\ ~ In tag (base.delete i l) /\
  (forall other, other <> tag -> (In other (base.delete i l) <-> In other l)).
Proof.
  intros Hnd. revert i. induction Hnd as [|x l Hx Hnd IH]; intros i; simpl; [discriminate |].
  destruct (String.eqb tag x) eqn:E.
  - apply String.eqb_eq in E. subst x. intros [= <-]. simpl.
    split; [assumption |]. split; [assumption |].
    intros other Ho. split; [auto |]. intros [H | H]; [congruence | assumption].
  - apply String.eqb_neq in E.
    destruct (findIndex (String.eqb tag) l) as [k|]; simpl; [|discriminate].
    intros [= <-]. destruct (IH k eq_refl) as (H1 & H2 & H3). simpl.
    split; [|split].
    + constructor; [|assumption]. intros Hin.
      destruct (String.eq_dec x tag) as [-> | Hne]; [contradiction |].
      apply (H3 x Hne) in Hin. contradiction.
    + intros [H | H]; [congruence | contradiction].
    + intros other Ho. specialize (H3 other Ho). tauto.
Qed.

Lemma findIndex_none (tag : string) (l : list string) :
  findIndex (String.eqb tag) l = None <-> ~ In tag l.
Proof.
  induction l as [|x l IH]; simpl; [tauto |].
  destruct (String.eqb tag x) eqn:E.
  - apply String.eqb_eq in E. split; [discriminate | intros H; elim H; auto].
  - apply String.eqb_neq in E.
    destruct (findIndex (String.eqb tag) l); simpl.
    + split; [discriminate |]. intros H. exfalso.
      assert (~ In tag l) as Hn by tauto. apply IH in Hn. discriminate.
    + split; [|reflexivity]. intros _ [H | H]; [congruence |].
      now apply IH in H.
Qed.

Lemma findIndex_last (tag : string) (l : list string) :
  ~ In tag l -> findIndex (String.eqb tag) (l ++ [tag]) = Some (length l).
Proof.
  induction l as [|x l IH]; simpl; intros H.
  - now rewrite String.eqb_refl.
  - destruct (String.eqb tag x) eqn:E.
    + apply String.eqb_eq in E. elim H. auto.
    + rewrite IH by tauto. reflexivity.
Qed.

Lemma delete_last {A : Type} (l : list A) (x : A) : base.delete (length l) (l ++ [x]) = l.
Proof. induction l as [|y l IH]; simpl; [reflexivity | now rewrite IH]. Qed.

Lemma includes_false (l : list string) (x : string) : includes l x = false <-> ~ In x l.
Proof.
  rewrite <- includes_In. destruct (includes l x); split; intros H; try reflexivity;
    try discriminate; try (intros H'; discriminate); now elim H.
Qed.

Lemma addTag_tags (tag : string) (now : Z) (t : Task.t) :
  Task.tags (Task.addTag tag now t) =
  if includes (Task.tags t) tag then Task.tags t else Task.tags t ++ [tag].
Proof. unfold Task.addTag. destruct (includes (Task.tags t) tag); reflexivity. Qed.

Lemma removeTag_tags (tag : string) (now : Z) (t : Task.t) :
  Task.tags (Task.removeTag tag now t) =
  match findIndex (String.eqb tag) (Task.tags t) with
  | Some index => base.delete index (Task.tags t)
  | None => Task.tags t
  end.
Proof.
  unfold Task.removeTag. destruct (findIndex (String.eqb tag) (Task.tags t)); reflexivity.
Qed.

(** X6.  The tags of a task behave as a set under [addTag] and
    [removeTag].  After [addTag] the tag is present, and a second [addTag]
    of the same tag changes nothing, not even the last-update date.  On
    tags without duplicates the two methods keep them without duplicates,
    [removeTag] leaves the tag absent, neither touches the other tags, and
    removing a tag that was just added to a task that did not have it
    gives back the tags the task had. *)
Theorem tags_as_a_set (tag : string) (now later : Z) (t : Task.t) :
  List.NoDup (Task.tags t) ->
  In tag (Task.tags (Task.addTag tag now t)) /\
  Task.addTag tag later (Task.addTag tag now t) = Task.addTag tag now t /\
  List.NoDup (Task.tags (Task.addTag tag now t)) /\
  List.NoDup (Task.tags (Task.removeTag tag now t)) /\
  ~ In tag (Task.tags (Task.removeTag tag now t)) /\
  (forall other, other <> tag ->
     (In other (Task.tags (Task.addTag tag now t)) <-> In other (Task.tags t)) /\
     (In other (Task.tags (Task.removeTag tag now t)) <-> In other (Task.tags t))) /\
  (~ In tag (Task.tags t) ->
   Task.tags (Task.removeTag tag later (Task.addTag tag now t)) = Task.tags t).
Proof.
  intros Hnd.
  assert (In tag (Task.tags (Task.addTag tag now t))) as Hin.
  { rewrite addTag_tags. destruct (includes (Task.tags t) tag) eqn:E.
    - now apply includes_In.
    - apply in_or_app. right. now left. }
  split; [exact Hin |].
  split.
  { unfold Task.addTag at 1. apply includes_In in Hin. now rewrite Hin. }
  split.
  { rewrite addTag_tags. destruct (includes (Task.tags t) tag) eqn:E; [assumption |].
    apply includes_false in E.
    eapply Permutation_NoDup; [apply Permutation_cons_append |].
    now constructor. }
  assert (List.NoDup (Task.tags (Task.removeTag tag now t)) /\
          ~ In tag (Task.tags (Task.removeTag tag now t)) /\
          (forall other, other <> tag ->
             (In other (Task.tags (Task.removeTag tag now t)) <-> In other (Task.tags t))))
    as (Hr1 & Hr2 & Hr3).
  { rewrite removeTag_tags.
    destruct (findIndex (String.eqb tag) (Task.tags t)) as [i|] eqn:E.
    - now apply findIndex_delete_NoDup.
    - apply findIndex_none in E. repeat split; auto. }
  split; [exact Hr1 |]. split; [exact Hr2 |].
  split.
  { intros other Ho. split; [|now apply Hr3].
    rewrite addTag_tags. destruct (includes (Task.tags t) tag); [tauto |].
    rewrite in_app_iff. simpl. split; [|auto].
    intros [H | [H | []]]; [assumption | congruence]. }
  intros Hout. rewrite removeTag_tags, addTag_tags.
  apply includes_false in Hout as Hinc. rewrite Hinc.
  rewrite findIndex_last by assumption. apply delete_last.
Qed.

(** The tag [urgent] on a task tagged [setup] and [development]. *)
Lemma tags_as_a_set_witness :
  In "urgent" (Task.tags (Task.addTag "urgent" 5 taggedTask)) /\
  Task.addTag "urgent" 9 (Task.addTag "urgent" 5 taggedTask) =
    Task.addTag "urgent" 5 taggedTask /\
  List.NoDup (Task.tags (Task.addTag "urgent" 5 taggedTask)) /\
  List.NoDup (Task.tags (Task.removeTag "urgent" 5 taggedTask)) /\
  ~ In "urgent" (Task.tags (Task.removeTag "urgent" 5 taggedTask)) /\
  (forall other, other <> "urgent" ->
     (In other (Task.tags (Task.addTag "urgent" 5 taggedTask)) <->
      In other (Task.tags taggedTask)) /\
     (In other (Task.tags (Task.removeTag "urgent" 5 taggedTask)) <->
      In other (Task.tags taggedTask))) /\
  (~ In "urgent" (Task.tags taggedTask) ->
   Task.tags (Task.removeTag "urgent" 9 (Task.addTag "urgent" 5 taggedTask)) =
   Task.tags taggedTask).
Proof.
  apply (tags_as_a_set "urgent" 5 9 taggedTask).
  simpl. apply List.NoDup_cons; [simpl; intros [H | []]; discriminate |].
  apply List.NoDup_cons; [intros [] | apply List.NoDup_nil].
Defined.

(** ** Overdue tasks and statistics *)

Lemma isOverdue_iff (now : Z) (t : Task.t) :
  Task.isOverdue now t = true <->
  Task.completed t = false /\
  exists ms, Task.dueDate t = Some (Instant ms) /\ (ms < now)%Z.
Proof.
  unfold Task.isOverdue, date_gt.
  destruct (Task.dueDate t) as [[ms|]|]; simpl.
  - destruct (Task.completed t).
    + split; [discriminate | intros [H _]; discriminate].
    + rewrite Z.ltb_lt. split.
      * intros H. split; [reflexivity | eauto].
      * intros (_ & ms' & [= <-] & H). assumption.
  - destruct (Task.completed t); split; try discriminate;
      intros (_ & ms & H & _); discriminate.
  - split; [discriminate | intros (_ & ms & H & _); discriminate].
Qed.

(** X7.  [getOverdueTasks] returns, in the order of the collection,
    exactly the tasks that are not completed and whose due date is a valid
    instant before the instant of the call; a task without due date is
    never overdue, and [markComplete] makes a task not overdue at every
    instant. *)
Theorem overdue_tasks (now : Z) (this : TaskService.t) :
  (forall task,
      In task (listOf (TaskService.getOverdueTasks now this)) <->
      In task (TaskService.tasks this) /\ Task.completed task = false /\
      exists ms, Task.dueDate task = Some (Instant ms) /\ (ms < now)%Z) /\
  sublist (listOf (TaskService.getOverdueTasks now this)) (TaskService.tasks this) /\
  (forall (task : Task.t) (done later : Z),
      Task.isOverdue later (Task.markComplete done task) = false).
Proof.
  split; [|split].
  - intros task. unfold listOf, TaskService.getOverdueTasks. simpl.
    rewrite filter_In, isOverdue_iff. reflexivity.
  - unfold listOf, TaskService.getOverdueTasks. simpl.
    induction (TaskService.tasks this) as [|x l IH]; simpl; [constructor |].
    destruct (Task.isOverdue now x); now constructor.
  - intros task done later. unfold Task.isOverdue, Task.markComplete. simpl.
    destruct (Task.dueDate task); reflexivity.
Qed.

Lemma countPriority_sum (p : Priority) (c : TaskService.PriorityCounts) :
  sumPriorities (TaskService.countPriority p c) = S (sumPriorities c).
Proof. destruct p; unfold sumPriorities; simpl; lia. Qed.

Lemma countStatus_sum (s : TaskStatus) (c : TaskService.StatusCounts) :
  sumStatuses (TaskService.countStatus s c) = S (sumStatuses c).
Proof. destruct s; unfold sumStatuses; simpl; lia. Qed.

(** The counters after the loop over [l], from the counters before it. *)
Lemma fold_countTask (now : Z) (l : list Task.t) :
  forall s0 : TaskService.Statistics,
    let s := fold_left (TaskService.countTask now) l s0 in
    TaskService.stats_total s = TaskService.stats_total s0 /\
    TaskService.stats_completed s =
      (TaskService.stats_completed s0 + length (List.filter Task.completed l))%nat /\
    TaskService.stats_pending s =
      (TaskService.stats_pending s0 +
       length (List.filter (fun t => negb (Task.completed t)) l))%nat /\
    TaskService.stats_overdue s =
      (TaskService.stats_overdue s0 + length (List.filter (Task.isOverdue now) l))%nat /\
    sumPriorities (TaskService.byPriority s) =
      (sumPriorities (TaskService.byPriority s0) + length l)%nat /\
    sumStatuses (TaskService.byStatus s) =
      (sumStatuses (TaskService.byStatus s0) + length l)%nat.
Proof.
  induction l as [|t l IH]; intros s0; cbn [fold_left List.filter length].
  - cbv zeta. repeat split; lia.
  - specialize (IH (TaskService.countTask now s0 t)). cbv zeta in *.
    destruct IH as (H1 & H2 & H3 & H4 & H5 & H6).
    rewrite H1, H2, H3, H4, H5, H6.
    cbn [TaskService.countTask TaskService.stats_total TaskService.stats_completed
         TaskService.stats_pending TaskService.stats_overdue TaskService.byPriority
         TaskService.byStatus].
    rewrite countPriority_sum, countStatus_sum.
    destruct (Task.completed t), (Task.isOverdue now t); cbn [negb length];
      repeat split; lia.
Qed.

Lemma filter_length_le {A : Type} (p q : A -> bool) (l : list A) :
  (forall x, p x = true -> q x = true) ->
  (length (List.filter p l) <= length (List.filter q l))%nat.
Proof.
  intros H. induction l as [|x l IH]; simpl; [lia |].
  destruct (p x) eqn:E; [rewrite (H x E); simpl; lia |].
  destruct (q x); simpl; lia.
Qed.

Lemma filter_partition_length {A : Type} (p : A -> bool) (l : list A) :
  (length (List.filter p l) + length (List.filter (fun x => negb (p x)) l))%nat = length l.
Proof.
  induction l as [|x l IH]; simpl; [reflexivity |].
  destruct (p x); simpl; lia.
Qed.

(** X8.  The statistics count every task exactly once in each table:
    completed and pending add up to the total, and so do the four counters
    by priority and the four counters by status; the completed counter is
    the number of completed tasks, and the overdue counter is the number of
    tasks [getOverdueTasks] returns, which is at most the pending
    counter. *)
Theorem statistics_partition (now : Z) (this : TaskService.t) :
  let stats := TaskService.getStatistics now this in
  TaskService.stats_total stats = length (TaskService.tasks this) /\
  (TaskService.stats_completed stats + TaskService.stats_pending stats)%nat =
    TaskService.stats_total stats /\
  sumPriorities (TaskService.byPriority stats) = TaskService.stats_total stats /\
  sumStatuses (TaskService.byStatus stats) = TaskService.stats_total stats /\
  TaskService.stats_completed stats =
    length (List.filter Task.completed (TaskService.tasks this)) /\
  TaskService.stats_overdue stats =
    length (listOf (TaskService.getOverdueTasks now this)) /\
  (TaskService.stats_overdue stats <= TaskService.stats_pending stats)%nat.
Proof.
  cbv zeta. unfold TaskService.getStatistics. cbv zeta.
  match goal with
  | |- context [fold_left _ _ ?s0] =>
      destruct (fold_countTask now (TaskService.tasks this) s0) as (H1 & H2 & H3 & H4 & H5 & H6)
  end.
  cbv zeta in *. rewrite H1, H2, H3, H4, H5, H6.
  cbn [TaskService.stats_total TaskService.stats_completed TaskService.stats_pending
       TaskService.stats_overdue TaskService.byPriority TaskService.byStatus].
  unfold sumPriorities, sumStatuses, listOf, TaskService.getOverdueTasks. simpl.
  pose proof (filter_partition_length Task.completed (TaskService.tasks this)).
  pose proof (filter_length_le (Task.isOverdue now) (fun t => negb (Task.completed t))
                (TaskService.tasks this)) as Hle.
  repeat split; try lia.
  apply Hle. intros x Hx. apply isOverdue_iff in Hx as [Hx _]. now rewrite Hx.
Qed.

(** ** More on filtering *)

Lemma filter_idempotent {A : Type} (p : A -> bool) (l : list A) :
  List.filter p (List.filter p l) = List.filter p l.
Proof.
  induction l as [|x l IH]; simpl; [reflexivity |].
  destruct (p x) eqn:E; simpl; [rewrite E, IH |]; auto.
Qed.

Lemma filter_commute {A : Type} (p q : A -> bool) (l : list A) :
  List.filter p (List.filter q l) = List.filter q (List.filter p l).
Proof.
  induction l as [|x l IH]; simpl; [reflexivity |].
  destruct (p x) eqn:Ep, (q x) eqn:Eq; simpl; rewrite ?Ep, ?Eq, ?IH; reflexivity.
Qed.

Lemma filter_sublist {A : Type} (p : A -> bool) (l : list A) : sublist (List.filter p l) l.
Proof.
  induction l as [|x l IH]; simpl; [constructor |].
  destruct (p x); now constructor.
Qed.

(** X9.  Filtering is idempotent and keeps the order of the collection:
    the result of a filtered query is a subsequence of the collection, a
    second query with the same filter over that result returns it
    unchanged, and two filters applied one after the other give the same
    result in either order. *)
Theorem filtering_idempotent (this : TaskService.t) (f g : TaskFilters.t) (now later : Z) :
  let result := pageTasks (TaskService.getAll (Some f) None now this) in
  sublist result (TaskService.tasks this) /\
  pageTasks (TaskService.getAll (Some f) None later (withTasks result this)) = result /\
  pageTasks (TaskService.getAll (Some g) None later (withTasks result this)) =
  pageTasks (TaskService.getAll (Some f) None later
               (withTasks (pageTasks (TaskService.getAll (Some g) None now this)) this)).
Proof.
  cbv zeta. rewrite !pageTasks_filtered. cbn [withTasks TaskService.tasks].
  split; [apply filter_sublist |].
  split; [apply filter_idempotent | apply filter_commute].
Qed.

(** X10.  For a user identifier that is not the empty string,
    [getTasksByUser] returns what [getAll] returns under the filter
    [{ assignedTo }]; for the empty string they part: the filter is then
    ignored and [getAll] returns the whole collection. *)
Theorem getTasksByUser_as_filter (userId : string) (now : Z) (this : TaskService.t) :
  userId <> "" ->
  listOf (TaskService.getTasksByUser userId now this) =
    pageTasks (TaskService.getAll (Some (assigneeFilter userId)) None now this) /\
  pageTasks (TaskService.getAll (Some (assigneeFilter "")) None now this) =
    TaskService.tasks this.
Proof.
  intros Hne. rewrite !pageTasks_filtered.
  unfold listOf, TaskService.getTasksByUser. simpl. split.
  - apply filter_ext. intros task. unfold TaskService.keeps. simpl.
    apply truthy_true in Hne. rewrite Hne. simpl.
    destruct (bool_decide (Task.assignedTo task = Some userId)); reflexivity.
  - induction (TaskService.tasks this) as [|x l IH]; simpl; [reflexivity |].
    now rewrite IH.
Qed.

(** The tasks of a user of the demonstration script. *)
Lemma getTasksByUser_as_filter_witness :
  listOf (TaskService.getTasksByUser "user_4" 9 threeTasks) =
    pageTasks (TaskService.getAll (Some (assigneeFilter "user_4")) None 9 threeTasks) /\
  pageTasks (TaskService.getAll (Some (assigneeFilter "")) None 9 threeTasks) =
    TaskService.tasks threeTasks.
Proof.
  apply (getTasksByUser_as_filter "user_4" 9 threeTasks). discriminate.
Defined.

(** ** The validators among themselves *)

Lemma isValidText_iff (s : string) (max : nat) :
  (0 <? String.length (trim s))%nat && (String.length s <=? max)%nat = true <->
  text_ok max s.
Proof.
  unfold text_ok. rewrite andb_true_iff, Nat.ltb_lt, Nat.leb_le.
  rewrite <- length_zero_iff. lia.
Qed.

Lemma absent_or_defined {A : Type} (P : A -> Prop) (a : A) :
  absent_or P (Defined a) <-> P a.
Proof.
  unfold absent_or. split.
  - intros [H | (a' & [= <-] & H)]; [discriminate | assumption].
  - intros H. right. eauto.
Qed.

Lemma nullish_or_defined {A : Type} (P : A -> Prop) (a : A) :
  nullish_or P (Defined a) <-> P a.
Proof.
  unfold nullish_or. split.
  - intros [H | [H | (a' & [= <-] & H)]]; try discriminate. assumption.
  - intros H. right; right. eauto.
Qed.

Lemma absent_or_undefined {A : Type} (P : A -> Prop) : absent_or P (@Undefined A).
Proof. now left. Qed.

Lemma nullish_or_undefined {A : Type} (P : A -> Prop) : nullish_or P (@Undefined A).
Proof. now left. Qed.

Lemma enum_ok_undefined (values : list string) : enum_ok values Undefined.
Proof. now left. Qed.

(** X11.  The single-field validators and the record validators apply the
    same rules: [isValidTaskTitle], [isValidTaskDescription],
    [isValidUserName] and [isValidEmail] accept a text exactly when
    [validateTaskData] or [validateUserData] accepts the record that holds
    only that field, and the title, name and email rules of the entity
    methods [Task.validate] and [User.validate] are those rules too. *)
Theorem validators_agree (s : string) :
  Validators.isValidTaskTitle s = isValid (Validators.validateTaskData (onlyTitle s)) /\
  Validators.isValidTaskDescription s =
    isValid (Validators.validateTaskData (onlyDescription s)) /\
  Validators.isValidUserName s = isValid (Validators.validateUserData (onlyName s)) /\
  Validators.isValidEmail s = isValid (Validators.validateUserData (onlyEmail s)) /\
  (forall t : Task.t,
      Task.title t = s -> Task.description t = None -> Task.dueDate t = None ->
      isValid (Task.validate t) = Validators.isValidTaskTitle s) /\
  (forall u : User.t,
      User.name u = s ->
      isValid (User.validate u) =
      Validators.isValidUserName s && Validators.isValidEmail (User.email u)).
Proof.
  split; [|split; [|split; [|split; [|split]]]].
  - apply eq_true_iff_eq.
    rewrite validateTaskData_valid_iff. unfold Validators.isValidTaskTitle, onlyTitle. simpl.
    rewrite isValidText_iff, absent_or_defined.
    pose proof (@nullish_or_undefined string (fun s => (String.length s <= 1000)%nat)).
    pose proof (enum_ok_undefined Validators.PriorityValues).
    pose proof (enum_ok_undefined Validators.TaskStatusValues).
    pose proof (@nullish_or_undefined Date valid_date).
    pose proof (@absent_or_undefined (list (Field string)) all_strings).
    tauto.
  - apply eq_true_iff_eq.
    rewrite validateTaskData_valid_iff.
    unfold Validators.isValidTaskDescription, onlyDescription. simpl.
    rewrite Nat.leb_le, nullish_or_defined.
    pose proof (@absent_or_undefined string (text_ok 200)).
    pose proof (enum_ok_undefined Validators.PriorityValues).
    pose proof (enum_ok_undefined Validators.TaskStatusValues).
    pose proof (@nullish_or_undefined Date valid_date).
    pose proof (@absent_or_undefined (list (Field string)) all_strings).
    tauto.
  - apply eq_true_iff_eq.
    rewrite validateUserData_valid_iff. unfold Validators.isValidUserName, onlyName. simpl.
    rewrite isValidText_iff, absent_or_defined.
    pose proof (@absent_or_undefined string email_shape).
    pose proof (enum_ok_undefined Validators.UserRoleValues).
    tauto.
  - apply eq_true_iff_eq.
    rewrite validateUserData_valid_iff. unfold Validators.isValidEmail, onlyEmail. simpl.
    rewrite emailRegex_shape, absent_or_defined.
    pose proof (@absent_or_undefined string (text_ok 100)).
    pose proof (enum_ok_undefined Validators.UserRoleValues).
    tauto.
  - intros t Ht Hd Hdue. apply eq_true_iff_eq.
    rewrite Task_validate_valid_iff, Ht, Hd, Hdue.
    unfold Validators.isValidTaskTitle. rewrite isValidText_iff.
    split; [tauto |]. intros H. repeat split; try apply H; discriminate.
  - intros u Hu. apply eq_true_iff_eq.
    rewrite User_validate_valid_iff, Hu, andb_true_iff.
    unfold Validators.isValidUserName, Validators.isValidEmail.
    rewrite isValidText_iff, emailRegex_shape.
    split; [tauto |]. intros [H1 H2]. repeat split; try apply H1; try assumption.
    now apply email_shape_nonempty.
Qed.

Lemma pushIfError_length (e : option string) :
  (length (Validators.pushIfError [] e) <= 1)%nat.
Proof.
  unfold Validators.pushIfError, push. destruct e as [m|]; [destruct (truthy m) |];
    simpl; lia.
Qed.

(** X12.  No validator reports more than one error for a field: at most
    six errors for a task record and three for a user record, the error
    about a missing or empty title or name excluding the one about its
    length.  The entity methods report at most four and three. *)
Theorem error_count_bounded :
  (forall d : Validators.TaskData,
      (length (errors (Validators.validateTaskData d)) <= 6)%nat /\
      (length (Validators.checkTitle d []) <= 1)%nat) /\
  (forall d : Validators.UserData,
      (length (errors (Validators.validateUserData d)) <= 3)%nat /\
      (length (Validators.checkName d []) <= 1)%nat) /\
  (forall t : Task.t, (length (errors (Task.validate t)) <= 4)%nat) /\
  (forall u : User.t, (length (errors (User.validate u)) <= 3)%nat).
Proof.
  assert (forall d, (length (Validators.checkTitle d []) <= 1)%nat) as Ht.
  { intros d. unfold Validators.checkTitle. cbv zeta.
    repeat case_if; try apply pushIfError_length; simpl; lia. }
  assert (forall d, (length (Validators.checkName d []) <= 1)%nat) as Hn.
  { intros d. unfold Validators.checkName. cbv zeta.
    repeat case_if; try apply pushIfError_length; simpl; lia. }
  split; [|split; [|split]].
  - intros d. split; [|apply Ht]. rewrite validateTaskData_errors, !length_app.
    specialize (Ht d).
    assert (length (Validators.checkDescription d []) <= 1)%nat
      by (unfold Validators.checkDescription; cbv zeta;
          repeat case_if; try apply pushIfError_length; simpl; lia).
    assert (length (Validators.checkPriority d []) <= 1)%nat
      by (unfold Validators.checkPriority; repeat case_if; simpl; lia).
    assert (length (Validators.checkStatus d []) <= 1)%nat
      by (unfold Validators.checkStatus; repeat case_if; simpl; lia).
    assert (length (Validators.checkDueDate d []) <= 1)%nat
      by (unfold Validators.checkDueDate; repeat case_if; simpl; lia).
    assert (length (Validators.checkTags d []) <= 1)%nat
      by (unfold Validators.checkTags; repeat case_if; simpl; lia).
    lia.
  - intros d. split; [|apply Hn]. rewrite validateUserData_errors, !length_app.
    specialize (Hn d).
    assert (length (Validators.checkEmail d []) <= 1)%nat
      by (unfold Validators.checkEmail; cbv zeta;
          repeat case_if; try apply pushIfError_length; simpl; lia).
    assert (length (Validators.checkRole d []) <= 1)%nat
      by (unfold Validators.checkRole; repeat case_if; simpl; lia).
    lia.
  - intros t. unfold Task.validate. cbv zeta. cbn [errors].
    destruct (Task.description t), (Task.dueDate t); repeat case_if; simpl; lia.
  - intros u. unfold User.validate. cbv zeta. cbn [errors].
    repeat case_if; simpl; lia.
Qed.

(** ** The identifiers of the tasks *)

Lemma to_uint_nonnil (n : nat) : Nat.to_uint n <> Decimal.Nil.
Proof.
  intros H. pose proof (DecimalNat.Unsigned.of_to n) as E. rewrite H in E.
  simpl in E. subst n. discriminate.
Qed.

Lemma numToString_inj (a b : nat) : numToString a = numToString b -> a = b.
Proof.
  unfold numToString. intros H.
  apply (f_equal NilZero.uint_of_string) in H.
  rewrite !NilZero.usu in H by apply to_uint_nonnil.
  injection H as H. now apply DecimalNat.Unsigned.to_uint_inj.
Qed.

Lemma append_inj_r (p s1 s2 : string) : p +:+ s1 = p +:+ s2 -> s1 = s2.
Proof.
  induction p as [|c p IH]; [auto |].
  rewrite !append_cons. intros [= H]. auto.
Qed.

Lemma map_insert_same {A B : Type} (f : A -> B) (l : list A) (i : nat) (x y : A) :
  l !! i = Some x -> f y = f x -> map f (<[i := y]> l) = map f l.
Proof.
  revert i. induction l as [|z l IH]; intros [|i]; simpl; try discriminate.
  - intros [= ->] ->. reflexivity.
  - intros Hi Hf. now rewrite (IH i).
Qed.

Lemma map_delete {A B : Type} (f : A -> B) (l : list A) (i : nat) :
  map f (base.delete i l) = base.delete i (map f l).
Proof.
  revert i. induction l as [|z l IH]; intros [|i]; simpl; try reflexivity.
  now rewrite IH.
Qed.

Lemma find_app_fresh {A : Type} (p : A -> bool) (l : list A) (x : A) :
  (forall y, In y l -> p y = false) -> p x = true -> find p (l ++ [x]) = Some x.
Proof.
  induction l as [|z l IH]; simpl; intros Hl Hx; [now rewrite Hx |].
  rewrite (Hl z) by auto. apply IH; auto.
Qed.

Lemma find_app_old {A : Type} (p : A -> bool) (l : list A) (x : A) :
  p x = false -> find p (l ++ [x]) = find p l.
Proof.
  induction l as [|z l IH]; simpl; intros Hx; [now rewrite Hx |].
  destruct (p z); auto.
Qed.

Lemma find_delete_first {A : Type} (f : A -> string) (id : string) (l : list A) (i : nat) :
  List.NoDup (map f l) ->
  findIndex (fun x => String.eqb (f x) id) l = Some i ->
  find (fun x => String.eqb (f x) id) (base.delete i l) = None.
Proof.
  revert i. induction l as [|z l IH]; intros i Hnd; simpl; [discriminate |].
  inversion Hnd as [|? ? Hz Hnd']; subst.
  destruct (String.eqb (f z) id) eqn:E.
  - intros [= <-]. simpl. apply String.eqb_eq in E.
    destruct (find _ l) as [y|] eqn:Hf; [|reflexivity].
    apply find_some in Hf as [Hy Hp]. apply String.eqb_eq in Hp.
    elim Hz. rewrite E, <- Hp. now apply in_map.
  - destruct (findIndex _ l) as [k|]; simpl; [|discriminate].
    intros [= <-]. simpl. rewrite E. now apply IH.
Qed.

Lemma find_delete_other {A : Type} (q : A -> bool) (l : list A) (i : nat) (x : A) :
  l !! i = Some x -> q x = false -> find q (base.delete i l) = find q l.
Proof.
  revert i. induction l as [|z l IH]; intros [|i]; simpl; try discriminate.
  - intros [= ->] Hq. now rewrite Hq.
  - intros Hi Hq. destruct (q z); [reflexivity | now apply (IH i)].
Qed.

Lemma callMethod_id (m : TaskMethod) (now : Z) (task : Task.t) :
  Task.id (callMethod m now task) = Task.id task.
Proof.
  destruct m; simpl; try reflexivity.
  - unfold Task.update, Task.assignIfDefined.
    destruct (UpdateTaskInput.title updates), (UpdateTaskInput.description updates),
      (UpdateTaskInput.priority updates), (UpdateTaskInput.assignedTo updates),
      (UpdateTaskInput.dueDate updates), (UpdateTaskInput.tags updates); reflexivity.
  - unfold Task.addTag. case_if; reflexivity.
  - unfold Task.removeTag. destruct (findIndex _ _); reflexivity.
Qed.

Lemma numbered_insert (this : TaskService.t) (i : nat) (x y : Task.t) :
  TaskService.tasks this !! i = Some x -> Task.id y = Task.id x ->
  numbered this ->
  numbered {| TaskService.tasks := <[i := y]> (TaskService.tasks this);
              TaskService.nextId := TaskService.nextId this |}.
Proof.
  intros Hi Hid [Hf Hnd]. split; simpl.
  - apply Forall_insert; [assumption |]. rewrite Hid.
    eapply (Forall_lookup_1 _ _ _ _ Hf Hi).
  - now rewrite (map_insert_same Task.id _ i x y).
Qed.

Lemma numbered_fresh (this : TaskService.t) (task : Task.t) :
  numbered this -> In task (TaskService.tasks this) -> Task.id task <> nextTaskId this.
Proof.
  intros [Hf _] Hin Heq. rewrite List.Forall_forall in Hf.
  destruct (Hf task Hin) as (k & Hk & Hid). unfold nextTaskId in Heq.
  rewrite Hid in Heq. apply append_inj_r, numToString_inj in Heq. lia.
Qed.

Lemma create_numbered (taskData : CreateTaskInput.t) (now : Z) (this : TaskService.t) :
  numbered this -> numbered (snd (TaskService.create taskData now this)).
Proof.
  intros Hn. pose proof (fun t => numbered_fresh this t Hn) as Hfresh.
  destruct Hn as [Hf Hnd].
  assert (Forall (fun t => exists k, (k < S (TaskService.nextId this))%nat /\
                                     Task.id t = "task_" +:+ numToString k)
                 (TaskService.tasks this)) as Hf'.
  { eapply Forall_impl; [exact Hf |]. intros t (k & Hk & Hid). exists k. split; [lia | auto]. }
  unfold TaskService.create. simpl. case_if; simpl.
  - split; assumption.
  - split; simpl.
    + unfold push. apply Forall_app. split; [assumption |].
      constructor; [|constructor]. exists (TaskService.nextId this). split; [lia | reflexivity].
    + unfold push. rewrite map_app. simpl.
      eapply Permutation_NoDup; [apply Permutation_cons_append |].
      constructor; [|assumption].
      intros Hin. apply in_map_iff in Hin as (t & Hid & Hin).
      now apply (Hfresh t Hin).
Qed.

Lemma runTaskCall_numbered (call : TaskCall) (now : Z) (this : TaskService.t) :
  numbered this -> numbered (runTaskCall call now this).
Proof.
  destruct call as [taskData | id updates | id | id | | index m]; simpl; intros Hn.
  - now apply create_numbered.
  - unfold TaskService.update.
    destruct (findIndex _ _) as [i|]; [|assumption].
    destruct (TaskService.tasks this !! i) as [task|] eqn:E; [|assumption].
    case_if; simpl; apply (numbered_insert this i task); auto using applyUpdates_id.
  - unfold TaskService.delete.
    destruct (findIndex _ _) as [i|]; [|assumption].
    destruct Hn as [Hf Hnd]. split; simpl.
    + now apply Forall_delete.
    + rewrite map_delete. apply NoDup_ListNoDup.
      apply (sublist_NoDup _ (map Task.id (TaskService.tasks this)));
        [apply NoDup_ListNoDup; exact Hnd | apply sublist_delete].
  - unfold TaskService.markComplete.
    destruct (findIndex _ _) as [i|]; [|assumption].
    destruct (TaskService.tasks this !! i) as [task|] eqn:E; [|assumption].
    simpl. now apply (numbered_insert this i task).
  - split; simpl; constructor.
  - destruct (TaskService.tasks this !! index) as [task|] eqn:E; [|assumption].
    apply (numbered_insert this index task); auto using callMethod_id.
Qed.

(** X13.  Identifiers are unique.  Whatever operations of the service and
    whatever methods of its tasks were called, in whatever order, no two
    tasks of the collection have the same identifier, and every
    identifier is [task_k] for a [k] below the counter of the service. *)
Theorem task_ids_unique (calls : list (TaskCall * Z)) :
  numbered (runTaskCalls calls TaskService.init) /\
  List.NoDup (map Task.id (TaskService.tasks (runTaskCalls calls TaskService.init))).
Proof.
  assert (forall this, numbered this -> numbered (runTaskCalls calls this)) as Hgen.
  { induction calls as [|[call now] calls IH]; intros this H; simpl; [assumption |].
    apply IH. now apply runTaskCall_numbered. }
  assert (numbered (runTaskCalls calls TaskService.init)) as H.
  { apply Hgen. split; simpl; constructor. }
  split; [exact H | apply H].
Qed.

Lemma constructor_id (taskData : CreateTaskInput.t) (id : string) (now : Z) :
  Task.id (Task.constructor taskData id now) = id.
Proof. reflexivity. Qed.

Lemma getById_find (id : string) (now : Z) (this : TaskService.t) :
  TaskService.getById id now this =
  match stored id this with
  | None => failure (TaskService.notFound id) now
  | Some task => ok task now
  end.
Proof. reflexivity. Qed.

(** X14.  [create] and [getById].  On a collection with generated,
    distinct identifiers, [create] succeeds exactly when the new task
    passes [Task.validate].  Then the collection is the old one followed
    by the new task, which has the next identifier, the status TODO and the
    completed flag false; [getById] with that identifier returns the new
    task, and with any other identifier what it returned before.  When
    [create] fails the collection is unchanged.  Either way the
    identifier is used up. *)
Theorem create_then_getById (taskData : CreateTaskInput.t) (now later : Z)
    (this : TaskService.t) :
  numbered this ->
  let task := Task.constructor taskData (nextTaskId this) now in
  let response := fst (TaskService.create taskData now this) in
  let after := snd (TaskService.create taskData now this) in
  success response = isValid (Task.validate task) /\
  TaskService.nextId after = S (TaskService.nextId this) /\
  (success response = true ->
   data response = Some task /\
   TaskService.tasks after = TaskService.tasks this ++ [task] /\
   Task.status task = TODO /\ Task.completed task = false /\
   TaskService.getById (nextTaskId this) later after = ok task later /\
   (forall id, id <> nextTaskId this ->
               TaskService.getById id later after = TaskService.getById id later this)) /\
  (success response = false -> TaskService.tasks after = TaskService.tasks this).
Proof.
  intros Hn. cbv zeta. pose proof (fun t => numbered_fresh this t Hn) as Hfresh.
  unfold TaskService.create, TaskService.generateId, nextTaskId in *.
  cbn [TaskService.nextId TaskService.tasks].
  destruct (isValid (Task.validate (Task.constructor taskData
              ("task_" +:+ numToString (TaskService.nextId this)) now))) eqn:Ev;
    cbn [negb fst snd success data TaskService.nextId TaskService.tasks ok failure].
  - split; [reflexivity |]. split; [reflexivity |]. split; [|discriminate].
    intros _. split; [reflexivity |]. split; [reflexivity |].
    split; [reflexivity |]. split; [reflexivity |].
    split.
    + rewrite getById_find. unfold stored, push. cbn [TaskService.tasks].
      rewrite find_app_fresh; [reflexivity | | cbv beta; rewrite constructor_id;
                                               apply String.eqb_refl].
      intros y Hy. apply String.eqb_neq. now apply Hfresh.
    + intros id Hid. rewrite !getById_find. unfold stored, push.
      cbn [TaskService.tasks].
      rewrite find_app_old; [reflexivity |]. cbv beta. rewrite constructor_id.
      apply String.eqb_neq. auto.
  - split; [reflexivity |]. split; [reflexivity |]. split; [discriminate | reflexivity].
Qed.

(** A fourth task after three. *)
Lemma create_then_getById_witness :
  let task := Task.constructor (plainTask "Review" LOW) (nextTaskId threeTasks) 4 in
  let response := fst (TaskService.create (plainTask "Review" LOW) 4 threeTasks) in
  let after := snd (TaskService.create (plainTask "Review" LOW) 4 threeTasks) in
  success response = isValid (Task.validate task) /\
  TaskService.nextId after = S (TaskService.nextId threeTasks) /\
  (success response = true ->
   data response = Some task /\
   TaskService.tasks after = TaskService.tasks threeTasks ++ [task] /\
   Task.status task = TODO /\ Task.completed task = false /\
   TaskService.getById (nextTaskId threeTasks) 9 after = ok task 9 /\
   (forall id, id <> nextTaskId threeTasks ->
               TaskService.getById id 9 after = TaskService.getById id 9 threeTasks)) /\
  (success response = false -> TaskService.tasks after = TaskService.tasks threeTasks).
Proof.
  apply (create_then_getById (plainTask "Review" LOW) 4 9 threeTasks).
  split.
  - let l := eval vm_compute in (TaskService.tasks threeTasks) in
    change (TaskService.tasks threeTasks) with l.
    apply List.Forall_cons; [exists 1; split; [vm_compute; lia | reflexivity] |].
    apply List.Forall_cons; [exists 2; split; [vm_compute; lia | reflexivity] |].
    apply List.Forall_cons; [exists 3; split; [vm_compute; lia | reflexivity] |].
    apply List.Forall_nil.
  - vm_compute. repeat (apply List.NoDup_cons; [simpl; intuition discriminate |]).
    apply List.NoDup_nil.
Defined.

(** X15.  [delete] and [getById].  On a collection with distinct
    identifiers, deleting an identifier that is present succeeds and
    removes exactly the task that [getById] returned for it: afterwards
    [getById] does not find the identifier, the collection is one shorter,
    and every other identifier is answered as before.  Deleting an
    identifier that is absent fails and leaves the service as it is. *)
Theorem delete_then_getById (id : string) (now later : Z) (this : TaskService.t) :
  List.NoDup (map Task.id (TaskService.tasks this)) ->
  let response := fst (TaskService.delete id now this) in
  let after := snd (TaskService.delete id now this) in
  (forall task, stored id this = Some task ->
     success response = true /\
     Permutation (TaskService.tasks this) (task :: TaskService.tasks after) /\
     S (length (TaskService.tasks after)) = length (TaskService.tasks this) /\
     TaskService.getById id later after = failure (TaskService.notFound id) later /\
     (forall other, other <> id ->
        TaskService.getById other later after = TaskService.getById other later this)) /\
  (stored id this = None ->
     response = failure (TaskService.notFound id) now /\ after = this).
Proof.
  intros Hnd. cbv zeta. split.
  - intros task Hfind. unfold stored in Hfind.
    destruct (findIndex_find _ _ _ Hfind) as (i & Hi & Hx).
    destruct (findIndex_lookup _ _ _ Hi) as (x & Hx' & Hp).
    assert (x = task) by congruence. subst x. apply String.eqb_eq in Hp.
    unfold TaskService.delete. rewrite Hi. simpl.
    split; [reflexivity |].
    split; [now apply delete_Permutation |].
    split; [rewrite length_delete by eauto; apply lookup_lt_Some in Hx; lia |].
    split.
    + rewrite getById_find. unfold stored. simpl.
      now rewrite (find_delete_first Task.id id _ i Hnd Hi).
    + intros other Ho. rewrite !getById_find. unfold stored. simpl.
      rewrite (find_delete_other _ _ i task); [reflexivity | assumption |].
      apply String.eqb_neq. congruence.
  - intros Hnone. unfold stored in Hnone. unfold TaskService.delete.
    destruct (findIndex _ _) as [i|] eqn:Hi; [|split; reflexivity].
    destruct (findIndex_lookup _ _ _ Hi) as (x & Hx & Hp).
    assert (In x (TaskService.tasks this)) as Hin
      by (eapply list_elem_of_In, list_elem_of_lookup_2; eauto).
    pose proof (find_none _ _ Hnone x Hin) as Hq. cbv beta in Hq. congruence.
Qed.

(** The second of three tasks. *)
Lemma delete_then_getById_witness :
  let response := fst (TaskService.delete "task_2" 5 threeTasks) in
  let after := snd (TaskService.delete "task_2" 5 threeTasks) in
  (forall task, stored "task_2" threeTasks = Some task ->
     success response = true /\
     Permutation (TaskService.tasks threeTasks) (task :: TaskService.tasks after) /\
     S (length (TaskService.tasks after)) = length (TaskService.tasks threeTasks) /\
     TaskService.getById "task_2" 9 after = failure (TaskService.notFound "task_2") 9 /\
     (forall other, other <> "task_2" ->
        TaskService.getById other 9 after = TaskService.getById other 9 threeTasks)) /\
  (stored "task_2" threeTasks = None ->
     response = failure (TaskService.notFound "task_2") 5 /\ after = threeTasks).
Proof.
  apply (delete_then_getById "task_2" 5 9 threeTasks).
  vm_compute. repeat (apply List.NoDup_cons; [simpl; intuition discriminate |]).
  apply List.NoDup_nil.
Defined.

(** X16.  [update] and [markComplete] work in place: whether they succeed
    or fail, the collection keeps its length, its order, the identifier and
    the creation date of every task, and the counter of the service. *)
Theorem update_in_place (id : string) (updates : PartialITask.t) (now : Z)
    (this : TaskService.t) :
  map Task.id (TaskService.tasks (snd (TaskService.update id updates now this))) =
    map Task.id (TaskService.tasks this) /\
  map Task.createdAt (TaskService.tasks (snd (TaskService.update id updates now this))) =
    map Task.createdAt (TaskService.tasks this) /\
  TaskService.nextId (snd (TaskService.update id updates now this)) =
    TaskService.nextId this /\
  map Task.id (TaskService.tasks (snd (TaskService.markComplete id now this))) =
    map Task.id (TaskService.tasks this) /\
  map Task.createdAt (TaskService.tasks (snd (TaskService.markComplete id now this))) =
    map Task.createdAt (TaskService.tasks this) /\
  TaskService.nextId (snd (TaskService.markComplete id now this)) =
    TaskService.nextId this.
Proof.
  assert (forall task, Task.createdAt (TaskService.applyUpdates updates now task) =
                       Task.createdAt task) as Hc.
  { intros task. unfold TaskService.applyUpdates, Task.assignIfDefined.
    destruct (PartialITask.title updates), (PartialITask.description updates),
      (PartialITask.priority updates), (PartialITask.assignedTo updates),
      (PartialITask.dueDate updates), (PartialITask.tags updates),
      (PartialITask.status updates); reflexivity. }
  unfold TaskService.update, TaskService.markComplete.
  destruct (findIndex _ _) as [i|]; [|repeat split; reflexivity].
  destruct (TaskService.tasks this !! i) as [task|] eqn:E; [|repeat split; reflexivity].
  assert (map Task.id (<[i := TaskService.applyUpdates updates now task]>
                         (TaskService.tasks this)) = map Task.id (TaskService.tasks this))
    by (apply (map_insert_same Task.id _ i task); auto using applyUpdates_id).
  assert (map Task.createdAt (<[i := TaskService.applyUpdates updates now task]>
                                (TaskService.tasks this)) =
          map Task.createdAt (TaskService.tasks this))
    by (apply (map_insert_same Task.createdAt _ i task); auto).
  assert (map Task.id (<[i := Task.markComplete now task]> (TaskService.tasks this)) =
          map Task.id (TaskService.tasks this))
    by (apply (map_insert_same Task.id _ i task); auto).
  assert (map Task.createdAt (<[i := Task.markComplete now task]> (TaskService.tasks this)) =
          map Task.createdAt (TaskService.tasks this))
    by (apply (map_insert_same Task.createdAt _ i task); auto).
  case_if; simpl; auto 10.
Qed.

(** ** [sanitizeString] and [sanitizeEmail] *)

Lemma trimStart_fixed (s : string) : startsWithSpace s = false -> trimStart s = s.
Proof. destruct s as [|c s]; simpl; [reflexivity | now intros ->]. Qed.

Lemma trimStart_starts (s : string) : startsWithSpace (trimStart s) = false.
Proof.
  induction s as [|c s IH]; simpl; [reflexivity |].
  destruct (isWhiteSpace c) eqn:E; [assumption | simpl; assumption].
Qed.

Lemma trimEnd_fixed (s : string) : endsWithSpace s = false -> trimEnd s = s.
Proof.
  induction s as [|c s IH]; [reflexivity |].
  cbn [endsWithSpace trimEnd]. destruct s as [|d s].
  - simpl. now intros ->.
  - intros H. rewrite (IH H). reflexivity.
Qed.

Lemma trimEnd_ends (s : string) : endsWithSpace (trimEnd s) = false.
Proof.
  induction s as [|c s IH]; [reflexivity |].
  cbn [trimEnd]. destruct (trimEnd s) as [|d r].
  - destruct (isWhiteSpace c) eqn:E; simpl; [reflexivity | assumption].
  - exact IH.
Qed.

Lemma trimEnd_starts (s : string) :
  startsWithSpace s = false -> startsWithSpace (trimEnd s) = false.
Proof.
  destruct s as [|c s]; [reflexivity |]. cbn [startsWithSpace trimEnd]. intros E.
  destruct (trimEnd s); [rewrite E |]; simpl; auto.
Qed.

Lemma trim_fixed (s : string) :
  startsWithSpace s = false -> endsWithSpace s = false -> trim s = s.
Proof. intros H1 H2. unfold trim. rewrite (trimStart_fixed s H1). now apply trimEnd_fixed. Qed.

Lemma trim_starts (s : string) : startsWithSpace (trim s) = false.
Proof. apply trimEnd_starts, trimStart_starts. Qed.

Lemma trim_ends (s : string) : endsWithSpace (trim s) = false.
Proof. apply trimEnd_ends. Qed.

Lemma endsWithSpace_cons (c : ascii) (s : string) :
  endsWithSpace (String c s) = if String.eqb s "" then isWhiteSpace c else endsWithSpace s.
Proof. destruct s; reflexivity. Qed.

Lemma replaceSpaceRuns_starts (s : string) :
  startsWithSpace (replaceSpaceRuns true s) = false.
Proof.
  induction s as [|c s IH]; simpl; [reflexivity |].
  destruct (isWhiteSpace c) eqn:E; [assumption | simpl; assumption].
Qed.

Lemma replaceSpaceRuns_starts_false (s : string) :
  startsWithSpace (replaceSpaceRuns false s) = startsWithSpace s.
Proof.
  destruct s as [|c s]; simpl; [reflexivity |].
  destruct (isWhiteSpace c) eqn:E; simpl; [reflexivity | assumption].
Qed.

Lemma replaceSpaceRuns_empty (b : bool) (s : string) :
  replaceSpaceRuns b s = "" -> s <> "" -> endsWithSpace s = true.
Proof.
  revert b. induction s as [|c s IH]; intros b; [intros _ H; now elim H |].
  cbn [replaceSpaceRuns]. destruct (isWhiteSpace c) eqn:E; [|discriminate].
  destruct b; [|discriminate]. intros H _. rewrite endsWithSpace_cons.
  destruct s as [|d s]; [exact E |]. simpl String.eqb. cbv iota.
  apply (IH true H). discriminate.
Qed.

Lemma replaceSpaceRuns_ends (b : bool) (s : string) :
  endsWithSpace s = false -> endsWithSpace (replaceSpaceRuns b s) = false.
Proof.
  revert b. induction s as [|c s IH]; intros b; [reflexivity |].
  rewrite endsWithSpace_cons. destruct s as [|d s].
  - simpl String.eqb. cbv iota. intros E. cbn [replaceSpaceRuns]. rewrite E.
    cbn [endsWithSpace]. exact E.
  - simpl String.eqb. cbv iota. remember (String d s) as t eqn:Et. intros H.
    assert (forall b', replaceSpaceRuns b' t <> "") as Hne.
    { intros b' Hr. apply replaceSpaceRuns_empty in Hr; [congruence | subst t; discriminate]. }
    cbn [replaceSpaceRuns]. destruct (isWhiteSpace c) eqn:E.
    + destruct b; [now apply IH |].
      rewrite endsWithSpace_cons.
      destruct (String.eqb_spec (replaceSpaceRuns true t) "") as [Hr|Hr];
        [now elim (Hne true) | now apply IH].
    + rewrite endsWithSpace_cons.
      destruct (String.eqb_spec (replaceSpaceRuns false t) "") as [Hr|Hr];
        [now elim (Hne false) | now apply IH].
Qed.

Lemma replaceSpaceRuns_spaces (b : bool) (s : string) :
  string_forall spaceOrInk (replaceSpaceRuns b s) = true.
Proof.
  revert b. induction s as [|c s IH]; intros b; [reflexivity |].
  cbn [replaceSpaceRuns]. destruct (isWhiteSpace c) eqn:E.
  - destruct b; [apply IH |]. cbn [string_forall]. now rewrite IH.
  - cbn [string_forall]. rewrite IH. unfold spaceOrInk. now rewrite E.
Qed.

Lemma replaceSpaceRuns_adjacent (b : bool) (s : string) :
  adjacentSpaces (replaceSpaceRuns b s) = false.
Proof.
  revert b. induction s as [|c s IH]; intros b; [reflexivity |].
  cbn [replaceSpaceRuns]. destruct (isWhiteSpace c) eqn:E.
  - destruct b; [apply IH |]. cbn [adjacentSpaces].
    now rewrite replaceSpaceRuns_starts, IH, andb_false_r.
  - cbn [adjacentSpaces]. now rewrite E, IH.
Qed.

Lemma whiteSpace_space (c : ascii) :
  isWhiteSpace c = true -> spaceOrInk c = true -> c = " "%char.
Proof.
  unfold spaceOrInk. intros ->. simpl. apply Ascii.eqb_eq.
Qed.

Lemma replaceSpaceRuns_fixed (b : bool) (s : string) :
  (b = true -> startsWithSpace s = false) ->
  string_forall spaceOrInk s = true -> adjacentSpaces s = false ->
  replaceSpaceRuns b s = s.
Proof.
  revert b. induction s as [|c s IH]; intros b Hb Hall Hadj; [reflexivity |].
  cbn [string_forall] in Hall. apply andb_true_iff in Hall as [Hc Hall].
  cbn [adjacentSpaces] in Hadj. apply orb_false_iff in Hadj as [Hcs Hadj].
  cbn [replaceSpaceRuns]. destruct (isWhiteSpace c) eqn:E.
  - destruct b; [specialize (Hb eq_refl); simpl in Hb; congruence |].
    rewrite (whiteSpace_space c E Hc). f_equal. apply IH; auto.
  - f_equal. apply IH; auto. discriminate.
Qed.

Lemma ink_trimStart (s : string) : ink (trimStart s) = ink s.
Proof.
  induction s as [|c s IH]; [reflexivity |]. simpl.
  destruct (isWhiteSpace c) eqn:E; [assumption | simpl; now rewrite E].
Qed.

Lemma ink_trimEnd (s : string) : ink (trimEnd s) = ink s.
Proof.
  induction s as [|c s IH]; [reflexivity |]. cbn [trimEnd ink].
  destruct (trimEnd s) as [|d r].
  - rewrite <- IH. destruct (isWhiteSpace c) eqn:E; simpl; [|rewrite E]; reflexivity.
  - rewrite <- IH. reflexivity.
Qed.

Lemma ink_replaceSpaceRuns (b : bool) (s : string) : ink (replaceSpaceRuns b s) = ink s.
Proof.
  revert b. induction s as [|c s IH]; intros b; [reflexivity |].
  cbn [replaceSpaceRuns ink]. destruct (isWhiteSpace c) eqn:E.
  - destruct b; [apply IH |]. cbn [ink].
    change (isWhiteSpace " ") with true. cbv iota. apply IH.
  - cbn [ink]. now rewrite E, IH.
Qed.

Lemma sanitizeString_normalized (input : string) :
  normalized (Validators.sanitizeString input).
Proof.
  unfold normalized, Validators.sanitizeString. repeat split.
  - rewrite replaceSpaceRuns_starts_false. apply trim_starts.
  - apply replaceSpaceRuns_ends, trim_ends.
  - apply replaceSpaceRuns_spaces.
  - apply replaceSpaceRuns_adjacent.
Qed.

Lemma sanitizeString_fixed (s : string) :
  normalized s -> Validators.sanitizeString s = s.
Proof.
  intros (H1 & H2 & H3 & H4). unfold Validators.sanitizeString.
  rewrite (trim_fixed s H1 H2). apply replaceSpaceRuns_fixed; auto; discriminate.
Qed.

(** X17.  [sanitizeString] normalises the white space of a text.  Its
    result has no white space at either end, no white space other than the
    plain space and no two spaces in a row; the other code units are those
    of the input, in the same order.  A text that is already in this form
    is returned as it is, so sanitising twice is sanitising once. *)
Theorem sanitizeString_normalizes (input : string) :
  normalized (Validators.sanitizeString input) /\
  trim (Validators.sanitizeString input) = Validators.sanitizeString input /\
  ink (Validators.sanitizeString input) = ink input /\
  (normalized input <-> Validators.sanitizeString input = input) /\
  Validators.sanitizeString (Validators.sanitizeString input) =
    Validators.sanitizeString input.
Proof.
  pose proof (sanitizeString_normalized input) as Hn.
  split; [exact Hn |].
  split; [destruct Hn as (H1 & H2 & _); now apply trim_fixed |].
  split.
  { unfold Validators.sanitizeString, trim.
    now rewrite ink_replaceSpaceRuns, ink_trimEnd, ink_trimStart. }
  split.
  - split; [apply sanitizeString_fixed | intros <-; exact Hn].
  - now apply sanitizeString_fixed.
Qed.























(** ** The users of the service *)

Lemma user_create_shape (userData : CreateUserInput.t) (createdBy : option User.t)
    (now : Z) (this : UserService.t) :
  snd (UserService.create userData createdBy now this) = this \/
  (storedEmail (CreateUserInput.email userData) this = None /\
   (snd (UserService.create userData createdBy now this) =
      {| UserService.users := UserService.users this;
         UserService.nextId := S (UserService.nextId this) |} \/
    snd (UserService.create userData createdBy now this) =
      {| UserService.users :=
           UserService.users this ++ [User.constructor userData (nextUserId this) now];
         UserService.nextId := S (UserService.nextId this) |})).
Proof.
  unfold UserService.create, storedEmail, nextUserId.
  case_if; [now left |].
  destruct (find _ _) eqn:Hf; [now left |]. right. split; [reflexivity |].
  unfold UserService.generateId. cbn [UserService.users UserService.nextId].
  case_if; [left | right]; reflexivity.
Qed.

Lemma find_none_insert {A : Type} (p : A -> bool) (l : list A) (i : nat) (x y : A) :
  l !! i = Some x -> p y = p x -> find p (<[i := y]> l) = None -> find p l = None.
Proof.
  revert i. induction l as [|z l IH]; intros [|i]; simpl; try discriminate.
  - intros [= ->] ->. destruct (p x); [discriminate | auto].
  - intros Hi Hp. destruct (p z); [auto | now apply (IH i)].
Qed.

Lemma user_update_shape (id : string) (updates : PartialIUser.t) (updatedBy : option User.t)
    (now : Z) (this : UserService.t) :
  snd (UserService.update id updates updatedBy now this) = this \/
  exists (i : nat) (user user' : User.t),
    findIndex (fun u => String.eqb (User.id u) id) (UserService.users this) = Some i /\
    UserService.users this !! i = Some user /\
    snd (UserService.update id updates updatedBy now this) =
      {| UserService.users := <[i := user']> (UserService.users this);
         UserService.nextId := UserService.nextId this |} /\
    User.id user' = User.id user /\
    User._isLocked user' = User._isLocked user /\
    User._loginAttempts user' = User._loginAttempts user /\
    (User.email user' = User.email user \/
     find (fun u => String.eqb (User.email u) (User.email user') &&
                    negb (String.eqb (User.id u) id)) (UserService.users this) = None) /\
    (PartialIUser.role updates = None -> User.role user' = User.role user).
Proof.
  unfold UserService.update.
  destruct (findIndex _ _) as [i|] eqn:Hi; [|now left].
  destruct (UserService.users this !! i) as [user|] eqn:Hu; [|now left].
  case_if; [now left |]. case_if; [now left |].
  right. exists i, user. cbn [UserService.users UserService.nextId].
  set (named := match PartialIUser.name updates with
                | Some n => User.set_name n user | None => user end).
  assert (User.id named = User.id user /\ User.email named = User.email user /\
          User.role named = User.role user /\ User._isLocked named = User._isLocked user /\
          User._loginAttempts named = User._loginAttempts user) as (Nid & Nem & Nro & Nlo & Nat)
    by (unfold named; destruct (PartialIUser.name updates); repeat split; reflexivity).
  destruct (PartialIUser.email updates) as [e|] eqn:He.
  - destruct (find _ _) as [other|] eqn:Hf.
    + exists named. cbn [snd]. intuition congruence.
    + apply (find_none_insert _ _ i user named Hu) in Hf;
        [|cbv beta; now rewrite Nid, Nem].
      eexists. split; [first [exact Hi | reflexivity] |]. split; [exact Hu |].
      split; [case_if; cbn [snd]; rewrite list_insert_insert_eq; reflexivity |].
      destruct (PartialIUser.role updates), (PartialIUser.isActive updates),
        (PartialIUser.preferences updates); cbn;
        (split; [assumption |]); (split; [assumption |]); (split; [assumption |]);
        (split; [right; exact Hf |]); first [discriminate | intros _; assumption].
  - eexists. split; [first [exact Hi | reflexivity] |]. split; [exact Hu |].
    split; [case_if; cbn [snd]; rewrite list_insert_insert_eq; reflexivity |].
    destruct (PartialIUser.role updates), (PartialIUser.isActive updates),
      (PartialIUser.preferences updates); cbn;
      (split; [assumption |]); (split; [assumption |]); (split; [assumption |]);
      (split; [left; assumption |]); first [discriminate | intros _; assumption].
Qed.

Lemma in_insert {A : Type} (l : list A) (i : nat) (y z : A) :
  In z (<[i := y]> l) -> z = y \/ In z l.
Proof.
  revert i. induction l as [|a l IH]; intros [|i]; simpl; intuition.
  destruct (IH i H0); auto.
Qed.

Lemma NoDup_map_lookup {A B : Type} (f : A -> B) (l : list A) (i j : nat) (x y : A) :
  List.NoDup (map f l) -> l !! i = Some x -> l !! j = Some y -> f x = f y -> i = j.
Proof.
  revert i j. induction l as [|a l IH]; intros i j Hnd; [discriminate |].
  inversion Hnd as [|? ? Ha Hnd']; subst.
  assert (forall k z, l !! k = Some z -> In (f z) (map f l)) as Hin.
  { intros k z Hk. apply in_map. eapply list_elem_of_In, list_elem_of_lookup_2, Hk. }
  destruct i as [|i], j as [|j]; simpl; intros Hi Hj Hf.
  - reflexivity.
  - injection Hi as ->. elim Ha. rewrite Hf. eapply Hin, Hj.
  - injection Hj as ->. elim Ha. rewrite <- Hf. eapply Hin, Hi.
  - f_equal. eapply IH; eauto.
Qed.

Lemma NoDup_map_insert {A B : Type} (f : A -> B) (l : list A) (i : nat) (y : A) :
  List.NoDup (map f l) ->
  (forall j z, l !! j = Some z -> j <> i -> f z <> f y) ->
  List.NoDup (map f (<[i := y]> l)).
Proof.
  revert i. induction l as [|a l IH]; intros i Hnd Hy; [destruct i; constructor |].
  inversion Hnd as [|? ? Ha Hnd']; subst. destruct i as [|i]; simpl.
  - apply List.NoDup_cons; [|assumption].
    intros Hin. apply in_map_iff in Hin as (z & Hz & Hin).
    apply list_elem_of_In, list_elem_of_lookup_1 in Hin as (j & Hj).
    apply (Hy (S j) z Hj); [discriminate | assumption].
  - apply List.NoDup_cons.
    + intros Hin. apply in_map_iff in Hin as (z & Hz & Hin).
      apply in_insert in Hin as [-> | Hin].
      * apply (Hy 0%nat a eq_refl); [discriminate | now symmetry].
      * apply Ha. rewrite <- Hz. now apply in_map.
    + apply IH; [assumption |]. intros j z Hj Hne. apply (Hy (S j) z Hj). congruence.
Qed.

Lemma user_create_numbered (userData : CreateUserInput.t) (createdBy : option User.t)
    (now : Z) (this : UserService.t) :
  numberedUsers this ->
  numberedUsers (snd (UserService.create userData createdBy now this)).
Proof.
  intros (Hf & Hid & Hem).
  assert (Forall (fun u => exists k, (k < S (UserService.nextId this))%nat /\
                                     User.id u = "user_" +:+ numToString k)
                 (UserService.users this)) as Hf'.
  { eapply Forall_impl; [exact Hf |]. intros t (k & Hk & E). exists k. split; [lia | auto]. }
  destruct (user_create_shape userData createdBy now this) as [-> | [Hnew [-> | ->]]].
  - repeat split; assumption.
  - repeat split; assumption.
  - split; [|split]; cbn [UserService.users UserService.nextId].
    + apply Forall_app. split; [assumption |]. constructor; [|constructor].
      exists (UserService.nextId this). split; [lia | reflexivity].
    + rewrite map_app. simpl.
      eapply Permutation_NoDup; [apply Permutation_cons_append |].
      apply List.NoDup_cons; [|assumption].
      intros Hin. apply in_map_iff in Hin as (u & Hu & Hin).
      rewrite List.Forall_forall in Hf. destruct (Hf u Hin) as (k & Hk & E).
      unfold nextUserId in Hu. rewrite E in Hu.
      apply append_inj_r, numToString_inj in Hu. lia.
    + rewrite map_app. simpl.
      eapply Permutation_NoDup; [apply Permutation_cons_append |].
      apply List.NoDup_cons; [|assumption].
      intros Hin. apply in_map_iff in Hin as (u & Hu & Hin).
      unfold storedEmail in Hnew. pose proof (find_none _ _ Hnew u Hin) as Hq.
      cbv beta in Hq. apply String.eqb_neq in Hq. auto.
Qed.

Lemma user_update_numbered (id : string) (updates : PartialIUser.t)
    (updatedBy : option User.t) (now : Z) (this : UserService.t) :
  numberedUsers this ->
  numberedUsers (snd (UserService.update id updates updatedBy now this)).
Proof.
  intros (Hf & Hid & Hem).
  destruct (user_update_shape id updates updatedBy now this)
    as [-> | (i & user & user' & Hi & Hu & -> & Eid & _ & _ & Eem & _)];
    [repeat split; assumption |].
  destruct (findIndex_lookup _ _ _ Hi) as (x & Hx & Hp).
  assert (x = user) by congruence. subst x. apply String.eqb_eq in Hp.
  split; [|split]; cbn [UserService.users UserService.nextId].
  - apply Forall_insert; [assumption |]. rewrite Eid.
    apply (Forall_lookup_1 _ _ _ _ Hf Hu).
  - now rewrite (map_insert_same User.id _ i user user').
  - destruct Eem as [Eem | Eem]; [now rewrite (map_insert_same User.email _ i user user') |].
    apply NoDup_map_insert; [assumption |].
    intros j z Hj Hne Hz.
    assert (In z (UserService.users this)) as Hin
      by (eapply list_elem_of_In, list_elem_of_lookup_2, Hj).
    pose proof (find_none _ _ Eem z Hin) as Hq. cbv beta in Hq.
    apply andb_false_iff in Hq as [Hq | Hq].
    + apply String.eqb_neq in Hq. auto.
    + apply negb_false_iff, String.eqb_eq in Hq.
      apply Hne. apply (NoDup_map_lookup User.id _ j i z user Hid Hj Hu). congruence.
Qed.

Lemma user_delete_shape (id : string) (deletedBy : option User.t) (now : Z)
    (this : UserService.t) :
  snd (UserService.delete id deletedBy now this) = this \/
  exists i, snd (UserService.delete id deletedBy now this) =
            {| UserService.users := base.delete i (UserService.users this);
               UserService.nextId := UserService.nextId this |}.
Proof.
  unfold UserService.delete.
  destruct (findIndex _ _) as [i|]; [|now left].
  destruct (UserService.users this !! i) as [user|]; [|now left].
  case_if; [now left |]. case_if; [now left |]. right. now exists i.
Qed.

Lemma user_authenticate_shape (email password : string) (now : Z) (this : UserService.t) :
  snd (UserService.authenticate email password now this) = this \/
  exists i user,
    UserService.users this !! i = Some user /\
    snd (UserService.authenticate email password now this) =
      {| UserService.users := <[i := User.recordLogin now user]> (UserService.users this);
         UserService.nextId := UserService.nextId this |}.
Proof.
  unfold UserService.authenticate.
  destruct (findIndex _ _) as [i|]; [|now left].
  destruct (UserService.users this !! i) as [user|] eqn:Hu; [|now left].
  case_if; [now left |]. case_if; [now left |]. right. now exists i, user.
Qed.

Lemma runUserCall_numbered (call : UserCall) (now : Z) (this : UserService.t) :
  isClear call = false -> numberedUsers this -> numberedUsers (runUserCall call now this).
Proof.
  destruct call as [userData createdBy | id updates updatedBy | id deletedBy
                   | email password |]; simpl; intros Hc Hn; try discriminate.
  - now apply user_create_numbered.
  - now apply user_update_numbered.
  - destruct (user_delete_shape id deletedBy now this) as [-> | [i ->]]; [assumption |].
    destruct Hn as (Hf & Hid & Hem). split; [|split]; cbn [UserService.users].
    + now apply Forall_delete.
    + rewrite map_delete. apply NoDup_ListNoDup.
      apply (sublist_NoDup _ (map User.id (UserService.users this)));
        [apply NoDup_ListNoDup; exact Hid | apply sublist_delete].
    + rewrite map_delete. apply NoDup_ListNoDup.
      apply (sublist_NoDup _ (map User.email (UserService.users this)));
        [apply NoDup_ListNoDup; exact Hem | apply sublist_delete].
  - destruct (user_authenticate_shape email password now this)
      as [-> | (i & user & Hu & ->)]; [assumption |].
    destruct Hn as (Hf & Hid & Hem). split; [|split]; cbn [UserService.users].
    + apply Forall_insert; [assumption |]. apply (Forall_lookup_1 _ _ _ _ Hf Hu).
    + now rewrite (map_insert_same User.id _ i user).
    + now rewrite (map_insert_same User.email _ i user).
Qed.

Lemma constructor_numbered (start : Z) : numberedUsers (UserService.constructor start).
Proof.
  split; [|split]; simpl.
  - constructor; [|constructor]. exists 1%nat. split; [lia | reflexivity].
  - apply List.NoDup_cons; [simpl; tauto | apply List.NoDup_nil].
  - apply List.NoDup_cons; [simpl; tauto | apply List.NoDup_nil].
Qed.

(** X19.  Without [clear], identifiers and email addresses are unique.
    Start from [new UserService()] and call [create], [update], [delete]
    and [authenticate] in any order with any arguments: no two users of
    the service have the same identifier, and no two have the same email
    address. *)
Theorem users_unique_without_clear (calls : list (UserCall * Z)) (start : Z) :
  withoutClear calls = true ->
  List.NoDup (map User.id (UserService.users
                (runUserCalls calls (UserService.constructor start)))) /\
  List.NoDup (map User.email (UserService.users
                (runUserCalls calls (UserService.constructor start)))).
Proof.
  intros Hc.
  assert (forall this, numberedUsers this -> numberedUsers (runUserCalls calls this)) as Hgen.
  { induction calls as [|[call now] calls IH]; intros this H; [assumption |].
    unfold withoutClear in Hc. cbn [forallb fst] in Hc.
    apply andb_true_iff in Hc as [Hcall Hc]. apply negb_true_iff in Hcall.
    cbn [runUserCalls]. apply (IH Hc). now apply runUserCall_numbered. }
  apply (Hgen _ (constructor_numbered start)).
Qed.

(** A registration, a login, a change of address and a deletion. *)
Lemma users_unique_without_clear_witness :
  let calls :=
    [(UserCreate guestInput None, 1%Z);
     (UserAuthenticate "guest@taskmanager.com" "secret", 2%Z);
     (UserUpdate "user_2" (emailUpdate "visitor@taskmanager.com") None, 3%Z);
     (UserDelete "user_2" None, 4%Z)] in
  List.NoDup (map User.id (UserService.users
                (runUserCalls calls (UserService.constructor 0)))) /\
  List.NoDup (map User.email (UserService.users
                (runUserCalls calls (UserService.constructor 0)))).
Proof.
  cbv zeta. apply users_unique_without_clear. reflexivity.
Defined.

(** X20.  [clear] resets the counter to 2 whatever the identifier of the
    administrator it keeps.  When that administrator is [user_2], the
    next successful [create] gives the same identifier to the new user:
    the service then holds two users with one identifier. *)
Theorem clear_reuses_identifiers (this : UserService.t) (admin : User.t)
    (userData : CreateUserInput.t) (createdBy : option User.t) (now : Z) :
  find (fun u => bool_decide (User.role u = ADMIN)) (UserService.users this) = Some admin ->
  User.id admin = "user_2" ->
  success (fst (UserService.create userData createdBy now (UserService.clear this))) = true ->
  UserService.users (snd (UserService.create userData createdBy now (UserService.clear this)))
    = [admin; User.constructor userData "user_2" now] /\
  ~ List.NoDup (map User.id
      (UserService.users
         (snd (UserService.create userData createdBy now (UserService.clear this))))).
Proof.
  intros Hadmin Hid. unfold UserService.clear. rewrite Hadmin.
  unfold UserService.create, UserService.generateId.
  cbn [UserService.users UserService.nextId].
  repeat (case_if; cbn [fst snd success failure]; try discriminate).
  intros _. cbn [UserService.users]. split; [reflexivity |].
  unfold push. simpl. rewrite Hid. intros Hnd.
  inversion Hnd as [|? ? Hin _]. apply Hin. now left.
Qed.

(** The default administrator was replaced by [user_2] before [clear];
    then a guest registers. *)
Lemma clear_reuses_identifiers_witness :
  UserService.users (snd (UserService.create guestInput None 3
                            (UserService.clear adminReplaced)))
    = [rootAdmin; User.constructor guestInput "user_2" 3] /\
  ~ List.NoDup (map User.id
      (UserService.users
         (snd (UserService.create guestInput None 3 (UserService.clear adminReplaced))))).
Proof.
  apply (clear_reuses_identifiers adminReplaced rootAdmin guestInput None 3);
    vm_compute; reflexivity.
Defined.

Lemma findIndex_find_none {A : Type} (p : A -> bool) (l : list A) :
  find p l = None -> findIndex p l = None.
Proof.
  induction l as [|x l IH]; simpl; [reflexivity |].
  destruct (p x); [discriminate |]. intros H. now rewrite (IH H).
Qed.

Lemma authenticate_cases (email password : string) (now : Z) (this : UserService.t) :
  UserService.authenticate email password now this =
  match storedEmail email this with
  | None => (failure "Invalid credentials" now, this)
  | Some user =>
      if negb (User.isActive user) then (failure "Account is deactivated" now, this)
      else if User.isLocked user then
        (failure "Account is locked due to too many failed login attempts" now, this)
      else
        (ok (User.recordLogin now user) now,
         match findIndex (fun u => String.eqb (User.email u) email)
                         (UserService.users this) with
         | Some i =>
             {| UserService.users :=
                  <[i := User.recordLogin now user]> (UserService.users this);
                UserService.nextId := UserService.nextId this |}
         | None => this
         end)
  end.
Proof.
  unfold UserService.authenticate, storedEmail.
  destruct (find _ _) as [user|] eqn:Hf.
  - destruct (findIndex_find _ _ _ Hf) as (i & -> & ->). reflexivity.
  - now rewrite (findIndex_find_none _ _ Hf).
Qed.

Lemma runUserCall_unlocked (call : UserCall) (now : Z) (this : UserService.t) :
  unlocked this -> unlocked (runUserCall call now this).
Proof.
  unfold unlocked.
  destruct call as [userData createdBy | id updates updatedBy | id deletedBy
                   | email password |]; simpl; intros Hn.
  - destruct (user_create_shape userData createdBy now this) as [-> | [_ [-> | ->]]];
      try assumption.
    cbn [UserService.users]. apply Forall_app. split; [assumption |].
    constructor; [split; reflexivity | constructor].
  - destruct (user_update_shape id updates updatedBy now this)
      as [-> | (i & user & user' & _ & Hu & -> & _ & Elo & Eat & _)]; [assumption |].
    cbn [UserService.users]. apply Forall_insert; [assumption |].
    unfold User.isLocked, User.loginAttempts. rewrite Elo, Eat.
    apply (Forall_lookup_1 _ _ _ _ Hn Hu).
  - destruct (user_delete_shape id deletedBy now this) as [-> | [i ->]]; [assumption |].
    cbn [UserService.users]. now apply Forall_delete.
  - destruct (user_authenticate_shape email password now this)
      as [-> | (i & user & Hu & ->)]; [assumption |].
    cbn [UserService.users]. apply Forall_insert; [assumption |]. split; reflexivity.
  - unfold UserService.clear. destruct (find _ _) as [admin|] eqn:Hf; simpl; [|constructor].
    constructor; [|constructor]. apply find_some in Hf as [Hin _].
    rewrite List.Forall_forall in Hn. now apply Hn.
Qed.

(** X21.  The service never locks an account.  Start from
    [new UserService()] and call [create], [update], [delete],
    [authenticate] and [clear] in any order: no user is locked and no
    failed login is counted.  So [authenticate] never answers that the
    account is locked: it succeeds exactly when the first user with the
    email address is active, whatever the password, and then stamps the
    login on that user. *)
Theorem service_never_locks (calls : list (UserCall * Z)) (start : Z)
    (email password : string) (now : Z) :
  let this := runUserCalls calls (UserService.constructor start) in
  let response := fst (UserService.authenticate email password now this) in
  unlocked this /\
  ~ saysLocked response /\
  (success response = true <->
   exists user, storedEmail email this = Some user /\ User.isActive user = true) /\
  (forall user, storedEmail email this = Some user -> User.isActive user = true ->
     data response = Some (User.recordLogin now user)) /\
  (forall other, UserService.authenticate email other now this =
                 UserService.authenticate email password now this).
Proof.
  cbv zeta.
  assert (forall this, unlocked this -> unlocked (runUserCalls calls this)) as Hgen.
  { induction calls as [|[call t] calls IH]; intros this H; [assumption |].
    cbn [runUserCalls]. apply IH. now apply runUserCall_unlocked. }
  assert (unlocked (runUserCalls calls (UserService.constructor start))) as Hun.
  { apply Hgen. unfold unlocked. simpl. constructor; [split; reflexivity | constructor]. }
  split; [exact Hun |].
  assert (forall user, storedEmail email (runUserCalls calls (UserService.constructor start))
                       = Some user -> User.isLocked user = false) as Hlock.
  { intros user Hf. apply find_some in Hf as [Hin _].
    unfold unlocked in Hun. rewrite List.Forall_forall in Hun. now apply Hun. }
  assert (forall other,
            UserService.authenticate email other now
              (runUserCalls calls (UserService.constructor start)) =
            UserService.authenticate email password now
              (runUserCalls calls (UserService.constructor start))) as Hpw
    by (intros other; now rewrite !authenticate_cases).
  match goal with
  | |- ?A /\ ?B /\ ?C /\ _ =>
      enough (A /\ B /\ C) as (G1 & G2 & G3)
        by (split; [exact G1 | split; [exact G2 | split; [exact G3 | exact Hpw]]])
  end.
  rewrite authenticate_cases.
  destruct (storedEmail email _) as [user|] eqn:Hf; cbn [fst].
  - rewrite (Hlock user eq_refl).
    destruct (User.isActive user) eqn:Ea; unfold saysLocked;
      cbn [negb fst success data error ok failure].
    + split; [discriminate |]. split; [split; [eauto | reflexivity] |].
      intros u [= <-] _; reflexivity.
    + split; [intros [= H] |].
      split; [split; [discriminate | intros (u & [= <-] & H); congruence] |].
      intros u [= <-] H; congruence.
  - unfold saysLocked. cbn [error failure success data].
    split; [intros [= H] |].
    split; [split; [discriminate | intros (u & H & _); discriminate] |].
    intros u H; discriminate.
Qed.

(** X22.  What [update] refuses.  An updater who is not an administrator
    never changes a role: after the call every user has the role they had.
    An updater who is neither the target nor able to manage users changes
    nothing at all, and is told so. *)
Theorem user_update_permissions (id : string) (updates : PartialIUser.t) (by_ : User.t)
    (now : Z) (this : UserService.t) :
  User.isAdmin by_ = false ->
  map User.role
      (UserService.users (snd (UserService.update id updates (Some by_) now this))) =
    map User.role (UserService.users this) /\
  (String.eqb (User.id by_) id = false -> User.canManageUsers by_ = false ->
   success (fst (UserService.update id updates (Some by_) now this)) = false /\
   snd (UserService.update id updates (Some by_) now this) = this).
Proof.
  intros Hadmin. split.
  - destruct (PartialIUser.role updates) as [r|] eqn:Hr.
    + unfold UserService.update.
      destruct (findIndex _ _) as [i|]; [|reflexivity].
      destruct (UserService.users this !! i) as [user|]; [|reflexivity].
      rewrite Hr, Hadmin. cbn [negb]. case_if; reflexivity.
    + destruct (user_update_shape id updates (Some by_) now this)
        as [-> | (i & user & user' & _ & Hu & -> & _ & _ & _ & _ & Hrole)]; [reflexivity |].
      cbn [UserService.users]. apply (map_insert_same User.role _ i user user' Hu).
      now apply Hrole.
  - intros Hself Hmanage. unfold UserService.update.
    destruct (findIndex _ _) as [i|]; [|split; reflexivity].
    destruct (UserService.users this !! i) as [user|]; [|split; reflexivity].
    rewrite Hself, Hmanage. split; reflexivity.
Qed.

(** A plain user tries to make the default administrator a guest. *)
Lemma user_update_permissions_witness :
  map User.role
      (UserService.users
         (snd (UserService.update "user_1" (roleUpdate GUEST) (Some plainUser) 9
                 (UserService.constructor 0)))) =
    map User.role (UserService.users (UserService.constructor 0)) /\
  (String.eqb (User.id plainUser) "user_1" = false ->
   User.canManageUsers plainUser = false ->
   success (fst (UserService.update "user_1" (roleUpdate GUEST) (Some plainUser) 9
                   (UserService.constructor 0))) = false /\
   snd (UserService.update "user_1" (roleUpdate GUEST) (Some plainUser) 9
          (UserService.constructor 0)) = UserService.constructor 0).
Proof.
  apply (user_update_permissions "user_1" (roleUpdate GUEST) plainUser 9
           (UserService.constructor 0)).
  reflexivity.
Defined.

Lemma user_getById_find (id : string) (now : Z) (this : UserService.t) :
  UserService.getById id now this =
  match storedUser id this with
  | None => failure (UserService.notFound id) now
  | Some user => ok user now
  end.
Proof. reflexivity. Qed.

Lemma user_getByEmail_find (email : string) (now : Z) (this : UserService.t) :
  UserService.getByEmail email now this =
  match storedEmail email this with
  | None => failure ("User with email " +:+ email +:+ " not found") now
  | Some user => ok user now
  end.
Proof. reflexivity. Qed.

(** X23.  [create] and the two lookups.  On a service with generated,
    distinct identifiers, [create] succeeds exactly when the creator, if
    one is given, can manage users, no user has the email address, and the
    new user passes [User.validate].  Then the new user is appended, is
    active, has the role asked for or else USER, and is what [getById]
    returns for the new identifier and [getByEmail] for the address.
    When [create] fails the users are unchanged. *)
Theorem user_create_then_lookup (userData : CreateUserInput.t) (createdBy : option User.t)
    (now later : Z) (this : UserService.t) :
  numberedUsers this ->
  let user := User.constructor userData (nextUserId this) now in
  let response := fst (UserService.create userData createdBy now this) in
  let after := snd (UserService.create userData createdBy now this) in
  (success response = true <->
   restricted createdBy = false /\
   storedEmail (CreateUserInput.email userData) this = None /\
   isValid (User.validate user) = true) /\
  (success response = true ->
   data response = Some user /\
   UserService.users after = UserService.users this ++ [user] /\
   User.isActive user = true /\
   User.role user = default USER (CreateUserInput.role userData) /\
   UserService.getById (nextUserId this) later after = ok user later /\
   UserService.getByEmail (CreateUserInput.email userData) later after = ok user later) /\
  (success response = false -> UserService.users after = UserService.users this).
Proof.
  intros (Hf & _ & _). cbv zeta.
  assert (forall u, In u (UserService.users this) -> User.id u <> nextUserId this) as Hfresh.
  { intros u Hin Heq. rewrite List.Forall_forall in Hf.
    destruct (Hf u Hin) as (k & Hk & E). unfold nextUserId in Heq. rewrite E in Heq.
    apply append_inj_r, numToString_inj in Heq. lia. }
  unfold UserService.create, UserService.generateId, restricted.
  fold (storedEmail (CreateUserInput.email userData) this). fold (nextUserId this).
  cbn [UserService.users UserService.nextId].
  destruct (match createdBy with Some c => negb (User.canManageUsers c) | None => false end)
    eqn:Hperm; cbn [fst snd success failure].
  { split; [split; [discriminate | intros (H & _); discriminate] |].
    split; [discriminate | reflexivity]. }
  destruct (storedEmail (CreateUserInput.email userData) this) as [other|] eqn:Hem;
    cbn [fst snd success failure].
  { split; [split; [discriminate | intros (_ & H & _); discriminate] |].
    split; [discriminate | reflexivity]. }
  destruct (isValid (User.validate (User.constructor userData (nextUserId this) now)))
    eqn:Hv; cbn [negb fst snd success data ok failure UserService.users].
  - split; [split; auto |]. split; [|discriminate]. intros _.
    split; [reflexivity |]. split; [reflexivity |]. split; [reflexivity |].
    split; [reflexivity |]. split.
    + rewrite user_getById_find. unfold storedUser, push. cbn [UserService.users].
      rewrite find_app_fresh; [reflexivity | | cbv beta; apply String.eqb_refl].
      intros y Hy. apply String.eqb_neq. now apply Hfresh.
    + rewrite user_getByEmail_find. unfold storedEmail, push. cbn [UserService.users].
      rewrite find_app_fresh; [reflexivity | | cbv beta; apply String.eqb_refl].
      intros y Hy. unfold storedEmail in Hem. apply (find_none _ _ Hem y Hy).
  - split; [split; [discriminate | intros (_ & _ & H); discriminate] |].
    split; [discriminate | reflexivity].
Qed.

(** A guest registers with the fresh service. *)
Lemma user_create_then_lookup_witness :
  let this := UserService.constructor 0 in
  let user := User.constructor guestInput (nextUserId this) 1 in
  let response := fst (UserService.create guestInput None 1 this) in
  let after := snd (UserService.create guestInput None 1 this) in
  (success response = true <->
   restricted None = false /\
   storedEmail (CreateUserInput.email guestInput) this = None /\
   isValid (User.validate user) = true) /\
  (success response = true ->
   data response = Some user /\
   UserService.users after = UserService.users this ++ [user] /\
   User.isActive user = true /\
   User.role user = default USER (CreateUserInput.role guestInput) /\
   UserService.getById (nextUserId this) 2 after = ok user 2 /\
   UserService.getByEmail (CreateUserInput.email guestInput) 2 after = ok user 2) /\
  (success response = false -> UserService.users after = UserService.users this).
Proof.
  apply (user_create_then_lookup guestInput None 1 2 (UserService.constructor 0)).
  split; [|split].
  - apply List.Forall_cons; [exists 1%nat; split; [vm_compute; lia | reflexivity] |].
    apply List.Forall_nil.
  - vm_compute. apply List.NoDup_cons; [simpl; tauto | apply List.NoDup_nil].
  - vm_compute. apply List.NoDup_cons; [simpl; tauto | apply List.NoDup_nil].
Defined.

(** X24.  What [delete] removes.  [delete] succeeds exactly when the
    identifier is found, the caller, if one is given, can manage users,
    and the user found is not the only administrator.  It then removes
    that user and nobody else, in place; otherwise the service is left as
    it is.  Either way a service with an administrator still has one. *)
Theorem user_delete_outcome (id : string) (deletedBy : option User.t) (now : Z)
    (this : UserService.t) :
  let response := fst (UserService.delete id deletedBy now this) in
  let after := snd (UserService.delete id deletedBy now this) in
  (success response = true <->
   exists user, storedUser id this = Some user /\ restricted deletedBy = false /\
                (User.role user = ADMIN -> (2 <= adminCount (UserService.users this))%nat)) /\
  (success response = true ->
   exists user, storedUser id this = Some user /\
                Permutation (UserService.users this) (user :: UserService.users after) /\
                sublist (UserService.users after) (UserService.users this)) /\
  (success response = false -> after = this) /\
  (hasAdmin this -> hasAdmin after).
Proof.
  cbv zeta. split; [|split; [|split]]; [| | |apply delete_hasAdmin].
  - unfold UserService.delete, storedUser, restricted.
    fold (adminCount (UserService.users this)).
    destruct (find _ _) as [user|] eqn:Hf.
    + destruct (findIndex_find _ _ _ Hf) as (i & -> & ->).
      destruct (match deletedBy with Some d => negb (User.canManageUsers d) | None => false end);
        cbn [fst success failure].
      { split; [discriminate | intros (u & _ & H & _); discriminate]. }
      destruct (bool_decide_reflect (User.role user = ADMIN)) as [Hr | Hr]; cbn [andb].
      * destruct (Nat.leb_spec (adminCount (UserService.users this)) 1) as [Hle | Hlt];
          cbn [fst success ok failure].
        -- split; [discriminate | intros (u & [= <-] & _ & H); specialize (H Hr); lia].
        -- split; [intros _; exists user; repeat split; auto; intros _; lia | reflexivity].
      * cbn [fst success ok]. split; [|reflexivity].
        intros _. exists user. repeat split; auto. intros H. now elim Hr.
    + rewrite (findIndex_find_none _ _ Hf). cbn [fst success failure].
      split; [discriminate | intros (u & H & _); discriminate].
  - unfold UserService.delete, storedUser.
    destruct (find _ _) as [user|] eqn:Hf.
    + destruct (findIndex_find _ _ _ Hf) as (i & -> & Hx). rewrite Hx.
      case_if; [discriminate |]. case_if; [discriminate |].
      intros _. exists user. cbn [snd UserService.users].
      split; [reflexivity |]. split; [now apply delete_Permutation | apply sublist_delete].
    + rewrite (findIndex_find_none _ _ Hf). discriminate.
  - unfold UserService.delete.
    destruct (findIndex _ _) as [i|]; [|reflexivity].
    destruct (UserService.users this !! i) as [user|]; [|reflexivity].
    case_if; [reflexivity |]. case_if; [reflexivity | discriminate].
Qed.

Lemma filter_role_lengths (l : list User.t) :
  (length (List.filter (fun u => bool_decide (User.role u = ADMIN)) l) +
   length (List.filter (fun u => bool_decide (User.role u = MANAGER)) l) +
   length (List.filter (fun u => bool_decide (User.role u = USER)) l) +
   length (List.filter (fun u => bool_decide (User.role u = GUEST)) l))%nat = length l.
Proof.
  induction l as [|u l IH]; [reflexivity |]. cbn [List.filter].
  destruct (User.role u); cbn [bool_decide decide_rel length]; simpl; lia.
Qed.

Lemma usersOfRole_filter (role : UserRole) (this : UserService.t) :
  usersOfRole role this =
  List.filter (fun u => bool_decide (User.role u = role)) (UserService.users this).
Proof. reflexivity. Qed.

(** X25.  What the listings show.  [getAll] answers a requester who
    cannot manage users with exactly the active users, as
    [getActiveUsers] does, and everybody else, also a call without
    requester, with all users.  The listings keep the order of the
    service.  Every user is in the listing of exactly one role: the four
    lengths add up to [getCount]. *)
Theorem user_listings (requestedBy : option User.t) (now : Z) (this : UserService.t) :
  data (UserService.getAll requestedBy now this) =
    (if restricted requestedBy
     then data (UserService.getActiveUsers now this)
     else Some (UserService.users this)) /\
  (exists active, data (UserService.getActiveUsers now this) = Some active /\
     sublist active (UserService.users this) /\
     forall u, In u active <-> In u (UserService.users this) /\ User.isActive u = true) /\
  (forall role, sublist (usersOfRole role this) (UserService.users this) /\
     forall u, In u (usersOfRole role this) <->
               In u (UserService.users this) /\ User.role u = role) /\
  (length (usersOfRole ADMIN this) + length (usersOfRole MANAGER this) +
   length (usersOfRole USER this) + length (usersOfRole GUEST this))%nat =
    UserService.getCount this.
Proof.
  split; [|split; [|split]].
  - unfold UserService.getAll, UserService.getActiveUsers, restricted.
    destruct (match requestedBy with Some r => negb (User.canManageUsers r) | None => false end);
      reflexivity.
  - eexists. split; [reflexivity |]. split; [apply filter_sublist |].
    intros u. apply filter_In.
  - intros role. rewrite usersOfRole_filter.
    split; [apply filter_sublist |]. intros u. rewrite filter_In.
    now rewrite bool_decide_eq_true.
  - rewrite !usersOfRole_filter. apply filter_role_lengths.
Qed.

(** ** Pages out of range *)





(** ** Operations one after the other *)

Lemma filter_length_insert {A : Type} (p : A -> bool) (l : list A) (i : nat) (x y : A) :
  l !! i = Some x ->
  (length (List.filter p (<[i := y]> l)) + (if p x then 1 else 0))%nat =
  (length (List.filter p l) + (if p y then 1 else 0))%nat.
Proof.
  revert i. induction l as [|z l IH]; intros [|i]; simpl; try discriminate.
  - intros [= ->]. destruct (p x), (p y); simpl; lia.
  - intros Hi. specialize (IH i Hi). destruct (p z); simpl; lia.
Qed.

Lemma getStatistics_completed (now : Z) (this : TaskService.t) :
  TaskService.stats_completed (TaskService.getStatistics now this) =
  length (List.filter Task.completed (TaskService.tasks this)).
Proof.
  unfold TaskService.getStatistics. cbv zeta.
  match goal with
  | |- context [fold_left _ ?l ?s0] => destruct (fold_countTask now l s0) as (_ & H & _)
  end.
  rewrite H. reflexivity.
Qed.

(** X27.  [markComplete] and the queries.  [markComplete] succeeds
    exactly when the identifier is found.  The task found is then stored
    completed, with the status DONE and the date of the call: [getById]
    returns it so, [getOverdueTasks] no longer lists it, and the
    completed counter of the statistics goes up by one unless the task was
    completed already.  When the identifier is not found the service is
    left as it is. *)
Theorem markComplete_outcome (id : string) (now later : Z) (this : TaskService.t) :
  let response := fst (TaskService.markComplete id now this) in
  let after := snd (TaskService.markComplete id now this) in
  (success response = true <-> exists task, stored id this = Some task) /\
  (forall task, stored id this = Some task ->
     let done := Task.markComplete now task in
     data response = Some done /\
     TaskService.getById id later after = ok done later /\
     Task.completed done = true /\ Task.status done = DONE /\
     Task.updatedAt done = Instant now /\
     ~ In done (listOf (TaskService.getOverdueTasks later after)) /\
     TaskService.stats_completed (TaskService.getStatistics later after) =
       (TaskService.stats_completed (TaskService.getStatistics later this) +
        if Task.completed task then 0 else 1)%nat) /\
  (stored id this = None ->
     response = failure (TaskService.notFound id) now /\ after = this).
Proof.
  cbv zeta. unfold stored, TaskService.markComplete.
  destruct (find _ _) as [task|] eqn:Hf.
  - destruct (findIndex_find _ _ _ Hf) as (i & Hi & Hx). rewrite Hi, Hx.
    cbn [fst snd success data ok].
    split; [split; [eauto | reflexivity] |]. split; [|discriminate].
    intros t [= <-]. split; [reflexivity |].
    split.
    { rewrite getById_find. unfold stored. cbn [TaskService.tasks].
      rewrite (find_insert _ _ i (Task.markComplete now task) Hi); [reflexivity |].
      destruct (findIndex_lookup _ _ _ Hi) as (x & Hx' & Hp).
      assert (x = task) by congruence. subst x. exact Hp. }
    split; [reflexivity |]. split; [reflexivity |]. split; [reflexivity |].
    split.
    { unfold TaskService.getOverdueTasks, listOf. cbn [data ok TaskService.tasks].
      rewrite filter_In. intros [_ H]. apply isOverdue_iff in H as [H _]. discriminate. }
    rewrite !getStatistics_completed. cbn [TaskService.tasks].
    pose proof (filter_length_insert Task.completed _ i task (Task.markComplete now task) Hx) as E.
    change (Task.completed (Task.markComplete now task)) with true in E.
    destruct (Task.completed task); lia.
  - rewrite (findIndex_find_none _ _ Hf). cbn [fst snd success failure].
    split; [split; [discriminate | intros [t H]; discriminate] |].
    split; [intros t H; discriminate | split; reflexivity].
Qed.

(** X28.  A user who was registered can log in.  After a successful
    [create], [authenticate] with the email address of the new user
    succeeds whatever the password, returns that user with the login
    stamped, and stores the stamp: [getByEmail] returns the user with the
    date of the login. *)
Theorem registered_can_login (userData : CreateUserInput.t) (createdBy : option User.t)
    (now later : Z) (password : string) (this : UserService.t) :
  success (fst (UserService.create userData createdBy now this)) = true ->
  let after := snd (UserService.create userData createdBy now this) in
  let login := UserService.authenticate (CreateUserInput.email userData) password later after in
  exists user,
    data (fst (UserService.create userData createdBy now this)) = Some user /\
    fst login = ok (User.recordLogin later user) later /\
    User.lastLogin (User.recordLogin later user) = Some (Instant later) /\
    UserService.getByEmail (CreateUserInput.email userData) later (snd login) =
      ok (User.recordLogin later user) later /\
    length (UserService.users (snd login)) = S (length (UserService.users this)).
Proof.
  cbv zeta. unfold UserService.create, UserService.generateId.
  destruct (match createdBy with Some c => negb (User.canManageUsers c) | None => false end);
    [discriminate |].
  destruct (find _ (UserService.users this)) eqn:Hf; [discriminate |].
  cbn [UserService.users UserService.nextId].
  case_if; [discriminate |]. intros _. cbn [fst snd data ok].
  eexists. split; [reflexivity |].
  match goal with |- context [push _ ?u] => set (user := u) end.
  assert (storedEmail (CreateUserInput.email userData)
            {| UserService.users := push (UserService.users this) user;
               UserService.nextId := S (UserService.nextId this) |} = Some user) as Hs.
  { unfold storedEmail, push. cbn [UserService.users].
    apply find_app_fresh; [|apply String.eqb_refl].
    intros y Hy. apply (find_none _ _ Hf y Hy). }
  rewrite authenticate_cases, Hs.
  change (negb (User.isActive user)) with false. change (User.isLocked user) with false.
  cbv iota. cbn [fst snd UserService.users UserService.nextId].
  unfold storedEmail in Hs. cbn [UserService.users] in Hs.
  destruct (findIndex_find _ _ _ Hs) as (i & Hi & Hx). rewrite Hi.
  split; [reflexivity |]. split; [reflexivity |]. split.
  - rewrite user_getByEmail_find. unfold storedEmail. cbn [UserService.users].
    now rewrite (find_insert _ _ i (User.recordLogin later user) Hi (String.eqb_refl _)).
  - cbn [UserService.users]. rewrite length_insert. unfold push.
    rewrite length_app. simpl. lia.
Qed.

(** A guest registers with the fresh service and logs in. *)
Lemma registered_can_login_witness :
  let this := UserService.constructor 0 in
  let after := snd (UserService.create guestInput None 1 this) in
  let login := UserService.authenticate (CreateUserInput.email guestInput) "secret" 2 after in
  exists user,
    data (fst (UserService.create guestInput None 1 this)) = Some user /\
    fst login = ok (User.recordLogin 2 user) 2 /\
    User.lastLogin (User.recordLogin 2 user) = Some (Instant 2) /\
    UserService.getByEmail (CreateUserInput.email guestInput) 2 (snd login) =
      ok (User.recordLogin 2 user) 2 /\
    length (UserService.users (snd login)) = S (length (UserService.users this)).
Proof.
  apply (registered_can_login guestInput None 1 2 "secret" (UserService.constructor 0)).
  reflexivity.
Defined.

Lemma user_update_success (id : string) (updates : PartialIUser.t)
    (updatedBy : option User.t) (now : Z) (this : UserService.t) :
  success (fst (UserService.update id updates updatedBy now this)) = true ->
  exists (i : nat) (user user' : User.t),
    UserService.users this !! i = Some user /\
    data (fst (UserService.update id updates updatedBy now this)) = Some user' /\
    UserService.users (snd (UserService.update id updates updatedBy now this)) =
      <[i := user']> (UserService.users this) /\
    (forall a, PartialIUser.isActive updates = Some a -> User.isActive user' = a).
Proof.
  unfold UserService.update.
  destruct (findIndex _ _) as [i|] eqn:Hi; [|discriminate].
  destruct (UserService.users this !! i) as [user|] eqn:Hu; [|discriminate].
  case_if; [discriminate |]. case_if; [discriminate |].
  cbn [UserService.users UserService.nextId].
  match goal with
  | |- context [match ?m with Some _ => (failure "Email is already taken by another user" _, _)
                | None => _ end] => destruct m; [discriminate |]
  end.
  case_if; [discriminate |]. intros _. exists i, user. eexists.
  split; [exact Hu |]. split; [reflexivity |].
  split; [cbn [snd UserService.users]; apply list_insert_insert_eq |].
  intros a Ha. rewrite Ha. destruct (PartialIUser.preferences updates); reflexivity.
Qed.

Lemma find_first {A : Type} (p : A -> bool) (l : list A) (x : A) :
  In x l -> p x = true -> exists y, find p l = Some y.
Proof.
  induction l as [|z l IH]; simpl; [tauto |].
  intros Hin Hp. destruct (p z) eqn:E; [eauto |].
  destruct Hin as [-> | Hin]; [congruence | auto].
Qed.

(** X29.  A user who was deactivated cannot log in.  On a service with
    generated identifiers and distinct email addresses, after a successful
    [update] that sets [isActive] to false, [authenticate] with the email
    address of that user fails with the answer that the account is
    deactivated, whatever the password, and changes nothing. *)
Theorem deactivated_cannot_login (id : string) (updates : PartialIUser.t)
    (updatedBy : option User.t) (now later : Z) (password : string) (this : UserService.t) :
  numberedUsers this ->
  PartialIUser.isActive updates = Some false ->
  success (fst (UserService.update id updates updatedBy now this)) = true ->
  exists user,
    data (fst (UserService.update id updates updatedBy now this)) = Some user /\
    User.isActive user = false /\
    UserService.authenticate (User.email user) password later
      (snd (UserService.update id updates updatedBy now this)) =
    (failure "Account is deactivated" later,
     snd (UserService.update id updates updatedBy now this)).
Proof.
  intros Hn Hactive Hs.
  pose proof (user_update_numbered id updates updatedBy now this Hn) as (_ & _ & Hem).
  destruct (user_update_success id updates updatedBy now this Hs)
    as (i & user & user' & Hu & Hd & Husers & Ha).
  specialize (Ha false Hactive).
  exists user'. split; [exact Hd |]. split; [exact Ha |].
  set (after := snd (UserService.update id updates updatedBy now this)) in *.
  assert (UserService.users after !! i = Some user') as Hi.
  { rewrite Husers. apply list_lookup_insert_eq. now apply lookup_lt_Some in Hu. }
  assert (storedEmail (User.email user') after = Some user') as Hfind.
  { unfold storedEmail.
    destruct (find_first (fun u => String.eqb (User.email u) (User.email user'))
                (UserService.users after) user') as [y Hy].
    - eapply list_elem_of_In, list_elem_of_lookup_2, Hi.
    - apply String.eqb_refl.
    - rewrite Hy. f_equal.
      destruct (findIndex_find _ _ _ Hy) as (j & _ & Hj).
      apply find_some in Hy as [_ Hp]. apply String.eqb_eq in Hp.
      assert (j = i) by (apply (NoDup_map_lookup User.email _ j i y user' Hem Hj Hi Hp)).
      subst j. congruence. }
  rewrite authenticate_cases, Hfind, Ha. reflexivity.
Qed.

(** The guest of a two-user service is deactivated. *)
Lemma deactivated_cannot_login_witness :
  let this := snd (UserService.create guestInput None 1 (UserService.constructor 0)) in
  exists user,
    data (fst (UserService.update "user_2" deactivation None 3 this)) = Some user /\
    User.isActive user = false /\
    UserService.authenticate (User.email user) "secret" 4
      (snd (UserService.update "user_2" deactivation None 3 this)) =
    (failure "Account is deactivated" 4,
     snd (UserService.update "user_2" deactivation None 3 this)).
Proof.
  apply (deactivated_cannot_login "user_2" deactivation None 3 4 "secret"
           (snd (UserService.create guestInput None 1 (UserService.constructor 0)))).
  - split; [|split].
    + let l := eval vm_compute in
        (UserService.users
           (snd (UserService.create guestInput None 1 (UserService.constructor 0)))) in
      change (UserService.users
                (snd (UserService.create guestInput None 1 (UserService.constructor 0))))
        with l.
      apply List.Forall_cons; [exists 1%nat; split; [vm_compute; lia | reflexivity] |].
      apply List.Forall_cons; [exists 2%nat; split; [vm_compute; lia | reflexivity] |].
      apply List.Forall_nil.
    + vm_compute. repeat (apply List.NoDup_cons; [simpl; intuition discriminate |]).
      apply List.NoDup_nil.
    + vm_compute. repeat (apply List.NoDup_cons; [simpl; intuition discriminate |]).
      apply List.NoDup_nil.
  - reflexivity.
  - reflexivity.
Defined.
